(** * BiliTube-Wormhole: identity verification and sharded mapping storage

    A shallow embedding of
    - [src/workflows/verifier.ts]   (string similarity, bio cross-reference,
      the four-level verification cascade),
    - [src/storage/shard-manager.ts] (hash-sharded mapping files, index
      rebuild, the managers of the two directions),
    - [src/api/bilibili.ts]         (the [RateLimiter] and the rankings),
    - [src/workflows/scanner.ts]    (the daily scan),
    - [src/utils/mapping-client.ts] (the cached lookups of the extension),
    - the content scripts and the submission schema, as far as they read
      identifiers off addresses,
    with the properties stated about them.

    Conventions.
    - A JavaScript string is the list of its UTF-16 code units; [js] turns
      an ASCII literal into one.
    - A JavaScript [number] is a binary64 float ([PrimFloat.float]); integers
      that only count or index (string lengths, matrix cells, loop
      counters, milliseconds) are kept as [Z] or [nat] and converted where
      the source starts to divide.
    - An [async] function is its sequential reading: every [await] is a
      plain call, a rejected promise is [Raise].
    - [console.error] and [console.log] have no effect on any result and are
      left out.
    - A path names a file as the file system reads it: a run of slashes
      counts as one slash.  Dot segments and links are not resolved; the
      paths the program builds under one base directory contain none.
    - An object used as a map is the finite map of its own properties. *)

From Stdlib Require Import ZArith NArith List String Ascii Bool Lia.
From Stdlib Require Import Floats Uint63.
From stdpp Require Import base option list gmap fin_maps.

Set Warnings "-inexact-float,-clear-no-such-hyp".
Set Default Proof Using "Type".

Local Open Scope Z_scope.

(** ** JavaScript strings *)

Abbreviation jsstring := (list N).

Fixpoint js (s : string) : jsstring :=
  match s with
  | EmptyString => []
  | String a rest => N_of_ascii a :: js rest
  end.

(** [s.startsWith(pat)] *)
Fixpoint startsWith (pat s : jsstring) : bool :=
  match pat, s with
  | [], _ => true
  | p :: pat', c :: s' => N.eqb p c && startsWith pat' s'
  | _ :: _, [] => false
  end.

(** [s.includes(pat)]: [pat] occurs in [s] at some position. *)
Fixpoint includes (s pat : jsstring) : bool :=
  startsWith pat s ||
  match s with
  | [] => false
  | _ :: s' => includes s' pat
  end.

(** [String.prototype.toLowerCase] on ASCII text: the 26 capital letters
    move to their small forms, every other code unit stays.  The verifier
    below is parametric in the lower-casing function; this is the instance
    used to run it on ASCII inputs. *)
Definition asciiLowerUnit (c : N) : N :=
  if (N.leb 65 c && N.leb c 90)%bool then (c + 32)%N else c.

Definition asciiLower (s : jsstring) : jsstring := map asciiLowerUnit s.

(** ** JavaScript numbers *)

Abbreviation number := float.

(** The Number holding a non-negative integer below 2^63 (a length, an
    edit distance, a counter). *)
Definition toNumber (z : Z) : number := PrimFloat.of_uint63 (Uint63.of_Z z).

(** [a >= b] and [a <= b] on Numbers: false when either side is NaN. *)
Definition geq (a b : number) : bool := PrimFloat.leb b a.
Definition leq (a b : number) : bool := PrimFloat.leb a b.

(** ** Sparse arrays, as [stringSimilarity] uses them

    [matrix: number[][]] is grown by assignment.  A slot never assigned is
    a hole and reads as [undefined]. *)

Definition jsarray (A : Type) := list (option A).

(** [a[i]], [undefined] past the end or at a hole. *)
Definition aget {A} (a : jsarray A) (i : nat) : option A :=
  match nth_error a i with
  | Some (Some v) => Some v
  | _ => None
  end.

(** [a[i] = v]: overwrites inside the array, extends it otherwise (leaving
    holes when [i] lies beyond the end). *)
Definition aset {A} (a : jsarray A) (i : nat) (v : A) : jsarray A :=
  if (i <? length a)%nat
  then firstn i a ++ Some v :: skipn (S i) a
  else a ++ repeat None (i - length a) ++ [Some v].

(** ** [stringSimilarity] (verifier.ts, lines 13-55) *)

(** [for (let i = 0; i <= len1; i++) matrix[i] = [i];] *)
Definition initRows (len1 : nat) : jsarray (jsarray Z) :=
  fold_left (fun m i => aset m i [Some (Z.of_nat i)]) (seq 0 (S len1)) [].

(** [for (let j = 0; j <= len2; j++) if (matrix[0]) matrix[0][j] = j;] *)
Definition initFirstRow (len2 : nat) (m : jsarray (jsarray Z)) : jsarray (jsarray Z) :=
  fold_left
    (fun m j =>
       match aget m 0 with
       | Some row0 => aset m 0 (aset row0 j (Z.of_nat j))
       | None => m
       end)
    (seq 0 (S len2)) m.

(** The body of the inner loop at [(i, j)].  [currRow[j] = ...] writes
    through to [matrix[i]], the array [currRow] aliases. *)
Definition fillCell (str1 str2 : jsstring) (i j : nat) (m : jsarray (jsarray Z))
  : jsarray (jsarray Z) :=
  let cost : Z :=
    match nth_error str1 (i - 1), nth_error str2 (j - 1) with
    | Some a, Some b => if N.eqb a b then 0 else 1
    | None, None => 0            (* undefined === undefined *)
    | _, _ => 1
    end in
  let prevRow := aget m (i - 1) in
  let currRow := aget m i in
  let prevCell := currRow ≫= fun r => aget r (j - 1) in
  let diagCell := prevRow ≫= fun r => aget r (j - 1) in
  let prevRowCell := prevRow ≫= fun r => aget r j in
  match currRow, prevRow, prevCell, diagCell, prevRowCell with
  | Some cr, Some _, Some pc, Some dc, Some prc =>
      aset m i (aset cr j (Z.min (Z.min (prc + 1) (pc + 1)) (dc + cost)))
  | _, _, _, _, _ => m
  end.

Definition fillMatrix (str1 str2 : jsstring) (m : jsarray (jsarray Z))
  : jsarray (jsarray Z) :=
  fold_left
    (fun m i => fold_left (fun m j => fillCell str1 str2 i j m) (seq 1 (length str2)) m)
    (seq 1 (length str1)) m.

(** The edit distance read from [matrix[len1][len2]], if that cell exists. *)
Definition editDistance (str1 str2 : jsstring) : option Z :=
  let m := fillMatrix str1 str2 (initFirstRow (length str2) (initRows (length str1))) in
  aget m (length str1) ≫= fun lastRow => aget lastRow (length str2).

Definition stringSimilarity (str1 str2 : jsstring) : number :=
  match editDistance str1 str2 with
  | None => 0%float
  | Some distance =>
      let maxLen := Z.max (Z.of_nat (length str1)) (Z.of_nat (length str2)) in
      (1 - toNumber distance / toNumber maxLen)%float
  end.

(** ** [normalizeUsername] (verifier.ts, lines 60-65) *)

(** The class [[_\-\s]]: underscore, hyphen and the code units [\s]
    matches. *)
Definition isSeparator (c : N) : bool :=
  existsb (N.eqb c)
    [95; 45; 9; 10; 11; 12; 13; 32; 160; 5760; 8232; 8233; 8239; 8287; 12288; 65279]%N
  || (N.leb 8192 c && N.leb c 8202).

(** Case folding of the [i] flag.  For the three alternatives below only
    ASCII letters fold onto a pattern character. *)
Definition canonicalize (c : N) : N :=
  if (N.leb 97 c && N.leb c 122)%bool then (c - 32)%N else c.

Fixpoint matchesAt (pat s : jsstring) : bool :=
  match pat, s with
  | [], _ => true
  | p :: pat', c :: s' => N.eqb (canonicalize p) (canonicalize c) && matchesAt pat' s'
  | _ :: _, [] => false
  end.

(** [official|频道|channel] *)
Definition suffixTokens : list jsstring :=
  [js "official"; [39057; 36947]%N; js "channel"].

(** [.replace(/official|频道|channel/gi, '')]: scanning left to right, a
    match is dropped and the scan resumes after it.  [skip] counts the code
    units of the current match still to drop. *)
Fixpoint stripTokens (skip : nat) (s : jsstring) : jsstring :=
  match s with
  | [] => []
  | c :: rest =>
      match skip with
      | S k => stripTokens k rest
      | O =>
          match find (fun tok => matchesAt tok s) suffixTokens with
          | Some tok => stripTokens (length tok - 1) rest
          | None => c :: stripTokens 0 rest
          end
      end
  end.

(** ** Data model (types.ts) *)

(** What a [number] property holds at run time: a Number, or [null] once a
    record has been through JSON (which has no NaN and no infinities). *)
Inductive numval :=
| Num (f : number)
| Null.

Record VerificationMetadata := {
  bilibiliFollowers : option numval;
  youtubeSubscribers : option numval;
  avatarSimilarity : option numval;
  usernameSimilarity : option numval;
  bioMatch : option bool;
  youtubeVerified : option bool;
  matchingVideos : option numval;
  issueNumber : option numval
}.

Inductive verifiedBy := auto | manual.

Record UserMapping := {
  bilibiliUid : jsstring;
  bilibiliUsername : jsstring;
  bilibiliAvatar : option jsstring;
  youtubeChannelId : jsstring;
  youtubeChannelName : jsstring;
  youtubeAvatar : option jsstring;
  verificationLevel : Z;
  verifiedAt : jsstring;
  um_verifiedBy : verifiedBy;
  um_metadata : option VerificationMetadata
}.

Record BilibiliUser := {
  bu_uid : jsstring;
  bu_name : jsstring;
  bu_face : jsstring;
  bu_sign : jsstring;
  bu_follower : number;
  bu_level : number;
  bu_official : option (number * jsstring)
}.

Record BilibiliVideo := {
  bv_bvid : jsstring;
  bv_aid : number;
  bv_title : jsstring;
  bv_pic : jsstring;
  bv_author : jsstring;
  bv_mid : number;
  bv_created : number;
  bv_length : jsstring;
  bv_play : number;
  bv_danmaku : number
}.

Record Thumbnails := {
  th_default : jsstring;
  th_medium : jsstring;
  th_high : jsstring
}.

Record YouTubeChannel := {
  yc_id : jsstring;
  yc_title : jsstring;
  yc_description : jsstring;
  yc_customUrl : option jsstring;
  yc_thumbnails : Thumbnails;
  yc_subscriberCount : option number;
  yc_videoCount : option number;
  yc_verified : option bool
}.

Record YouTubeVideo := {
  yv_id : jsstring;
  yv_title : jsstring;
  yv_description : jsstring;
  yv_channelId : jsstring;
  yv_channelTitle : jsstring;
  yv_publishedAt : jsstring;
  yv_thumbnails : Thumbnails;
  yv_duration : jsstring;
  yv_viewCount : option number
}.

(** The entries of [VerificationResult.reasons].  The source builds them as
    template strings; each constructor stands for one template, with the
    values it interpolates. *)
Inductive reason :=
| ChannelIsVerified                        (* 'YouTube channel is verified' *)
| UsernameSimilarityIs (s : number)        (* `Username similarity: ${(s * 100).toFixed(1)}%` *)
| BioMentionsDetected                      (* 'Cross-platform bio mentions detected' *)
| BioContainsLink                          (* 'Bio contains platform link' *)
| EmptyReason                              (* '' *)
| HighUsernameSimilarity (s : number)      (* `High username similarity: ...%` *)
| ModerateUsernameSimilarity (s : number)  (* `Moderate username similarity: ...%` *)
| MatchingVideoTitles (n : nat)            (* `${n} matching video titles` *)
| MatchingVideoTitleS (n : nat)            (* `${n} matching video title(s)` *)
| FollowerRatioReasonable                  (* 'Follower count ratio is reasonable' *)
| InsufficientConfidence                   (* 'Insufficient confidence for automatic verification' *)
| ManualReviewRequired                     (* 'Manual review required' *)
| VerificationFailed (e : jsstring).       (* `Verification failed: ${error}` *)

Record VerificationResult := {
  success : bool;
  level : Z;
  confidence : number;
  reasons : list reason;
  vr_metadata : VerificationMetadata;
  mapping : option UserMapping
}.

(** The empty object [{}] as a [VerificationMetadata]. *)
Definition noMetadata : VerificationMetadata :=
  {| bilibiliFollowers := None; youtubeSubscribers := None; avatarSimilarity := None;
     usernameSimilarity := None; bioMatch := None; youtubeVerified := None;
     matchingVideos := None; issueNumber := None |}.

(** ** Promises that reject, collaborators, and the fetches a run performs *)

(** A thrown value, by the text [`${error}`] renders it to. *)
Definition exn := jsstring.

Inductive result (A : Type) :=
| Ok (a : A)
| Raise (e : exn).
Arguments Ok {A} a.
Arguments Raise {A} e.

(** The two platform clients, as far as [verify] calls them.  Each method
    either resolves to its value or rejects. *)
Record Api := {
  getUserInfo : jsstring -> result BilibiliUser;
  getChannel : jsstring -> result YouTubeChannel;
  getUserVideos : jsstring -> Z -> Z -> result (list BilibiliVideo);
  getChannelVideos : jsstring -> Z -> result (list YouTubeVideo)
}.

Inductive fetch :=
| GetUserInfo (uid : jsstring)
| GetChannel (channelId : jsstring)
| GetUserVideos (uid : jsstring) (page pageSize : Z)
| GetChannelVideos (channelId : jsstring) (maxResults : Z).

(** One performed fetch: which one, and the error it rejected with, if it
    did. *)
Definition event : Type := fetch * option exn.

(** A computation that performs fetches and may throw: the fetches
    performed, in order, and the outcome. *)
Definition task (A : Type) : Type := list event * result A.

Definition ret {A} (a : A) : task A := ([], Ok a).

Definition bind {A B} (m : task A) (k : A -> task B) : task B :=
  match m with
  | (log, Ok a) => let '(log', r) := k a in (log ++ log', r)
  | (log, Raise e) => (log, Raise e)
  end.

Notation "'let*' x ':=' m 'in' k" := (bind m (fun x => k))
  (at level 10, x name, m at level 100, k at level 200).

(** [try { body } catch (error) { handler }] *)
Definition tryCatch {A} (body : task A) (handler : exn -> task A) : task A :=
  match body with
  | (log, Ok a) => (log, Ok a)
  | (log, Raise e) => let '(log', r) := handler e in (log ++ log', r)
  end.

Definition rejection {A} (r : result A) : option exn :=
  match r with
  | Ok _ => None
  | Raise e => Some e
  end.

(** [await] on a collaborator call. *)
Definition await {A} (f : fetch) (r : result A) : task A := ([(f, rejection r)], r).

(** ** The verifier (verifier.ts) *)

Section Verifier.

(** [String.prototype.toLowerCase], the two platform clients, and the
    instant [new Date().toISOString()] reads when a mapping is created. *)
Variable toLowerCase : jsstring -> jsstring.
Variable api : Api.
Variable now : jsstring.

Definition normalizeUsername (username : jsstring) : jsstring :=
  stripTokens 0 (filter (fun c => negb (isSeparator c)) (toLowerCase username)).

(** [checkBioMatch] (lines 70-90) *)
Definition checkBioMatch (biliSign ytDescription biliUid ytChannelId : jsstring) : bool :=
  let biliLower := toLowerCase biliSign in
  let ytLower := toLowerCase ytDescription in
  let ytPatterns := [toLowerCase ytChannelId; js "youtube.com"; js "youtu.be"] in
  let biliMentionsYt := existsb (fun pattern => includes biliLower pattern) ytPatterns in
  let biliPatterns :=
    [biliUid; js "bilibili.com"; [98; 31449]%N; [98; 31449; 31354; 38388]%N] in
  let ytMentionsBili := existsb (fun pattern => includes ytLower pattern) biliPatterns in
  biliMentionsYt || ytMentionsBili.

(** [createMapping] (lines 261-279) *)
Definition createMapping (biliUser : BilibiliUser) (ytChannel : YouTubeChannel)
    (lvl : Z) (metadata : VerificationMetadata) : UserMapping :=
  {| bilibiliUid := bu_uid biliUser;
     bilibiliUsername := bu_name biliUser;
     bilibiliAvatar := Some (bu_face biliUser);
     youtubeChannelId := yc_id ytChannel;
     youtubeChannelName := yc_title ytChannel;
     youtubeAvatar := Some (th_high (yc_thumbnails ytChannel));
     verificationLevel := lvl;
     verifiedAt := now;
     um_verifiedBy := auto;
     um_metadata := Some metadata |}.

Definition nameSimilarityOf (biliUser : BilibiliUser) (ytChannel : YouTubeChannel) : number :=
  stringSimilarity (normalizeUsername (bu_name biliUser)) (normalizeUsername (yc_title ytChannel)).

(** The metadata object as first built (lines 113-118). *)
Definition initialMetadata (biliUser : BilibiliUser) (ytChannel : YouTubeChannel)
  : VerificationMetadata :=
  {| bilibiliFollowers := Some (Num (bu_follower biliUser));
     youtubeSubscribers := Num <$> yc_subscriberCount ytChannel;
     avatarSimilarity := None; usernameSimilarity := None; bioMatch := None;
     youtubeVerified := None; matchingVideos := None; issueNumber := None |}.

Definition withUsernameSimilarity (s : number) (m : VerificationMetadata) :=
  {| bilibiliFollowers := bilibiliFollowers m; youtubeSubscribers := youtubeSubscribers m;
     avatarSimilarity := avatarSimilarity m; usernameSimilarity := Some (Num s);
     bioMatch := bioMatch m; youtubeVerified := youtubeVerified m;
     matchingVideos := matchingVideos m; issueNumber := issueNumber m |}.

Definition withYoutubeVerified (b : bool) (m : VerificationMetadata) :=
  {| bilibiliFollowers := bilibiliFollowers m; youtubeSubscribers := youtubeSubscribers m;
     avatarSimilarity := avatarSimilarity m; usernameSimilarity := usernameSimilarity m;
     bioMatch := bioMatch m; youtubeVerified := Some b;
     matchingVideos := matchingVideos m; issueNumber := issueNumber m |}.

Definition withBioMatch (b : bool) (m : VerificationMetadata) :=
  {| bilibiliFollowers := bilibiliFollowers m; youtubeSubscribers := youtubeSubscribers m;
     avatarSimilarity := avatarSimilarity m; usernameSimilarity := usernameSimilarity m;
     bioMatch := Some b; youtubeVerified := youtubeVerified m;
     matchingVideos := matchingVideos m; issueNumber := issueNumber m |}.

Definition withMatchingVideos (n : nat) (m : VerificationMetadata) :=
  {| bilibiliFollowers := bilibiliFollowers m; youtubeSubscribers := youtubeSubscribers m;
     avatarSimilarity := avatarSimilarity m; usernameSimilarity := usernameSimilarity m;
     bioMatch := bioMatch m; youtubeVerified := youtubeVerified m;
     matchingVideos := Some (Num (toNumber (Z.of_nat n))); issueNumber := issueNumber m |}.

(** Level 1 (lines 120-142): the metadata after the attempt, and the
    result when the attempt returns. *)
Definition level1 (biliUser : BilibiliUser) (ytChannel : YouTubeChannel)
    (metadata : VerificationMetadata) : VerificationMetadata * option VerificationResult :=
  match yc_verified ytChannel with
  | Some true =>
      let nameSimilarity := nameSimilarityOf biliUser ytChannel in
      let metadata := withYoutubeVerified true (withUsernameSimilarity nameSimilarity metadata) in
      if geq nameSimilarity 0.8
      then (metadata,
            Some {| success := true;
                    level := 1;
                    confidence := (0.95 + nameSimilarity * 0.05)%float;
                    reasons := [ChannelIsVerified; UsernameSimilarityIs nameSimilarity];
                    vr_metadata := metadata;
                    mapping := Some (createMapping biliUser ytChannel 1 metadata) |})
      else (metadata, None)
  | _ => (metadata, None)
  end.

Definition isEmptyReason (r : reason) : bool :=
  match r with
  | EmptyReason => true
  | _ => false
  end.

(** Level 2, once [bioMatch] holds (lines 148-166). *)
Definition level2 (biliUser : BilibiliUser) (ytChannel : YouTubeChannel)
    (bioMatched : bool) (metadata : VerificationMetadata) : VerificationResult :=
  let nameSimilarity := nameSimilarityOf biliUser ytChannel in
  let metadata := withUsernameSimilarity nameSimilarity metadata in
  {| success := true;
     level := 2;
     confidence := 0.85%float;
     reasons :=
       filter (fun r => negb (isEmptyReason r))
         [BioMentionsDetected; if bioMatched then BioContainsLink else EmptyReason];
     vr_metadata := metadata;
     mapping := Some (createMapping biliUser ytChannel 2 metadata) |}.

(** The inner loop of lines 181-190 for one source title: [true] when it
    reaches [matchingVideos++; break]. *)
Fixpoint hasMatchingTitle (biliTitle : jsstring) (ytVideos : list YouTubeVideo) : bool :=
  match ytVideos with
  | [] => false
  | ytVideo :: rest =>
      if geq (stringSimilarity (toLowerCase biliTitle) (toLowerCase (yv_title ytVideo))) 0.7
      then true
      else hasMatchingTitle biliTitle rest
  end.

(** The outer loop of lines 179-191. *)
Definition countMatchingVideos (biliVideos : list BilibiliVideo) (ytVideos : list YouTubeVideo)
  : nat :=
  fold_left
    (fun matching biliVideo =>
       if hasMatchingTitle (bv_title biliVideo) ytVideos then S matching else matching)
    biliVideos 0%nat.

(** [ytChannel.subscriberCount! / biliUser.follower]: a missing count is
    [undefined], which the division reads as NaN. *)
Definition followerRatio (biliUser : BilibiliUser) (ytChannel : YouTubeChannel) : number :=
  (match yc_subscriberCount ytChannel with
   | Some n => n
   | None => nan
   end / bu_follower biliUser)%float.

Definition followerRatioValid (biliUser : BilibiliUser) (ytChannel : YouTubeChannel) : bool :=
  geq (followerRatio biliUser ytChannel) 0.5 && leq (followerRatio biliUser ytChannel) 2.0.

(** The score of lines 198-221: the running [confidence] and [reasons]
    after each of the three blocks. *)
Definition scoreName (nameSimilarity : number) (acc : number * list reason)
  : number * list reason :=
  if geq nameSimilarity 0.8
  then ((acc.1 + 0.4)%float, acc.2 ++ [HighUsernameSimilarity nameSimilarity])
  else if geq nameSimilarity 0.6
  then ((acc.1 + 0.2)%float, acc.2 ++ [ModerateUsernameSimilarity nameSimilarity])
  else acc.

Definition scoreVideos (matching : nat) (acc : number * list reason)
  : number * list reason :=
  if (3 <=? matching)%nat
  then ((acc.1 + 0.3)%float, acc.2 ++ [MatchingVideoTitles matching])
  else if (1 <=? matching)%nat
  then ((acc.1 + 0.15)%float, acc.2 ++ [MatchingVideoTitleS matching])
  else acc.

Definition scoreRatio (valid : bool) (acc : number * list reason)
  : number * list reason :=
  if valid
  then ((acc.1 + 0.15)%float, acc.2 ++ [FollowerRatioReasonable])
  else acc.

(** Levels 3 and 4, once both video lists are in (lines 179-246). *)
Definition level3 (biliUser : BilibiliUser) (ytChannel : YouTubeChannel)
    (nameSimilarity : number) (biliVideos : list BilibiliVideo)
    (ytVideos : list YouTubeVideo) (metadata : VerificationMetadata) : VerificationResult :=
  let matching := countMatchingVideos biliVideos ytVideos in
  let metadata := withMatchingVideos matching metadata in
  let valid := followerRatioValid biliUser ytChannel in
  let '(conf, why) :=
    scoreRatio valid (scoreVideos matching (scoreName nameSimilarity (0%float, []))) in
  if geq conf 0.7
  then {| success := true; level := 3; confidence := conf; reasons := why;
          vr_metadata := metadata;
          mapping := Some (createMapping biliUser ytChannel 3 metadata) |}
  else {| success := false; level := 4; confidence := conf;
          reasons := [InsufficientConfidence] ++ why ++ [ManualReviewRequired];
          vr_metadata := metadata;
          mapping := None |}.

(** The [try] block of [verify] (lines 109-246). *)
Definition verifyBody (biliUid ytChannelId : jsstring) : task VerificationResult :=
  let* biliUser := await (GetUserInfo biliUid) (getUserInfo api biliUid) in
  let* ytChannel := await (GetChannel ytChannelId) (getChannel api ytChannelId) in
  let metadata := initialMetadata biliUser ytChannel in
  let '(metadata, returned) := level1 biliUser ytChannel metadata in
  match returned with
  | Some r => ret r
  | None =>
      let bioMatched :=
        checkBioMatch (bu_sign biliUser) (yc_description ytChannel) biliUid ytChannelId in
      let metadata := withBioMatch bioMatched metadata in
      if bioMatched
      then ret (level2 biliUser ytChannel bioMatched metadata)
      else
        let nameSimilarity := nameSimilarityOf biliUser ytChannel in
        let metadata := withUsernameSimilarity nameSimilarity metadata in
        let* biliVideos :=
          await (GetUserVideos biliUid 1 10) (getUserVideos api biliUid 1 10) in
        let* ytVideos :=
          await (GetChannelVideos ytChannelId 10) (getChannelVideos api ytChannelId 10) in
        ret (level3 biliUser ytChannel nameSimilarity biliVideos ytVideos metadata)
  end.

(** The [catch] block (lines 247-255). *)
Definition verificationFailed (error : exn) : VerificationResult :=
  {| success := false;
     level := 4;
     confidence := 0%float;
     reasons := [VerificationFailed error];
     vr_metadata := noMetadata;
     mapping := None |}.

(** [UserVerifier.verify] (lines 107-256). *)
Definition verify (biliUid ytChannelId : jsstring) : task VerificationResult :=
  tryCatch (verifyBody biliUid ytChannelId) (fun error => ret (verificationFailed error)).

End Verifier.

(** ** SHA-256 (FIPS 180-4), as [crypto.createHash('sha256')] computes it *)

(** [hash.update(string)] hashes the UTF-8 encoding of the string; a lone
    surrogate is encoded as U+FFFD. *)
Fixpoint utf8 (s : jsstring) : list N :=
  match s with
  | [] => []
  | c :: rest =>
      if N.ltb c 128 then c :: utf8 rest
      else if N.ltb c 2048
      then [192 + N.shiftr c 6; 128 + N.land c 63]%N ++ utf8 rest
      else if (N.leb 55296 c && N.leb c 56319)%bool
      then
        match rest with
        | d :: rest' =>
            if (N.leb 56320 d && N.leb d 57343)%bool
            then
              let cp := (65536 + N.shiftl (c - 55296) 10 + (d - 56320))%N in
              [240 + N.shiftr cp 18; 128 + N.land (N.shiftr cp 12) 63;
               128 + N.land (N.shiftr cp 6) 63; 128 + N.land cp 63]%N ++ utf8 rest'
            else [239; 191; 189]%N ++ utf8 rest
        | [] => [239; 191; 189]%N
        end
      else if (N.leb 56320 c && N.leb c 57343)%bool
      then [239; 191; 189]%N ++ utf8 rest
      else [224 + N.shiftr c 12; 128 + N.land (N.shiftr c 6) 63; 128 + N.land c 63]%N
           ++ utf8 rest
  end.

Definition w32 (x : N) : N := N.land x 4294967295.
Definition add32 (a b : N) : N := w32 (a + b).
Definition rotr (n x : N) : N := N.lor (N.shiftr x n) (w32 (N.shiftl x (32 - n))).
Definition not32 (x : N) : N := N.lxor x 4294967295.

Definition ch (x y z : N) : N := N.lxor (N.land x y) (N.land (not32 x) z).
Definition maj (x y z : N) : N := N.lxor (N.lxor (N.land x y) (N.land x z)) (N.land y z).
Definition bigSigma0 (x : N) : N := N.lxor (N.lxor (rotr 2 x) (rotr 13 x)) (rotr 22 x).
Definition bigSigma1 (x : N) : N := N.lxor (N.lxor (rotr 6 x) (rotr 11 x)) (rotr 25 x).
Definition smallSigma0 (x : N) : N := N.lxor (N.lxor (rotr 7 x) (rotr 18 x)) (N.shiftr x 3).
Definition smallSigma1 (x : N) : N := N.lxor (N.lxor (rotr 17 x) (rotr 19 x)) (N.shiftr x 10).

Definition roundConstants : list N :=
  [1116352408; 1899447441; 3049323471; 3921009573; 961987163; 1508970993; 2453635748;
   2870763221; 3624381080; 310598401; 607225278; 1426881987; 1925078388; 2162078206;
   2614888103; 3248222580; 3835390401; 4022224774; 264347078; 604807628; 770255983;
   1249150122; 1555081692; 1996064986; 2554220882; 2821834349; 2952996808; 3210313671;
   3336571891; 3584528711; 113926993; 338241895; 666307205; 773529912; 1294757372;
   1396182291; 1695183700; 1986661051; 2177026350; 2456956037; 2730485921; 2820302411;
   3259730800; 3345764771; 3516065817; 3600352804; 4094571909; 275423344; 430227734;
   506948616; 659060556; 883997877; 958139571; 1322822218; 1537002063; 1747873779;
   1955562222; 2024104815; 2227730452; 2361852424; 2428436474; 2756734187; 3204031479;
   3329325298]%N.

Record digest := {
  h0 : N; h1 : N; h2 : N; h3 : N; h4 : N; h5 : N; h6 : N; h7 : N
}.

Definition initialDigest : digest :=
  {| h0 := 1779033703; h1 := 3144134277; h2 := 1013904242; h3 := 2773480762;
     h4 := 1359893119; h5 := 2600822924; h6 := 528734635; h7 := 1541459225 |}%N.

(** Padding: a one bit, zero bits up to 56 mod 64 bytes, then the message
    length in bits as a 64-bit big-endian integer. *)
Definition padMessage (msg : list N) : list N :=
  let len := N.of_nat (length msg) in
  let zeros := N.to_nat ((119 - len mod 64) mod 64)%N in
  msg ++ [128%N] ++ repeat 0%N zeros
      ++ map (fun i => N.land (N.shiftr (8 * len) (8 * i)) 255) [7; 6; 5; 4; 3; 2; 1; 0]%N.

Fixpoint toWords (bytes : list N) : list N :=
  match bytes with
  | a :: b :: c :: d :: rest =>
      (N.shiftl a 24 + N.shiftl b 16 + N.shiftl c 8 + d)%N :: toWords rest
  | _ => []
  end.

(** The message schedule, newest word first: [n] more words after the
    ones in [ws]. *)
Fixpoint schedule (n : nat) (ws : list N) : list N :=
  match n with
  | O => ws
  | S n' =>
      let w :=
        add32 (add32 (smallSigma1 (nth 1 ws 0%N)) (nth 6 ws 0%N))
              (add32 (smallSigma0 (nth 14 ws 0%N)) (nth 15 ws 0%N)) in
      schedule n' (w :: ws)
  end.

Definition round (s : digest) (kw : N * N) : digest :=
  let t1 :=
    add32 (add32 (add32 (h7 s) (bigSigma1 (h4 s))) (ch (h4 s) (h5 s) (h6 s)))
          (add32 kw.1 kw.2) in
  let t2 := add32 (bigSigma0 (h0 s)) (maj (h0 s) (h1 s) (h2 s)) in
  {| h0 := add32 t1 t2; h1 := h0 s; h2 := h1 s; h3 := h2 s;
     h4 := add32 (h3 s) t1; h5 := h4 s; h6 := h5 s; h7 := h6 s |}.

Definition compress (h : digest) (block : list N) : digest :=
  let w := rev (schedule 48 (rev block)) in
  let s := fold_left round (combine roundConstants w) h in
  {| h0 := add32 (h0 h) (h0 s); h1 := add32 (h1 h) (h1 s);
     h2 := add32 (h2 h) (h2 s); h3 := add32 (h3 h) (h3 s);
     h4 := add32 (h4 h) (h4 s); h5 := add32 (h5 h) (h5 s);
     h6 := add32 (h6 h) (h6 s); h7 := add32 (h7 h) (h7 s) |}.

(** The 16-word blocks of [ws], [n] of them. *)
Fixpoint blocks (n : nat) (ws : list N) : list (list N) :=
  match n with
  | O => []
  | S n' => firstn 16 ws :: blocks n' (skipn 16 ws)
  end.

Definition sha256 (msg : list N) : digest :=
  let ws := toWords (padMessage msg) in
  fold_left compress (blocks (length ws / 16) ws) initialDigest.

Definition hexDigit (n : N) : N := if N.ltb n 10 then (48 + n)%N else (87 + n)%N.

Definition hexWord (w : N) : jsstring :=
  map (fun i => hexDigit (N.land (N.shiftr w (4 * i)) 15)) [7; 6; 5; 4; 3; 2; 1; 0]%N.

(** [.digest('hex')] *)
Definition hexDigest (d : digest) : jsstring :=
  hexWord (h0 d) ++ hexWord (h1 d) ++ hexWord (h2 d) ++ hexWord (h3 d)
  ++ hexWord (h4 d) ++ hexWord (h5 d) ++ hexWord (h6 d) ++ hexWord (h7 d).

Definition sha256hex (s : jsstring) : jsstring := hexDigest (sha256 (utf8 s)).

(** ** The file system, as [Bun.file], [Bun.write] and [Bun.Glob] see it

    A path is the string the program builds.  The file system reads a run
    of slashes as one slash, so two strings that differ only in repeated
    slashes name the same file: files are kept under their collapsed path.
    A file holds a text; the JSON grammar itself is not modelled: a text
    either denotes a JSON document or it does not. *)

(** A path with every run of [/] collapsed to one. *)
Fixpoint collapse (path : jsstring) : jsstring :=
  match path with
  | [] => []
  | c :: rest =>
      match rest with
      | d :: _ => if N.eqb c 47 && N.eqb d 47 then collapse rest else c :: collapse rest
      | [] => [c]
      end
  end.

Abbreviation MappingIndex := (gmap jsstring jsstring).

Inductive json :=
| JMapping (m : UserMapping)     (* an object with the fields of a UserMapping *)
| JIndex (index : MappingIndex). (* an object whose every value is a string *)

Inductive content :=
| Json (d : json)          (* a text that parses to [d] *)
| NotJson (text : jsstring). (* a text that is not JSON; [''] is one *)

Inductive entry :=
| File (c : content)
| Denied.                  (* a file whose every read and write fails *)

Abbreviation disk := (gmap jsstring entry).

(** The file a path names, if there is one. *)
Definition fileAt (fs : disk) (path : jsstring) : option entry := fs !! collapse path.

(** [await Bun.file(path).exists()] *)
Definition fileExists (fs : disk) (path : jsstring) : bool :=
  match fileAt fs path with
  | Some _ => true
  | None => false
  end.

(** [await Bun.file(path).json()] *)
Definition fileJson (fs : disk) (path : jsstring) : result json :=
  match fileAt fs path with
  | None => Raise (js "ENOENT: no such file or directory")
  | Some Denied => Raise (js "EACCES: permission denied")
  | Some (File (NotJson _)) => Raise (js "SyntaxError: JSON Parse error")
  | Some (File (Json d)) => Ok d
  end.

(** [await Bun.write(path, text)]: creates the file (and its directories)
    or replaces its content. *)
Definition bunWrite (fs : disk) (path : jsstring) (c : content) : result disk :=
  match fileAt fs path with
  | Some Denied => Raise (js "EACCES: permission denied")
  | _ => Ok (<[collapse path := File c]> fs)
  end.

(** [try { body } catch (error) { handler }] for a computation that only
    reads. *)
Definition catch {A} (body : result A) (handler : exn -> result A) : result A :=
  match body with
  | Ok a => Ok a
  | Raise e => handler e
  end.

(** ** JSON.stringify on a mapping *)

(** A Number as JSON writes it and [JSON.parse] reads it back: NaN and the
    infinities become [null], negative zero becomes zero. *)
Definition jsonNumber (f : number) : numval :=
  match PrimFloat.classify f with
  | FloatClass.NaN | PInf | NInf => Null
  | NZero => Num 0%float
  | _ => Num f
  end.

Definition jsonNumval (v : numval) : numval :=
  match v with
  | Num f => jsonNumber f
  | Null => Null
  end.

Definition jsonMetadata (m : VerificationMetadata) : VerificationMetadata :=
  {| bilibiliFollowers := jsonNumval <$> bilibiliFollowers m;
     youtubeSubscribers := jsonNumval <$> youtubeSubscribers m;
     avatarSimilarity := jsonNumval <$> avatarSimilarity m;
     usernameSimilarity := jsonNumval <$> usernameSimilarity m;
     bioMatch := bioMatch m;
     youtubeVerified := youtubeVerified m;
     matchingVideos := jsonNumval <$> matchingVideos m;
     issueNumber := jsonNumval <$> issueNumber m |}.

(** The document [JSON.stringify(mapping, null, 2)] denotes. *)
Definition jsonMapping (m : UserMapping) : UserMapping :=
  {| bilibiliUid := bilibiliUid m;
     bilibiliUsername := bilibiliUsername m;
     bilibiliAvatar := bilibiliAvatar m;
     youtubeChannelId := youtubeChannelId m;
     youtubeChannelName := youtubeChannelName m;
     youtubeAvatar := youtubeAvatar m;
     verificationLevel := verificationLevel m;
     verifiedAt := verifiedAt m;
     um_verifiedBy := um_verifiedBy m;
     um_metadata := jsonMetadata <$> um_metadata m |}.

(** ** The shard manager (shard-manager.ts) *)

Record ShardConfig := {
  level1Length : Z;
  level2Length : Z;
  hashLength : Z
}.

Definition DEFAULT_SHARD_CONFIG : ShardConfig :=
  {| level1Length := 2; level2Length := 2; hashLength := 8 |}.

(** [s.substring(start, end)]: both ends are clamped to the string and
    swapped when out of order. *)
Definition substring (s : jsstring) (start stop : Z) : jsstring :=
  let len := Z.of_nat (length s) in
  let a := Z.min (Z.max start 0) len in
  let b := Z.min (Z.max stop 0) len in
  firstn (Z.to_nat (Z.max a b - Z.min a b)) (skipn (Z.to_nat (Z.min a b)) s).

(** [s.endsWith(suffix)] *)
Definition endsWith (s suffix : jsstring) : bool :=
  startsWith (rev suffix) (rev s).

(** The segments of a path, split at [/]. *)
Fixpoint segments (path : jsstring) : list jsstring :=
  match path with
  | [] => [[]]
  | c :: rest =>
      if N.eqb c 47 then [] :: segments rest
      else
        match segments rest with
        | seg :: segs => (c :: seg) :: segs
        | [] => [[c]]
        end
  end.

(** A name the glob takes: not empty, and not hidden by a leading dot. *)
Definition visible (segment : jsstring) : bool :=
  match segment with
  | [] => false
  | c :: _ => negb (N.eqb c 46)
  end.

(** [new Bun.Glob('**/*.json')] on a path relative to the scanned
    directory: the file name ends in [.json], and no segment is empty or
    starts with a dot (hidden entries are skipped by default). *)
Definition globMatches (relative : jsstring) : bool :=
  endsWith relative (js ".json") && forallb visible (segments relative).

(** [s] without its prefix [prefix], when it starts with it. *)
Fixpoint stripPrefix (prefix s : jsstring) : option jsstring :=
  match prefix, s with
  | [], _ => Some s
  | p :: prefix', c :: s' => if N.eqb p c then stripPrefix prefix' s' else None
  | _ :: _, [] => None
  end.

Section ShardManager.

Variable config : ShardConfig.
Variable baseDir : jsstring.

Definition hash (userId : jsstring) : jsstring :=
  substring (sha256hex userId) 0 (hashLength config).

Definition getShardPath (userId : jsstring) : jsstring :=
  let h := hash userId in
  let level1 := substring h 0 (level1Length config) in
  let level2 := substring h (level1Length config) (level1Length config + level2Length config) in
  level1 ++ js "/" ++ level2 ++ js "/" ++ h ++ js ".json".

Definition getFullPath (userId : jsstring) : jsstring :=
  baseDir ++ js "/" ++ getShardPath userId.

Definition getShardDir (userId : jsstring) : jsstring :=
  let h := hash userId in
  let level1 := substring h 0 (level1Length config) in
  let level2 := substring h (level1Length config) (level1Length config + level2Length config) in
  baseDir ++ js "/" ++ level1 ++ js "/" ++ level2.

(** [readMapping]: the parsed document (cast, unchecked, to UserMapping) or
    [null]. *)
Definition readMapping (fs : disk) (userId : jsstring) : result (option json) :=
  let filePath := getFullPath userId in
  catch
    (if negb (fileExists fs filePath) then Ok None
     else
       match fileJson fs filePath with
       | Ok data => Ok (Some data)
       | Raise e => Raise e
       end)
    (fun error => Ok None).

(** [writeMapping]: the outcome and the file system it leaves. *)
Definition writeMapping (fs : disk) (userId : jsstring) (mapping : UserMapping)
  : result unit * disk :=
  let filePath := getFullPath userId in
  let dirPath := getShardDir userId in
  match bunWrite fs (dirPath ++ js "/.gitkeep") (NotJson []) with
  | Raise error => (Raise error, fs)
  | Ok fs1 =>
      match bunWrite fs1 filePath (Json (JMapping (jsonMapping mapping))) with
      | Raise error => (Raise error, fs1)
      | Ok fs2 => (Ok tt, fs2)
      end
  end.

Definition deleteMapping (fs : disk) (userId : jsstring) : result unit * disk :=
  let filePath := getFullPath userId in
  match bunWrite fs filePath (NotJson []) with
  | Raise error => (Raise error, fs)
  | Ok fs1 => (Ok tt, fs1)
  end.

Definition hasMapping (fs : disk) (userId : jsstring) : bool :=
  let filePath := getFullPath userId in
  fileExists fs filePath.

(** [glob.scan(this.baseDir)]: the matching files under [baseDir], by
    their path relative to it, which is the path of the file as the file
    system has it, without repeated slashes. *)
Definition scan (fs : disk) : list jsstring :=
  omap
    (fun pe : jsstring * entry =>
       match stripPrefix (collapse (baseDir ++ js "/")) pe.1 with
       | Some relative => if globMatches relative then Some relative else None
       | None => None
       end)
    (map_to_list fs).

(** [index[key] = filePath] with [key] read off a parsed document:
    a missing property is [undefined], which as a key is ["undefined"]. *)
Definition propertyKey (v : option jsstring) : jsstring :=
  default (js "undefined") v.

(** [index[key] = filePath] on the object [buildIndex] creates with [{}]:
    the key [__proto__] is the accessor of [Object.prototype], whose setter
    ignores a string and creates no property; under every other key the
    assignment creates the property or replaces its value. *)
Definition assignProperty (index : MappingIndex) (key filePath : jsstring) : MappingIndex :=
  if decide (key = js "__proto__") then index else <[key := filePath]> index.

(** One iteration of the loop of [buildIndex]. *)
Definition indexFile (fs : disk) (index : MappingIndex) (filePath : jsstring)
  : MappingIndex :=
  if decide (filePath = js "index.json") then index
  else
    match fileJson fs (baseDir ++ js "/" ++ filePath) with
    | Ok (JMapping mapping) =>
        assignProperty (assignProperty index (bilibiliUid mapping) filePath)
          (youtubeChannelId mapping) filePath
    | Ok (JIndex object) =>
        assignProperty
          (assignProperty index (propertyKey (object !! js "bilibiliUid")) filePath)
          (propertyKey (object !! js "youtubeChannelId")) filePath
    | Raise error => index
    end.

Definition buildIndex (fs : disk) : MappingIndex :=
  fold_left (indexFile fs) (scan fs) ∅.

Definition writeIndex (fs : disk) (index : MappingIndex) : result unit * disk :=
  match bunWrite fs (baseDir ++ js "/index.json") (Json (JIndex index)) with
  | Raise error => (Raise error, fs)
  | Ok fs1 => (Ok tt, fs1)
  end.

Definition readIndex (fs : disk) : result (option json) :=
  let indexPath := baseDir ++ js "/index.json" in
  catch
    (if negb (fileExists fs indexPath) then Ok None
     else
       match fileJson fs indexPath with
       | Ok data => Ok (Some data)
       | Raise e => Raise e
       end)
    (fun error => Ok None).

End ShardManager.

(** ** The rate limiter (api/bilibili.ts, lines 284-323)

    [process] is a coroutine: it runs until it awaits, and is resumed when
    what it awaits settles.  The model keeps its two suspension points as a
    phase, and takes the moments it is resumed as inputs. *)

Section RateLimiter.

(** What tasks resolve to. *)
Variable T : Type.

(** The closure [execute] pushes: the task [fn] it will run, and the
    promise it will settle, named by the rank of the [execute] call that
    created it. *)
Record wrapper := {
  ticket : nat;
  fn : result T
}.

Inductive phase :=
| Idle                      (* [process] is not running *)
| Awaiting (w : wrapper)    (* suspended at [await fn()] *)
| Sleeping.                 (* suspended at [await new Promise(... setTimeout ...)] *)

Record limiter := {
  queue : list wrapper;
  processing : bool;
  suspended : phase;
  issued : nat              (* [execute] calls so far *)
}.

Definition newLimiter : limiter :=
  {| queue := []; processing := false; suspended := Idle; issued := 0 |}.

Inductive input :=
| Execute (task : result T)  (* a caller invokes [execute(task)] *)
| TaskSettles                (* the promise of the running task settles *)
| DelayElapses.              (* the timer of the delay fires *)

Inductive occurrence :=
| Submitted (n : nat)               (* [execute] call number [n] *)
| Started (n : nat)                 (* the task of call [n] is invoked *)
| Resolved (n : nat) (value : T)    (* the promise of call [n] is resolved *)
| Rejected (n : nat) (error : exn)  (* the promise of call [n] is rejected *)
| Slept.                            (* one delay has elapsed *)

(** [process] from the head of its [while] loop to its next suspension,
    or to its end. *)
Definition processLoop (l : limiter) : limiter * list occurrence :=
  match queue l with
  | w :: rest =>
      ({| queue := rest; processing := processing l; suspended := Awaiting w;
          issued := issued l |},
       [Started (ticket w)])
  | [] =>
      ({| queue := []; processing := false; suspended := Idle; issued := issued l |}, [])
  end.

(** The wrapper after [await fn()]: [resolve(result)] or [reject(error)]. *)
Definition settle (w : wrapper) : occurrence :=
  match fn w with
  | Ok value => Resolved (ticket w) value
  | Raise error => Rejected (ticket w) error
  end.

Definition step (l : limiter) (i : input) : limiter * list occurrence :=
  match i with
  | Execute task =>
      let pushed :=
        {| queue := queue l ++ [{| ticket := issued l; fn := task |}];
           processing := processing l; suspended := suspended l;
           issued := S (issued l) |} in
      if processing l then (pushed, [Submitted (issued l)])
      else
        let '(l', log) :=
          processLoop {| queue := queue pushed; processing := true;
                         suspended := suspended pushed; issued := issued pushed |} in
        (l', Submitted (issued l) :: log)
  | TaskSettles =>
      match suspended l with
      | Awaiting w =>
          ({| queue := queue l; processing := processing l; suspended := Sleeping;
              issued := issued l |},
           [settle w])
      | _ => (l, [])
      end
  | DelayElapses =>
      match suspended l with
      | Sleeping =>
          let '(l', log) := processLoop l in (l', Slept :: log)
      | _ => (l, [])
      end
  end.

(** A run: the limiter and the log after a sequence of inputs. *)
Definition run (inputs : list input) : limiter * list occurrence :=
  fold_left (fun st i => let '(l', log) := step st.1 i in (l', st.2 ++ log))
    inputs (newLimiter, []).

(** The tasks handed to [execute], in call order. *)
Definition submissions (inputs : list input) : list (result T) :=
  omap (fun i => match i with Execute task => Some task | _ => None end) inputs.

End RateLimiter.

(** ** Notions the statements use *)

Section VerifierNotions.

Variable toLowerCase : jsstring -> jsstring.

(** Level 1 returns: the channel is flagged verified and the normalized
    names are at least 0.8 similar. *)
Definition level1Succeeds (biliUser : BilibiliUser) (ytChannel : YouTubeChannel) : bool :=
  match yc_verified ytChannel with
  | Some true => geq (nameSimilarityOf toLowerCase biliUser ytChannel) 0.8
  | _ => false
  end.

(** Two titles match when their lower-cased forms are at least 0.7
    similar. *)
Definition titlesMatch (biliVideo : BilibiliVideo) (ytVideo : YouTubeVideo) : bool :=
  geq (stringSimilarity (toLowerCase (bv_title biliVideo)) (toLowerCase (yv_title ytVideo))) 0.7.

(** The matching title pairs: each source video with the first target
    video whose title matches, when there is one. *)
Definition matchedPairs (biliVideos : list BilibiliVideo) (ytVideos : list YouTubeVideo)
  : list (BilibiliVideo * YouTubeVideo) :=
  omap (fun b => (fun y => (b, y)) <$> find (titlesMatch b) ytVideos) biliVideos.

End VerifierNotions.

(** The three bonuses of level 3 and their sum. *)
Definition nameBonus (similarity : number) : number :=
  if geq similarity 0.8 then 0.4%float
  else if geq similarity 0.6 then 0.2%float
  else 0%float.

Definition titleBonus (pairs : nat) : number :=
  if (3 <=? pairs)%nat then 0.3%float
  else if (1 <=? pairs)%nat then 0.15%float
  else 0%float.

Definition ratioBonus (ratio : number) : number :=
  if geq ratio 0.5 && leq ratio 2.0 then 0.15%float else 0%float.

Definition tierScore (similarity : number) (pairs : nat) (ratio : number) : number :=
  (nameBonus similarity + titleBonus pairs + ratioBonus ratio)%float.

(** ** Sample data (tests/verifier.test.ts) *)

Module Sample.

Definition thumbnails : Thumbnails :=
  {| th_default := []; th_medium := []; th_high := [] |}.

Definition biliUser (name sign : string) : BilibiliUser :=
  {| bu_uid := js "123456"; bu_name := js name; bu_face := js "avatar.jpg";
     bu_sign := js sign; bu_follower := 10000%float; bu_level := 6%float;
     bu_official := None |}.

Definition ytChannel (id title description : string) (subscribers : option number)
    (verified : bool) : YouTubeChannel :=
  {| yc_id := js id; yc_title := js title; yc_description := js description;
     yc_customUrl := Some (js "@test"); yc_thumbnails := thumbnails;
     yc_subscriberCount := subscribers; yc_videoCount := Some 100%float;
     yc_verified := Some verified |}.

Definition biliVideo (title : string) : BilibiliVideo :=
  {| bv_bvid := js "BV1"; bv_aid := 1%float; bv_title := js title; bv_pic := [];
     bv_author := js "TestUser"; bv_mid := 123456%float; bv_created := 0%float;
     bv_length := js "10:00"; bv_play := 1000%float; bv_danmaku := 100%float |}.

Definition ytVideo (title : string) : YouTubeVideo :=
  {| yv_id := js "v1"; yv_title := js title; yv_description := [];
     yv_channelId := js "UCtest"; yv_channelTitle := js "TestUser";
     yv_publishedAt := js "2024-01-01T00:00:00Z"; yv_thumbnails := thumbnails;
     yv_duration := js "PT10M"; yv_viewCount := Some 1000%float |}.

(** Mocked clients: every call of a method answers the same. *)
Definition api (user : result BilibiliUser) (channel : result YouTubeChannel)
    (biliVideos : result (list BilibiliVideo)) (ytVideos : result (list YouTubeVideo)) : Api :=
  {| getUserInfo := fun _ => user;
     getChannel := fun _ => channel;
     getUserVideos := fun _ _ _ => biliVideos;
     getChannelVideos := fun _ _ => ytVideos |}.

Definition now : jsstring := js "2024-01-01T00:00:00.000Z".

Definition threeTitles : list string :=
  ["My First Video"; "Second Video"; "Third Video"]%string.

(** 'should verify with sufficient similarity scores' *)
Definition similarApi (subscribers : option number) : Api :=
  api (Ok (biliUser "TestUser" "Regular bio"))
      (Ok (ytChannel "UCtest" "TestUser" "Regular description" subscribers false))
      (Ok (map biliVideo threeTitles)) (Ok (map ytVideo threeTitles)).

(** 'should verify with high confidence when YouTube is verified and names
    match' *)
Definition verifiedApi : Api :=
  api (Ok (biliUser "TestUser" "Test bio"))
      (Ok (ytChannel "UCtest" "TestUser" "Test" (Some 5000%float) true))
      (Ok []) (Ok []).

(** 'should verify when YouTube description mentions Bilibili' *)
Definition mentionApi : Api :=
  api (Ok (biliUser "TestUser" "Regular bio"))
      (Ok (ytChannel "UCtest" "Test Channel" "Follow me on Bilibili: 123456"
             (Some 5000%float) false))
      (Ok []) (Ok []).


End Sample.

(** ** The scanner (workflows/scanner.ts), as far as it is pure *)

Inductive HotRankingType := MustWatch | Hot | Top100.

Record ScanResult := {
  sr_type : HotRankingType;
  sr_users : list BilibiliUser;
  sr_scannedAt : jsstring;
  sr_totalScanned : number;
  sr_newUsers : number
}.

(** [deduplicateUsers] (lines 129-143): the two nested loops, threading
    [seenUids] and [uniqueUsers]. *)
Definition deduplicateUsers (results : list ScanResult) : list BilibiliUser :=
  (fold_left
     (fun state result =>
        fold_left
          (fun (state : gset jsstring * list BilibiliUser) user =>
             if decide (bu_uid user ∈ state.1) then state
             else ({[bu_uid user]} ∪ state.1, state.2 ++ [user]))
          (sr_users result) state)
     results (∅, [])).2.

Section Scanner.

Variable config : ShardConfig.
Variable baseDir : jsstring.

(** [filterNewUsers] (lines 86-97), against the store of source
    identifiers. *)
Definition filterNewUsers (fs : disk) (users : list BilibiliUser) : list BilibiliUser :=
  fold_left
    (fun newUsers user =>
       if negb (hasMapping config baseDir fs (bu_uid user))
       then newUsers ++ [user]
       else newUsers)
    users [].

End Scanner.

(** ** Notions the storage statements use *)

(** A value JSON keeps as it is: [null], or a finite Number other than
    negative zero. *)
Definition jsonKeeps (v : numval) : bool :=
  match v with
  | Null => true
  | Num f =>
      match PrimFloat.classify f with
      | FloatClass.NaN | PInf | NInf | NZero => false
      | _ => true
      end
  end.

Definition jsonKeepsField (v : option numval) : bool :=
  match v with
  | Some x => jsonKeeps x
  | None => true
  end.

Definition jsonKeepsMetadata (m : VerificationMetadata) : bool :=
  jsonKeepsField (bilibiliFollowers m) && jsonKeepsField (youtubeSubscribers m)
  && jsonKeepsField (avatarSimilarity m) && jsonKeepsField (usernameSimilarity m)
  && jsonKeepsField (matchingVideos m) && jsonKeepsField (issueNumber m).

(** Every number the mapping holds is one JSON keeps. *)
Definition jsonKeepsMapping (m : UserMapping) : bool :=
  match um_metadata m with
  | Some md => jsonKeepsMetadata md
  | None => true
  end.

(** The two directory levels are not empty and fit in the hash, which is
    at most the 64 digits of the digest. *)
Definition wellFormed (config : ShardConfig) : Prop :=
  0 < level1Length config /\ 0 < level2Length config /\
  level1Length config + level2Length config <= hashLength config /\
  hashLength config <= 64.

(** A lower-case hex digit, or a character between the digits and the
    letters. *)
Definition hexChar (c : N) : Prop := (48 <= c <= 102)%N.

(** A path as the scan reports it, relative to the scanned directory:
    collapsed, and without a leading slash.  For a shard path this
    leaves out the directory names that are empty. *)
Definition relativePath (path : jsstring) : jsstring :=
  match collapse path with
  | c :: rest => if N.eqb c 47 then rest else c :: rest
  | [] => []
  end.

Section StorageNotions.

Variable config : ShardConfig.
Variable baseDir : jsstring.

(** [for (const [userId, mapping] of writes) await writeMapping(userId, mapping)] *)
Fixpoint writeAll (fs : disk) (writes : list (jsstring * UserMapping))
  : result unit * disk :=
  match writes with
  | [] => (Ok tt, fs)
  | (userId, mapping) :: rest =>
      match writeMapping config baseDir fs userId mapping with
      | (Ok _, fs1) => writeAll fs1 rest
      | (Raise error, fs1) => (Raise error, fs1)
      end
  end.

End StorageNotions.

(** The source and target identifiers of the mappings written. *)
Definition identifiers (writes : list (jsstring * UserMapping)) : list jsstring :=
  flat_map (fun w => [bilibiliUid w.2; youtubeChannelId w.2]) writes.

Module SampleStore.

Definition baseDir : jsstring := js "./test-data".

Definition mappingOf (uid name ytId : string) (metadata : VerificationMetadata)
  : UserMapping :=
  {| bilibiliUid := js uid; bilibiliUsername := js name;
     bilibiliAvatar := Some (js "avatar.jpg");
     youtubeChannelId := js ytId; youtubeChannelName := js "Channel";
     youtubeAvatar := Some (js "yt.jpg");
     verificationLevel := 1; verifiedAt := js "2024-01-01T00:00:00.000Z";
     um_verifiedBy := auto; um_metadata := Some metadata |}.

(** 'should build index with all mappings' *)
Definition threeWrites : list (jsstring * UserMapping) :=
  [(js "111", mappingOf "111" "User1" "UC1" noMetadata);
   (js "222", mappingOf "222" "User2" "UC2" noMetadata);
   (js "333", mappingOf "333" "User3" "UC3" noMetadata)].

(** Two source identifiers whose SHA-256 digests both start with
    [c11eb5e6]. *)
Definition collidingWrites : list (jsstring * UserMapping) :=
  [(js "69235", mappingOf "69235" "User1" "UC1" noMetadata);
   (js "95303", mappingOf "95303" "User2" "UC2" noMetadata)].

(** A mapping whose recorded username similarity is NaN, and what JSON
    makes of it. *)
Definition withSimilarity (v : numval) : VerificationMetadata :=
  {| bilibiliFollowers := Some (Num 10000%float);
     youtubeSubscribers := Some (Num 5000%float);
     avatarSimilarity := None; usernameSimilarity := Some v; bioMatch := Some true;
     youtubeVerified := None; matchingVideos := None; issueNumber := None |}.

Definition nanMapping : UserMapping :=
  mappingOf "123456" "Official" "UCtest" (withSimilarity (Num nan)).

Definition nullMapping : UserMapping :=
  mappingOf "123456" "Official" "UCtest" (withSimilarity Null).

Definition plainMapping : UserMapping :=
  mappingOf "123456" "TestUser" "UCtest123" (withSimilarity (Num 0.5%float)).

(** The shard file of "123456" exists and cannot be read. *)
Definition deniedStore : disk :=
  {[ collapse (getFullPath DEFAULT_SHARD_CONFIG baseDir (js "123456")) := Denied ]}.

End SampleStore.

(** The two keys [buildIndex] reads off a parsed document. *)
Definition documentKeys (d : json) : list jsstring :=
  match d with
  | JMapping mapping => [bilibiliUid mapping; youtubeChannelId mapping]
  | JIndex object =>
      [propertyKey (object !! js "bilibiliUid");
       propertyKey (object !! js "youtubeChannelId")]
  end.

(** The keys one scanned file contributes to the index: those of its
    document under which an assignment stores a property. *)
Definition fileKeys (baseDir : jsstring) (fs : disk) (filePath : jsstring)
  : list jsstring :=
  if decide (filePath = js "index.json") then []
  else
    match fileJson fs (baseDir ++ js "/" ++ filePath) with
    | Ok d => filter (fun k => k <> js "__proto__") (documentKeys d)
    | Raise _ => []
    end.

(** ** Notions the scanner statements use *)

(** The users of all results, in
    the order the loops visit them. *)
Definition scannedUsers (results : list ScanResult) : list BilibiliUser :=
  flat_map sr_users results.

(** The users whose identifier has not occurred before them. *)
Fixpoint firstOccurrences (seen : gset jsstring) (users : list BilibiliUser)
  : list BilibiliUser :=
  match users with
  | [] => []
  | user :: rest =>
      if decide (bu_uid user ∈ seen) then firstOccurrences seen rest
      else user :: firstOccurrences ({[bu_uid user]} ∪ seen) rest
  end.

(** ** Notions the similarity statements use *)

(** A matrix without holes, as the array of arrays that represents it. *)
Definition dense (rows : list (list Z)) : jsarray (jsarray Z) :=
  map (fun row => Some (map Some row)) rows.

(** The longest string the language allows has [2^53 - 1] code units. *)
Definition maxStringLength : Z := 2 ^ 53 - 1.

Section SimilarityNotions.

Variable n : nat.

(** While [stringSimilarity(s, s)] fills row [i] for a string of length
    [n]: the row above is complete, without negative entries and with 0
    on the diagonal; [current] holds the cells of row [i] filled so far;
    the rows below are as initialised. *)
Definition rowDone (i : nat) (row : list Z) : Prop :=
  length row = S n /\ Forall (fun v => 0 <= v) row /\ row !! i = Some 0.

Definition rowFilling (i j : nat) (current : list Z) : Prop :=
  length current = j /\ Forall (fun v => 0 <= v) current /\
  ((i < j)%nat -> current !! i = Some 0).

Definition rowsBelow (i : nat) (rows : list (list Z)) : Prop :=
  forall k, (i < k <= n)%nat -> rows !! k = Some [Z.of_nat k].

Definition matrixFilling (i j : nat) (m : jsarray (jsarray Z)) : Prop :=
  exists rows above current,
    m = dense rows /\ length rows = S n /\
    rows !! (i - 1)%nat = Some above /\ rowDone (i - 1) above /\
    rows !! i = Some current /\ rowFilling i j current /\
    rowsBelow i rows.

Definition matrixFilled (i : nat) (m : jsarray (jsarray Z)) : Prop :=
  exists rows row,
    m = dense rows /\ length rows = S n /\
    rows !! i = Some row /\ rowDone i row /\ rowsBelow i rows.

End SimilarityNotions.

(** ** Notions the rate-limiter statements use *)

Arguments Submitted {T} n.
Arguments Started {T} n.
Arguments Resolved {T} n value.
Arguments Rejected {T} n error.
Arguments Slept {T}.
Arguments Execute {T} task.
Arguments TaskSettles {T}.
Arguments DelayElapses {T}.
Arguments Idle {T}.
Arguments Awaiting {T} w.
Arguments Sleeping {T}.
Arguments ticket {T} w.
Arguments fn {T} w.
Arguments queue {T} l.
Arguments processing {T} l.
Arguments suspended {T} l.
Arguments issued {T} l.
Arguments processLoop {T} l.
Arguments settle {T} w.
Arguments step {T} l i.
Arguments run {T} inputs.
Arguments submissions {T} inputs.

Section RateLimiterNotions.

Variable T : Type.

(** The call whose promise an occurrence settles, and the outcome it
    settles it with. *)
Definition outcomeOf (o : occurrence T) : option (nat * result T) :=
  match o with
  | Resolved n value => Some (n, Ok value)
  | Rejected n error => Some (n, Raise error)
  | _ => None
  end.

Definition settles (n : nat) (o : occurrence T) : Prop :=
  exists r, outcomeOf o = Some (n, r).

(** In [log], the task of call [n] has completed and a delay has elapsed
    after that. *)
Definition completedIn (log : list (occurrence T)) (n : nat) : Prop :=
  exists l1 o l2 l3, log = l1 ++ o :: l2 ++ Slept :: l3 /\ settles n o.

(** The calls whose tasks were started, in the order they were started. *)
Definition startedCalls (log : list (occurrence T)) : list nat :=
  omap (fun o => match o with Started n => Some n | _ => None end) log.

(** The wrappers of the tasks [tasks], numbered from [n]. *)
Fixpoint wrappersFrom (n : nat) (tasks : list (result T)) : list (wrapper T) :=
  match tasks with
  | [] => []
  | task :: rest => {| ticket := n; fn := task |} :: wrappersFrom (S n) rest
  end.

(** The state of a run, [started] tasks into it: what the limiter holds
    and what the log shows, phase by phase. *)
Definition phaseInvariant (tasks : list (result T)) (l : limiter T)
    (log : list (occurrence T)) (started : nat) : Prop :=
  match suspended l with
  | Idle =>
      processing l = false /\ queue l = [] /\
      forall k, (k < started)%nat -> completedIn log k
  | Awaiting w =>
      processing l = true /\
      exists current, started = S current /\ ticket w = current /\
        tasks !! current = Some (fn w) /\
        forall k, (k < current)%nat -> completedIn log k
  | Sleeping =>
      processing l = true /\
      exists current, started = S current /\
        (forall k, (k < current)%nat -> completedIn log k) /\
        exists l1 o l2, log = l1 ++ o :: l2 /\ settles current o
  end.

Definition invariant (tasks : list (result T)) (l : limiter T)
    (log : list (occurrence T)) (started : nat) : Prop :=
  issued l = length tasks /\
  (started <= length tasks)%nat /\
  queue l = wrappersFrom started (drop started tasks) /\
  startedCalls log = seq 0 started /\
  (forall pre n post, log = pre ++ Started n :: post ->
     forall k, (k < n)%nat -> completedIn pre k) /\
  (forall o n r, o ∈ log -> outcomeOf o = Some (n, r) -> tasks !! n = Some r) /\
  phaseInvariant tasks l log started.

End RateLimiterNotions.

Arguments outcomeOf {T} o.
Arguments settles {T} n o.
Arguments completedIn {T} log n.
Arguments startedCalls {T} log.
Arguments wrappersFrom {T} n tasks.
Arguments phaseInvariant {T} tasks l log started.
Arguments invariant {T} tasks l log started.

(** ** The Levenshtein distance, by its recurrence

    The header of [stringSimilarity] names what it computes: the
    Levenshtein distance.  [prefixDistance str1 str2 i j] is that distance
    between the first [i] code units of [str1] and the first [j] code units
    of [str2], by the Wagner-Fischer recurrence. *)

Definition substitutionCost (str1 str2 : jsstring) (i j : nat) : Z :=
  if decide (str1 !! i = str2 !! j) then 0 else 1.

Fixpoint prefixDistance (str1 str2 : jsstring) (i : nat) : nat -> Z :=
  match i with
  | O => fun j => Z.of_nat j
  | S i' =>
      fix row (j : nat) : Z :=
        match j with
        | O => Z.of_nat (S i')
        | S j' =>
            Z.min (Z.min (prefixDistance str1 str2 i' (S j') + 1) (row j' + 1))
                  (prefixDistance str1 str2 i' j' + substitutionCost str1 str2 i' j')
        end
  end.

Definition levenshtein (str1 str2 : jsstring) : Z :=
  prefixDistance str1 str2 (length str1) (length str2).

Section DistanceNotions.

Variables str1 str2 : jsstring.

(** The first [width] cells of row [i] of the distance matrix. *)
Definition recurrenceRow (i width : nat) : list Z :=
  map (prefixDistance str1 str2 i) (seq 0 width).

(** While the loops of [stringSimilarity] fill cell [j] of row [i]: the
    rows above are complete, row [i] holds its first [j] cells, the rows
    below are as initialised. *)
Definition distanceFilling (i j : nat) (m : jsarray (jsarray Z)) : Prop :=
  exists rows,
    m = dense rows /\ length rows = S (length str1) /\
    (forall k, (k < i)%nat -> rows !! k = Some (recurrenceRow k (S (length str2)))) /\
    rows !! i = Some (recurrenceRow i j) /\
    (forall k, (i < k <= length str1)%nat -> rows !! k = Some [Z.of_nat k]).

(** Between two rows: rows [0..i] are complete. *)
Definition distanceFilled (i : nat) (m : jsarray (jsarray Z)) : Prop :=
  exists rows,
    m = dense rows /\ length rows = S (length str1) /\
    (forall k, (k <= i)%nat -> rows !! k = Some (recurrenceRow k (S (length str2)))) /\
    (forall k, (i < k <= length str1)%nat -> rows !! k = Some [Z.of_nat k]).

End DistanceNotions.

(** ** The two shard managers (shard-manager.ts, lines 192-197) *)

(** A [ShardManager] object: its two private fields. *)
Record ShardManager := {
  sm_baseDir : jsstring;
  sm_config : ShardConfig
}.

(** [new ShardManager(baseDir)], the configuration defaulted. *)
Definition newShardManager (baseDir : jsstring) : ShardManager :=
  {| sm_baseDir := baseDir; sm_config := DEFAULT_SHARD_CONFIG |}.

Record ShardManagers := {
  b2y : ShardManager;
  y2b : ShardManager
}.

Definition createShardManagers (dataDir : jsstring) : ShardManagers :=
  {| b2y := newShardManager (dataDir ++ js "/b2y");
     y2b := newShardManager (dataDir ++ js "/y2b") |}.

(** The default of the parameter [dataDir]. *)
Definition defaultDataDir : jsstring := js "./data".

(** The calls of a manager that write, and what one of them does to the
    file system. *)
Inductive operation :=
| WriteMapping (userId : jsstring) (mapping : UserMapping)
| DeleteMapping (userId : jsstring)
| WriteIndex (index : MappingIndex).

Definition perform (m : ShardManager) (fs : disk) (op : operation) : result unit * disk :=
  match op with
  | WriteMapping userId mapping => writeMapping (sm_config m) (sm_baseDir m) fs userId mapping
  | DeleteMapping userId => deleteMapping (sm_config m) (sm_baseDir m) fs userId
  | WriteIndex index => writeIndex (sm_baseDir m) fs index
  end.

(** What a manager answers about one identifier and about its index. *)
Definition reads (m : ShardManager) (fs : disk) (userId : jsstring)
  : result (option json) * bool * result (option json) :=
  (readMapping (sm_config m) (sm_baseDir m) fs userId,
   hasMapping (sm_config m) (sm_baseDir m) fs userId,
   readIndex (sm_baseDir m) fs).

(** A document a scanned file holds: the file lies under the directory,
    its relative path matches the glob and is not the top-level index,
    and its text parses. *)
Definition indexed (baseDir : jsstring) (fs : disk) (filePath : jsstring) (d : json) : Prop :=
  globMatches filePath = true /\ filePath <> js "index.json" /\
  fileAt fs (baseDir ++ js "/" ++ filePath) = Some (File (Json d)).

Module SampleShards.

(** A store that holds the mapping of "222". *)
Definition holding222 : disk :=
  (writeMapping DEFAULT_SHARD_CONFIG SampleStore.baseDir ∅ (js "222")
     (SampleStore.mappingOf "222" "User2" "UC2" noMetadata)).2.

(** The index of that store. *)
Definition index222 : MappingIndex :=
  {[ js "222" := js "9b/87/9b871512.json"; js "UC2" := js "9b/87/9b871512.json" ]}.

End SampleShards.

(** ** Notions the liveness statement of the rate limiter uses *)

(** The limiter after more inputs. *)
Definition feed {T : Type} (l : limiter T) (inputs : list (input T)) : limiter T :=
  fold_left (fun l i => (step l i).1) inputs l.

(** [rounds] times: the running task settles, then the timer of the delay
    fires. *)
Fixpoint cycles {T : Type} (rounds : nat) : list (input T) :=
  match rounds with
  | O => []
  | S k => TaskSettles :: DelayElapses :: cycles k
  end.

(** A caller that awaits [execute(task)] before anything else happens, as
    the scanner does: the call, the timer of the delay that followed the
    task before (it has no effect when the limiter is idle), and the
    settlement of the task. *)
Definition awaitedCall {T : Type} (task : result T) : list (input T) :=
  [Execute task; DelayElapses; TaskSettles].

(** The promises settled in a log, in order: the call and the outcome. *)
Definition settlements {T : Type} (log : list (occurrence T)) : list (nat * result T) :=
  omap outcomeOf log.

(** ** Regular expressions, as far as the content scripts and the
    submission schema use them

    A backtracking matcher in the order the language prescribes: the
    leftmost start, alternatives from left to right, [+] greedy and giving
    back one code unit at a time.  The patterns have no flags, so they
    match code unit by code unit. *)

Inductive regex :=
| Lit (text : jsstring)              (* a sequence of literal characters *)
| Class (cls : N -> bool)            (* one character of a class *)
| Plus (cls : N -> bool)             (* [cls+] *)
| Times (n : nat) (cls : N -> bool)  (* [cls{n}] *)
| Seq (r1 r2 : regex)
| Alt (r1 r2 : regex)
| Group (n : nat) (r : regex)        (* the capturing group number [n] *)
| Start                              (* [^] *)
| End.                               (* [$] *)

(** The groups matched so far, by their number. *)
Abbreviation captures := (gmap nat jsstring).

Section Matcher.

(** What a successful match yields. *)
Variable R : Type.

(** [cls+] at [s], [offset] code units into the input: the longest run
    first, then shorter ones, until the rest of the pattern [k] matches. *)
Fixpoint oneOrMore (cls : N -> bool) (offset : nat) (s : jsstring)
    (k : nat -> jsstring -> option R) : option R :=
  match s with
  | c :: rest =>
      if cls c
      then
        match oneOrMore cls (S offset) rest k with
        | Some r => Some r
        | None => k (S offset) rest
        end
      else None
  | [] => None
  end.

Fixpoint exactly (n : nat) (cls : N -> bool) (offset : nat) (s : jsstring)
    (k : nat -> jsstring -> option R) : option R :=
  match n with
  | O => k offset s
  | S n' =>
      match s with
      | c :: rest => if cls c then exactly n' cls (S offset) rest k else None
      | [] => None
      end
  end.

(** [r] at [s], followed by the rest of the pattern [k]. *)
Fixpoint matchFrom (r : regex) (offset : nat) (s : jsstring) (caps : captures)
    (k : nat -> jsstring -> captures -> option R) : option R :=
  match r with
  | Lit text =>
      if startsWith text s then k (offset + length text)%nat (drop (length text) s) caps
      else None
  | Class cls =>
      match s with
      | c :: rest => if cls c then k (S offset) rest caps else None
      | [] => None
      end
  | Plus cls => oneOrMore cls offset s (fun offset' s' => k offset' s' caps)
  | Times n cls => exactly n cls offset s (fun offset' s' => k offset' s' caps)
  | Seq r1 r2 =>
      matchFrom r1 offset s caps (fun offset' s' caps' => matchFrom r2 offset' s' caps' k)
  | Alt r1 r2 =>
      match matchFrom r1 offset s caps k with
      | Some x => Some x
      | None => matchFrom r2 offset s caps k
      end
  | Group n r' =>
      matchFrom r' offset s caps
        (fun offset' s' caps' => k offset' s' (<[n := take (offset' - offset) s]> caps'))
  | Start => if (offset =? 0)%nat then k offset s caps else None
  | End => match s with [] => k offset s caps | _ :: _ => None end
  end.

End Matcher.

Arguments oneOrMore {R} cls offset s k.
Arguments exactly {R} n cls offset s k.
Arguments matchFrom {R} r offset s caps k.

(** A match that starts [offset] code units into the input, of which [s]
    is left: the groups, the whole match being group 0. *)
Definition matchAt (r : regex) (offset : nat) (s : jsstring) : option captures :=
  matchFrom r offset s ∅
    (fun offset' _ caps => Some (<[0%nat := take (offset' - offset) s]> caps)).

(** The start positions from [offset] on, from left to right. *)
Fixpoint searchFrom (r : regex) (offset : nat) (s : jsstring) : option captures :=
  match matchAt r offset s with
  | Some caps => Some caps
  | None =>
      match s with
      | [] => None
      | _ :: rest => searchFrom r (S offset) rest
      end
  end.

(** [input.match(r)] and [r.exec(input)] for a pattern without the [g]
    flag; [r.test(input)]. *)
Definition exec (r : regex) (input : jsstring) : option captures := searchFrom r 0 input.

Definition test (r : regex) (input : jsstring) : bool :=
  match exec r input with
  | Some _ => true
  | None => false
  end.

(** The classes [\d], [\w], [[\w-]], [[^&]] and [[?&]]. *)
Definition isDigit (c : N) : bool := N.leb 48 c && N.leb c 57.

Definition isWord (c : N) : bool :=
  isDigit c || (N.leb 65 c && N.leb c 90) || (N.leb 97 c && N.leb c 122) || N.eqb c 95.

Definition isWordOrHyphen (c : N) : bool := isWord c || N.eqb c 45.

Definition isNotAmpersand (c : N) : bool := negb (N.eqb c 38).

Definition isQueryMark (c : N) : bool := N.eqb c 63 || N.eqb c 38.

(** A value in a condition: [undefined] and [''] are falsy. *)
Definition truthy (v : option jsstring) : option jsstring :=
  match v with
  | Some (c :: s) => Some (c :: s)
  | _ => None
  end.

(** ** The content scripts: identifiers read off the page *)

(** [/space\.bilibili\.com\/(\d+)/] *)
Definition spacePattern : regex :=
  Seq (Lit (js "space.bilibili.com/")) (Group 1 (Plus isDigit)).

(** [getBilibiliUid] (entrypoints/content/bilibili.ts, lines 11-14), on
    [window.location.href]. *)
Definition getBilibiliUid (href : jsstring) : option jsstring :=
  match exec spacePattern href with
  | Some caps => caps !! 1%nat
  | None => None
  end.

(** [/youtube\.com\/(channel|c|user|@)([\w-]+)/] *)
Definition channelUrlPattern : regex :=
  Seq (Lit (js "youtube.com/"))
    (Seq (Group 1 (Alt (Lit (js "channel"))
                     (Alt (Lit (js "c")) (Alt (Lit (js "user")) (Lit (js "@"))))))
         (Group 2 (Plus isWordOrHyphen))).

(** [/youtube\.com\/channel\/(UC[\w-]+)/] *)
Definition canonicalPattern : regex :=
  Seq (Lit (js "youtube.com/channel/"))
    (Group 1 (Seq (Lit (js "UC")) (Plus isWordOrHyphen))).

(** [getYouTubeChannelId] (entrypoints/content/youtube.ts, lines 12-29),
    on [window.location.href] and on the [href] of the page's
    [link[rel="canonical"]], when the page has one. *)
Definition getYouTubeChannelId (href : jsstring) (canonical : option jsstring)
  : option jsstring :=
  match exec channelUrlPattern href ≫= fun urlMatch => truthy (urlMatch !! 2%nat) with
  | Some id => Some id
  | None =>
      match canonical with
      | Some link => exec canonicalPattern link ≫= fun m => truthy (m !! 1%nat)
      | None => None
      end
  end.

(** [/[?&]v=([^&]+)/] *)
Definition videoPattern : regex :=
  Seq (Class isQueryMark) (Seq (Lit (js "v=")) (Group 1 (Plus isNotAmpersand))).

(** [getVideoId] (lines 32-35). *)
Definition getVideoId (href : jsstring) : option jsstring :=
  exec videoPattern href ≫= fun m => truthy (m !! 1%nat).

(** ** The submission schema (submission worker, lines 16-21) *)

(** [/^\d+$/] and [/^UC[\w-]{22}$/] *)
Definition bilibiliUidPattern : regex := Seq Start (Seq (Plus isDigit) End).

Definition youtubeChannelIdPattern : regex :=
  Seq Start (Seq (Lit (js "UC")) (Seq (Times 22 isWordOrHyphen) End)).

(** The page the Bilibili content script opens for a mapped channel
    (entrypoints/content/bilibili.ts, line 57). *)
Definition channelPage (youtubeChannelId : jsstring) : jsstring :=
  js "https://www.youtube.com/channel/" ++ youtubeChannelId.

(** The four alternatives of the first group of [channelUrlPattern]. *)
Definition channelUrlKinds : list jsstring :=
  [js "channel"; js "c"; js "user"; js "@"].

(** ** The mapping client of the browser extension (utils/mapping-client.ts)

    The client reads the clock and the network.  Both belong to a world
    outside the program, of which nothing is assumed: the state of the
    world is of any type, reading the clock and sending a request may
    change it, and a request may be answered differently each time.  The
    documents the network returns are values of any type as well: the
    client stores and returns them, and indexes the one it takes for an
    index. *)

Definition CDN_BASE_URL : jsstring :=
  js "https://cdn.jsdelivr.net/gh/palemoky/BiliTube-Wormhole@main/data".

Definition GITHUB_RAW_URL : jsstring :=
  js "https://raw.githubusercontent.com/palemoky/BiliTube-Wormhole/main/data".

Definition CACHE_TTL : Z := 3600000.

Record CachedData (A : Type) := {
  cd_data : A;
  cd_timestamp : Z
}.
Arguments cd_data {A} _.
Arguments cd_timestamp {A} _.

(** A [Response], as far as the client looks at it: [ok], [statusText],
    and what [json()] resolves to or rejects with. *)
Record Response (value : Type) := {
  rs_ok : bool;
  rs_statusText : jsstring;
  rs_json : result value
}.
Arguments rs_ok {value} _.
Arguments rs_statusText {value} _.
Arguments rs_json {value} _.

(** The three private fields of a [MappingClient]. *)
Record MappingClient (value : Type) := {
  b2yIndex : option (CachedData value);
  y2bIndex : option (CachedData value);
  mappingCache : gmap jsstring (CachedData value)
}.
Arguments b2yIndex {value} _.
Arguments y2bIndex {value} _.
Arguments mappingCache {value} _.

(** [new MappingClient()] *)
Definition newMappingClient {value : Type} : MappingClient value :=
  {| b2yIndex := None; y2bIndex := None; mappingCache := ∅ |}.

(** The two directions of a lookup, and the name of each. *)
Inductive direction := B2Y | Y2B.

Definition directionName (d : direction) : jsstring :=
  match d with
  | B2Y => js "b2y"
  | Y2B => js "y2b"
  end.

Section MappingClient.

(** A parsed JSON document, and [null]. *)
Variable value : Type.
Variable null : value.

(** [index[key]] as the client uses it: [Raise] when indexing throws (the
    document is [null]), [Ok None] when the property is falsy (missing, or
    the empty string), [Ok (Some path)] otherwise, [path] being the text
    [`${index[key]}`]. *)
Variable property : value -> jsstring -> result (option jsstring).

(** The world, [Date.now()] and [fetch(url)]. *)
Variable World : Type.
Variable dateNow : World -> Z * World.
Variable fetchUrl : World -> jsstring -> result (Response value) * World.

(** A run: the client, the world, and the requests sent so far. *)
Record session := {
  client : MappingClient value;
  world : World;
  requests : list jsstring
}.

(** A method of the client: from a session to an outcome and a session. *)
Definition io (A : Type) : Type := session -> result A * session.

Definition pure {A} (a : A) : io A := fun s => (Ok a, s).

Definition andThen {A B} (m : io A) (k : A -> io B) : io B :=
  fun s =>
    match m s with
    | (Ok a, s') => k a s'
    | (Raise e, s') => (Raise e, s')
    end.

Notation "'let!' x ':=' m 'in' k" := (andThen m (fun x => k))
  (at level 10, x name, m at level 100, k at level 200).

Definition throw {A} (e : exn) : io A := fun s => (Raise e, s).

(** [await promise] for a promise already settled. *)
Definition settled {A} (r : result A) : io A := fun s => (r, s).

(** [try { body } catch (error) { handler }]: what [body] did before it
    threw stays done. *)
Definition attempt {A} (body : io A) (handler : exn -> io A) : io A :=
  fun s =>
    match body s with
    | (Ok a, s') => (Ok a, s')
    | (Raise e, s') => handler e s'
    end.

Definition readClock : io Z :=
  fun s =>
    let '(t, w) := dateNow (world s) in
    (Ok t, {| client := client s; world := w; requests := requests s |}).

Definition request (url : jsstring) : io (Response value) :=
  fun s =>
    let '(r, w) := fetchUrl (world s) url in
    (r, {| client := client s; world := w; requests := requests s ++ [url] |}).

Definition field {A} (f : MappingClient value -> A) : io A :=
  fun s => (Ok (f (client s)), s).

Definition assign (f : MappingClient value -> MappingClient value) : io unit :=
  fun s => (Ok tt, {| client := f (client s); world := world s; requests := requests s |}).

(** [fetchWithFallback] (lines 130-148) *)
Definition fetchWithFallback (path : jsstring) : io value :=
  let! fromCdn :=
    attempt
      (let! response := request (CDN_BASE_URL ++ js "/" ++ path) in
       if rs_ok response
       then let! document := settled (rs_json response) in pure (Some document)
       else pure None)
      (fun error => pure None) in
  match fromCdn with
  | Some document => pure document
  | None =>
      let! response := request (GITHUB_RAW_URL ++ js "/" ++ path) in
      if negb (rs_ok response)
      then throw (js "Error: Failed to fetch " ++ path ++ js ": " ++ rs_statusText response)
      else settled (rs_json response)
  end.

(** [isCacheValid] (lines 153-156) *)
Definition isCacheValid (cached : option (CachedData value)) : io bool :=
  match cached with
  | None => pure false
  | Some c => let! now := readClock in pure (now - cd_timestamp c <? CACHE_TTL)
  end.

(** [cached!.data] *)
Definition dataOf (cached : option (CachedData value)) : io value :=
  match cached with
  | Some c => pure (cd_data c)
  | None => throw (js "TypeError: null is not an object")
  end.

(** [getB2YIndex] and [getY2BIndex] (lines 161-182) *)
Definition getB2YIndex : io value :=
  let! cached := field b2yIndex in
  let! valid := isCacheValid cached in
  if valid then dataOf cached
  else
    let! index := fetchWithFallback (js "b2y/index.json") in
    let! now := readClock in
    let! _ := assign (fun c =>
                      {| b2yIndex := Some {| cd_data := index; cd_timestamp := now |};
                         y2bIndex := y2bIndex c; mappingCache := mappingCache c |}) in
    pure index.

Definition getY2BIndex : io value :=
  let! cached := field y2bIndex in
  let! valid := isCacheValid cached in
  if valid then dataOf cached
  else
    let! index := fetchWithFallback (js "y2b/index.json") in
    let! now := readClock in
    let! _ := assign (fun c =>
                      {| b2yIndex := b2yIndex c;
                         y2bIndex := Some {| cd_data := index; cd_timestamp := now |};
                         mappingCache := mappingCache c |}) in
    pure index.

(** [getMappingByBiliUid] (lines 187-209) *)
Definition getMappingByBiliUid (uid : jsstring) : io value :=
  let cacheKey := js "b2y:" ++ uid in
  let! cached := field (fun c => mappingCache c !! cacheKey) in
  let! valid := isCacheValid cached in
  if valid then dataOf cached
  else
    attempt
      (let! index := getB2YIndex in
       let! shardPath := settled (property index uid) in
       match shardPath with
       | None => pure null
       | Some path =>
           let! mapping := fetchWithFallback (js "b2y/" ++ path) in
           let! now := readClock in
           let! _ := assign (fun c =>
                             {| b2yIndex := b2yIndex c; y2bIndex := y2bIndex c;
                                mappingCache :=
                                  <[cacheKey := {| cd_data := mapping; cd_timestamp := now |}]>
                                    (mappingCache c) |}) in
           pure mapping
       end)
      (fun error => pure null).

(** [getMappingByYouTubeId] (lines 214-236) *)
Definition getMappingByYouTubeId (channelId : jsstring) : io value :=
  let cacheKey := js "y2b:" ++ channelId in
  let! cached := field (fun c => mappingCache c !! cacheKey) in
  let! valid := isCacheValid cached in
  if valid then dataOf cached
  else
    attempt
      (let! index := getY2BIndex in
       let! shardPath := settled (property index channelId) in
       match shardPath with
       | None => pure null
       | Some path =>
           let! mapping := fetchWithFallback (js "y2b/" ++ path) in
           let! now := readClock in
           let! _ := assign (fun c =>
                             {| b2yIndex := b2yIndex c; y2bIndex := y2bIndex c;
                                mappingCache :=
                                  <[cacheKey := {| cd_data := mapping; cd_timestamp := now |}]>
                                    (mappingCache c) |}) in
           pure mapping
       end)
      (fun error => pure null).

(** The index of a direction: [getB2YIndex] or [getY2BIndex]. *)
Definition indexOf (d : direction) : io value :=
  match d with
  | B2Y => getB2YIndex
  | Y2B => getY2BIndex
  end.

(** The two lookups have one shape: they differ in the name of the
    direction, which prefixes the cache key and the path, and in the index
    they read. *)
Definition getMappingVia (name : jsstring) (getIndex : io value) (id : jsstring)
  : io value :=
  let cacheKey := name ++ js ":" ++ id in
  let! cached := field (fun c => mappingCache c !! cacheKey) in
  let! valid := isCacheValid cached in
  if valid then dataOf cached
  else
    attempt
      (let! index := getIndex in
       let! shardPath := settled (property index id) in
       match shardPath with
       | None => pure null
       | Some path =>
           let! mapping := fetchWithFallback (name ++ js "/" ++ path) in
           let! now := readClock in
           let! _ := assign (fun c =>
                             {| b2yIndex := b2yIndex c; y2bIndex := y2bIndex c;
                                mappingCache :=
                                  <[cacheKey := {| cd_data := mapping; cd_timestamp := now |}]>
                                    (mappingCache c) |}) in
           pure mapping
       end)
      (fun error => pure null).

(** [clearCache] (lines 241-245) *)
Definition clearCache : io unit :=
  assign (fun _ => newMappingClient).

End MappingClient.

(** ** Notions the statements about the client use *)


(** The requests for one document: the CDN first, GitHub after it when the
    CDN did not deliver. *)
Inductive asked (path : jsstring) : list jsstring -> Prop :=
| asked_cdn : asked path [CDN_BASE_URL ++ js "/" ++ path]
| asked_both :
    asked path [CDN_BASE_URL ++ js "/" ++ path; GITHUB_RAW_URL ++ js "/" ++ path].

(** The requests of one lookup: none, or those for the index, or those
    for a shard file, or both in this order. *)
Definition lookupRequests (direction : jsstring) (made : list jsstring) : Prop :=
  exists forIndex forShard,
    made = forIndex ++ forShard /\
    (forIndex = [] \/ asked (direction ++ js "/index.json") forIndex) /\
    (forShard = [] \/ exists path, asked (direction ++ js "/" ++ path) forShard).

Arguments client {value World} _.
Arguments world {value World} _.
Arguments requests {value World} _.

(** [getMappingByBiliUid] or [getMappingByYouTubeId]. *)
Definition lookupMapping {value World : Type} (null : value)
    (property : value -> jsstring -> result (option jsstring))
    (dateNow : World -> Z * World)
    (fetchUrl : World -> jsstring -> result (Response value) * World)
    (d : direction) : jsstring -> io value World value :=
  match d with
  | B2Y => getMappingByBiliUid value null property World dateNow fetchUrl
  | Y2B => getMappingByYouTubeId value null property World dateNow fetchUrl
  end.

(** The key under which a lookup caches its answer. *)
Definition cacheKeyOf (d : direction) (id : jsstring) : jsstring :=
  directionName d ++ js ":" ++ id.

Module SampleClient.

(** The scenario of 'should cache mappings with TTL' (tests of the
    client): the world is a clock, documents are their texts, every
    request is answered, with the index when the address contains
    [index.json] and with the mapping otherwise. *)
Definition indexText : jsstring := js "{'123456': '12/34/12345678.json'}".

Definition mappingText : jsstring := js "{bilibiliUid: '123456', ...}".

Definition null : jsstring := js "null".

Definition dateNow (w : Z) : Z * Z := (w, w + 1).

Definition fetchUrl (w : Z) (url : jsstring) : result (Response jsstring) * Z :=
  (Ok {| rs_ok := true; rs_statusText := js "OK";
         rs_json := Ok (if includes url (js "index.json") then indexText else mappingText) |},
   w + 250).

Definition property (document key : jsstring) : result (option jsstring) :=
  if decide (document = indexText /\ key = js "123456")
  then Ok (Some (js "12/34/12345678.json"))
  else Ok None.

(** A new client, at instant 1000. *)
Definition cold : session jsstring Z :=
  {| client := newMappingClient; world := 1000; requests := [] |}.

(** The client after the lookup of "123456". *)
Definition warm : session jsstring Z :=
  (lookupMapping null property dateNow fetchUrl B2Y (js "123456") cold).2.

End SampleClient.

(** ** The rankings of the Bilibili client (api/bilibili.ts, lines 185-278) *)

(** What [await response.json()] yields for a ranking, as far as the
    client reads it: [data.code], [data.message], and of every item of
    [data.data.list] its [owner]. *)
Record RankingOwner := {
  ro_mid : number;
  ro_name : jsstring;
  ro_face : jsstring
}.

Record RankingPayload := {
  rp_code : number;
  rp_message : jsstring;
  rp_list : list RankingOwner
}.

Section Rankings.

(** [Number.prototype.toString] *)
Variable numberToString : number -> jsstring.

(** The user pushed for one item (lines 200-207). *)
Definition rankedUser (owner : RankingOwner) : BilibiliUser :=
  {| bu_uid := numberToString (ro_mid owner); bu_name := ro_name owner;
     bu_face := ro_face owner; bu_sign := []; bu_follower := 0%float;
     bu_level := 0%float; bu_official := None |}.

(** The loop of lines 196-209, threading [seenUids] and [users]. *)
Definition collectOwners (items : list RankingOwner) : list BilibiliUser :=
  (fold_left
     (fun (state : gset jsstring * list BilibiliUser) item =>
        let uid := numberToString (ro_mid item) in
        if decide (uid ∈ state.1) then state
        else ({[uid]} ∪ state.1, state.2 ++ [rankedUser item]))
     items (∅, [])).2.

(** [getHotRankings] (lines 185-212), on the outcome of the request. *)
Definition getHotRankings (payload : result RankingPayload) : result (list BilibiliUser) :=
  match payload with
  | Raise error => Raise error
  | Ok data =>
      if negb (PrimFloat.eqb (rp_code data) 0)
      then Raise (js "Error: Failed to get hot rankings: " ++ rp_message data)
      else Ok (collectOwners (rp_list data))
  end.

(** [getMustWatchList] (lines 217-244) *)
Definition getMustWatchList (payload : result RankingPayload) : result (list BilibiliUser) :=
  match payload with
  | Raise error => Raise error
  | Ok data =>
      if negb (PrimFloat.eqb (rp_code data) 0)
      then Raise (js "Error: Failed to get must-watch list: " ++ rp_message data)
      else Ok (collectOwners (rp_list data))
  end.

(** [getTop100Creators] (lines 274-278): the hot rankings, asked again. *)
Definition getTop100Creators (payload : result RankingPayload) : result (list BilibiliUser) :=
  getHotRankings payload.

End Rankings.

(** ** The scanner (workflows/scanner.ts) *)

Record ScannerConfig := {
  coldStart : bool;
  maxUsers : number;
  delayMs : number
}.

Section UserScanner.

(** The world outside the scanner: the clock and the Bilibili client,
    whose calls the scanner sends through its rate limiter and awaits one
    after the other, so that each resolves to what the client returns or
    rejects with what the client throws. *)
Variable World : Type.
Variable toISOString : World -> jsstring * World.
Variable hotRankings : World -> result (list BilibiliUser) * World.
Variable mustWatchList : World -> result (list BilibiliUser) * World.
Variable top100Creators : World -> result (list BilibiliUser) * World.

(** [createShardManagers()] of the constructor, and the files it reads. *)
Variable shardManagers : ShardManagers.
Variable fs : disk.

(** [isColdStart] (lines 22-27): [!b2yIndex && !y2bIndex]; a document is
    truthy, [null] is not. *)
Definition isColdStart : result bool :=
  match readIndex (sm_baseDir (b2y shardManagers)) fs with
  | Raise error => Raise error
  | Ok b2yIndex =>
      match readIndex (sm_baseDir (y2b shardManagers)) fs with
      | Raise error => Raise error
      | Ok y2bIndex =>
          Ok (match b2yIndex with None => true | Some _ => false end
              && match y2bIndex with None => true | Some _ => false end)
      end
  end.

(** The common body of [scanMustWatchList], [scanHotRankings] and
    [scanTop100] (lines 32-81). *)
Definition scanWith (type : HotRankingType)
    (list : World -> result (list BilibiliUser) * World) (w : World)
  : result ScanResult * World :=
  match list w with
  | (Raise error, w1) => (Raise error, w1)
  | (Ok users, w1) =>
      let newUsers :=
        filterNewUsers (sm_config (b2y shardManagers)) (sm_baseDir (b2y shardManagers))
          fs users in
      let '(scannedAt, w2) := toISOString w1 in
      (Ok {| sr_type := type; sr_users := newUsers; sr_scannedAt := scannedAt;
             sr_totalScanned := toNumber (Z.of_nat (length users));
             sr_newUsers := toNumber (Z.of_nat (length newUsers)) |},
       w2)
  end.

Definition scanMustWatchList : World -> result ScanResult * World :=
  scanWith MustWatch mustWatchList.

Definition scanHotRankings : World -> result ScanResult * World :=
  scanWith Hot hotRankings.

Definition scanTop100 : World -> result ScanResult * World :=
  scanWith Top100 top100Creators.

(** [runDailyScan] (lines 102-124) *)
Definition runDailyScan (config : ScannerConfig) (w : World)
  : result (list ScanResult) * World :=
  if coldStart config
  then
    match scanTop100 w with
    | (Raise error, w1) => (Raise error, w1)
    | (Ok top100Result, w1) =>
        match scanMustWatchList w1 with
        | (Raise error, w2) => (Raise error, w2)
        | (Ok mustWatchResult, w2) => (Ok [top100Result; mustWatchResult], w2)
        end
    end
  else
    match scanHotRankings w with
    | (Raise error, w1) => (Raise error, w1)
    | (Ok hotResult, w1) => (Ok [hotResult], w1)
    end.

End UserScanner.

(** A user the scanner takes for new: one without a shard file in the
    store of source identifiers. *)
Definition unmapped (shardManagers : ShardManagers) (fs : disk) (user : BilibiliUser)
  : Prop :=
  hasMapping (sm_config (b2y shardManagers)) (sm_baseDir (b2y shardManagers)) fs
    (bu_uid user) = false.

Module SampleScanner.

(** The mocked client of the scanner tests; the world is a counter of the
    calls made. *)
Definition user (uid name : string) (follower : number) : BilibiliUser :=
  {| bu_uid := js uid; bu_name := js name; bu_face := js "avatar.jpg";
     bu_sign := js "bio"; bu_follower := follower; bu_level := 6%float;
     bu_official := None |}.

Definition toISOString (w : nat) : jsstring * nat := (js "2024-01-01T00:00:00.000Z", S w).

Definition hotRankings (w : nat) : result (list BilibiliUser) * nat :=
  (Ok [user "111" "User1" 10000%float; user "222" "User2" 20000%float], S w).

Definition mustWatchList (w : nat) : result (list BilibiliUser) * nat :=
  (Ok [user "333" "User3" 30000%float; user "222" "User2" 20000%float], S w).

Definition top100Creators (w : nat) : result (list BilibiliUser) * nat :=
  (Ok [user "555" "User5" 100000%float; user "333" "User3" 30000%float], S w).

Definition managers : ShardManagers := createShardManagers defaultDataDir.

(** A store in which "222" has a mapping. *)
Definition store : disk :=
  (writeMapping DEFAULT_SHARD_CONFIG (sm_baseDir (b2y managers)) ∅ (js "222")
     (SampleStore.mappingOf "222" "User2" "UC2" noMetadata)).2.

(** A cold start, and what the scanner reports for it. *)
Definition coldConfig : ScannerConfig :=
  {| coldStart := true; maxUsers := 100%float; delayMs := 1000%float |}.

Definition coldResults : list ScanResult :=
  [ {| sr_type := Top100;
       sr_users := [user "555" "User5" 100000%float; user "333" "User3" 30000%float];
       sr_scannedAt := js "2024-01-01T00:00:00.000Z";
       sr_totalScanned := 2%float; sr_newUsers := 2%float |};
    {| sr_type := MustWatch;
       sr_users := [user "333" "User3" 30000%float];
       sr_scannedAt := js "2024-01-01T00:00:00.000Z";
       sr_totalScanned := 2%float; sr_newUsers := 1%float |} ].

(** A ranking with two videos of one owner and one of another, and the
    decimal text of their two numbers. *)
Definition numberToString (mid : number) : jsstring :=
  if PrimFloat.eqb mid 7 then js "7" else js "9".

Definition owner (mid : number) (name : string) : RankingOwner :=
  {| ro_mid := mid; ro_name := js name; ro_face := js "face.jpg" |}.

Definition ranking : RankingPayload :=
  {| rp_code := 0%float; rp_message := js "0";
     rp_list := [owner 7%float "A"; owner 9%float "B"; owner 7%float "A"] |}.

Definition ranked : list BilibiliUser :=
  [rankedUser numberToString (owner 7%float "A");
   rankedUser numberToString (owner 9%float "B")].

End SampleScanner.

(** ** From the store to the extension

    The verification workflow publishes the directory [dataDir] of the
    repository; the extension asks a CDN that serves this directory.
    These are the assumptions under which the two sides are put
    together. *)

Section Publication.

Variable value : Type.
Variable World : Type.

(** The value [response.json()] resolves to for a document of the store. *)
Variable parsed : json -> value.



End Publication.



Module SamplePublication.


Definition property (document : option json) (key : jsstring) : result (option jsstring) :=
  match document with
  | None => Raise (js "TypeError: null is not an object")
  | Some (JIndex index) => Ok (truthy (index !! key))
  | Some (JMapping _) => Ok None
  end.

Definition dateNow (w : Z) : Z * Z := (w, w).

Definition fetchUrl (dataDir : jsstring) (fs : disk) (w : Z) (url : jsstring)
  : result (Response (option json)) * Z :=
  match stripPrefix (CDN_BASE_URL ++ js "/") url
        ≫= fun path => fileAt fs (dataDir ++ js "/" ++ path) with
  | Some (File (Json d)) =>
      (Ok {| rs_ok := true; rs_statusText := js "OK"; rs_json := Ok (Some d) |}, w)
  | _ =>
      (Ok {| rs_ok := false; rs_statusText := js "Not Found";
             rs_json := Raise (js "SyntaxError: JSON Parse error") |}, w)
  end.



End SamplePublication.

(** * Properties of the verifier *)

Section VerifierFacts.

Variable toLowerCase : jsstring -> jsstring.
Variable api : Api.
Variable now : jsstring.

Lemma level1_not_returned biliUser ytChannel metadata :
  level1Succeeds toLowerCase biliUser ytChannel = false ->
  (level1 toLowerCase now biliUser ytChannel metadata).2 = None.
Proof.
  unfold level1Succeeds, level1.
  destruct (yc_verified ytChannel) as [[|]|]; try reflexivity.
  intros ->. reflexivity.
Qed.

(** The inner loop finds a match exactly when some target title matches. *)
Lemma hasMatchingTitle_find biliVideo ytVideos :
  hasMatchingTitle toLowerCase (bv_title biliVideo) ytVideos
  = match find (titlesMatch toLowerCase biliVideo) ytVideos with
    | Some _ => true
    | None => false
    end.
Proof.
  induction ytVideos as [|y ys IH]; simpl; [reflexivity|].
  unfold titlesMatch at 1.
  destruct (geq _ _); [reflexivity | exact IH].
Qed.

Lemma countMatching_from (biliVideos : list BilibiliVideo) ytVideos (k : nat) :
  fold_left
    (fun matching biliVideo =>
       if hasMatchingTitle toLowerCase (bv_title biliVideo) ytVideos
       then S matching else matching)
    biliVideos k
  = (k + length (matchedPairs toLowerCase biliVideos ytVideos))%nat.
Proof.
  revert k. induction biliVideos as [|b bs IH]; intros k; simpl.
  - lia.
  - rewrite IH, hasMatchingTitle_find.
    destruct (find (titlesMatch toLowerCase b) ytVideos); simpl; lia.
Qed.

(** The counter of lines 179-191 is the number of matching title pairs. *)
Lemma countMatchingVideos_pairs biliVideos ytVideos :
  countMatchingVideos toLowerCase biliVideos ytVideos
  = length (matchedPairs toLowerCase biliVideos ytVideos).
Proof. unfold countMatchingVideos. now rewrite countMatching_from. Qed.

(** The running score of lines 198-221 is the sum of the three bonuses. *)
Lemma score_is_tierScore similarity pairs biliUser ytChannel :
  (scoreRatio (followerRatioValid biliUser ytChannel)
     (scoreVideos pairs (scoreName similarity (0%float, [])))).1
  = tierScore similarity pairs (followerRatio biliUser ytChannel).
Proof.
  unfold tierScore, nameBonus, titleBonus, ratioBonus, scoreRatio, scoreVideos,
    scoreName, followerRatioValid.
  destruct (geq similarity 0.8); [|destruct (geq similarity 0.6)];
    (destruct (3 <=? pairs)%nat; [|destruct (1 <=? pairs)%nat]);
    destruct (geq (followerRatio biliUser ytChannel) 0.5 &&
              leq (followerRatio biliUser ytChannel) 2.0);
    reflexivity.
Qed.

(** What [verify] does once both profiles are in and neither level 1 nor
    level 2 returned. *)
Lemma verify_reaches_level3 biliUid ytChannelId biliUser ytChannel biliVideos ytVideos :
  getUserInfo api biliUid = Ok biliUser ->
  getChannel api ytChannelId = Ok ytChannel ->
  level1Succeeds toLowerCase biliUser ytChannel = false ->
  checkBioMatch toLowerCase (bu_sign biliUser) (yc_description ytChannel)
    biliUid ytChannelId = false ->
  getUserVideos api biliUid 1 10 = Ok biliVideos ->
  getChannelVideos api ytChannelId 10 = Ok ytVideos ->
  exists metadata,
    verify toLowerCase api now biliUid ytChannelId
    = ([(GetUserInfo biliUid, None); (GetChannel ytChannelId, None);
        (GetUserVideos biliUid 1 10, None); (GetChannelVideos ytChannelId 10, None)],
       Ok (level3 toLowerCase now biliUser ytChannel
             (nameSimilarityOf toLowerCase biliUser ytChannel)
             biliVideos ytVideos metadata)).
Proof.
  intros Hu Hc H1 H2 Hbv Hyv.
  unfold verify, verifyBody. rewrite Hu, Hc. cbn [await bind rejection].
  pose proof (level1_not_returned biliUser ytChannel
                (initialMetadata biliUser ytChannel) H1) as Hl1.
  destruct (level1 toLowerCase now biliUser ytChannel (initialMetadata biliUser ytChannel))
    as [md ret1]. cbn in Hl1. subst ret1.
  rewrite H2, Hbv, Hyv. cbn. eexists. reflexivity.
Qed.

End VerifierFacts.

(** Membership in a log of fetches, decided entry by entry. *)
Ltac log_cases H :=
  repeat (destruct H as [H | H]; [inversion H; subst; clear H | ]);
  try (destruct H).

(** C1.  [verify] never throws: for all identifiers it returns a result,
    and whenever one of the fetches it performed raised an error, that
    result has [success = false], [level = 4], [confidence = 0] and a
    [reasons] list naming the failure.  Each of the four collaborator
    fetches, when [verify] reaches it and it raises, ends the run there
    with that result: the fetch of the source profile; the fetch of the
    target profile; and, when neither level 1 nor level 2 returned, the
    fetch of the source videos and the fetch of the target videos. *)
Theorem verify_never_throws (toLowerCase : jsstring -> jsstring) (api : Api)
    (now biliUid ytChannelId : jsstring) :
  (exists log r,
     verify toLowerCase api now biliUid ytChannelId = (log, Ok r) /\
     forall f error, In (f, Some error) log ->
       success r = false /\ level r = 4 /\ confidence r = 0%float /\
       reasons r = [VerificationFailed error]) /\
  (forall error, getUserInfo api biliUid = Raise error ->
     exists r,
       verify toLowerCase api now biliUid ytChannelId
       = ([(GetUserInfo biliUid, Some error)], Ok r) /\
       success r = false /\ level r = 4 /\ confidence r = 0%float /\
       reasons r = [VerificationFailed error] /\ mapping r = None) /\
  (forall biliUser error,
     getUserInfo api biliUid = Ok biliUser ->
     getChannel api ytChannelId = Raise error ->
     exists r,
       verify toLowerCase api now biliUid ytChannelId
       = ([(GetUserInfo biliUid, None); (GetChannel ytChannelId, Some error)], Ok r) /\
       success r = false /\ level r = 4 /\ confidence r = 0%float /\
       reasons r = [VerificationFailed error] /\ mapping r = None) /\
  (forall biliUser ytChannel error,
     getUserInfo api biliUid = Ok biliUser ->
     getChannel api ytChannelId = Ok ytChannel ->
     level1Succeeds toLowerCase biliUser ytChannel = false ->
     checkBioMatch toLowerCase (bu_sign biliUser) (yc_description ytChannel)
       biliUid ytChannelId = false ->
     getUserVideos api biliUid 1 10 = Raise error ->
     exists r,
       verify toLowerCase api now biliUid ytChannelId
       = ([(GetUserInfo biliUid, None); (GetChannel ytChannelId, None);
           (GetUserVideos biliUid 1 10, Some error)], Ok r) /\
       success r = false /\ level r = 4 /\ confidence r = 0%float /\
       reasons r = [VerificationFailed error] /\ mapping r = None) /\
  (forall biliUser ytChannel biliVideos error,
     getUserInfo api biliUid = Ok biliUser ->
     getChannel api ytChannelId = Ok ytChannel ->
     level1Succeeds toLowerCase biliUser ytChannel = false ->
     checkBioMatch toLowerCase (bu_sign biliUser) (yc_description ytChannel)
       biliUid ytChannelId = false ->
     getUserVideos api biliUid 1 10 = Ok biliVideos ->
     getChannelVideos api ytChannelId 10 = Raise error ->
     exists r,
       verify toLowerCase api now biliUid ytChannelId
       = ([(GetUserInfo biliUid, None); (GetChannel ytChannelId, None);
           (GetUserVideos biliUid 1 10, None);
           (GetChannelVideos ytChannelId 10, Some error)], Ok r) /\
       success r = false /\ level r = 4 /\ confidence r = 0%float /\
       reasons r = [VerificationFailed error] /\ mapping r = None).
Proof.
  split; [|split; [|split; [|split]]].
  - unfold verify, verifyBody.
    destruct (getUserInfo api biliUid) as [biliUser | e1];
      cbn [await bind rejection tryCatch ret].
    2: { do 2 eexists. split; [reflexivity|]. intros f error H. log_cases H. now cbn. }
    destruct (getChannel api ytChannelId) as [ytChannel | e2];
      cbn [await bind rejection tryCatch ret app].
    2: { do 2 eexists. split; [reflexivity|]. intros f error H. log_cases H. now cbn. }
    destruct (level1 toLowerCase now biliUser ytChannel (initialMetadata biliUser ytChannel))
      as [metadata [r1|]]; cbn [ret app].
    { do 2 eexists. split; [reflexivity|]. intros f error H. log_cases H. }
    destruct (checkBioMatch toLowerCase (bu_sign biliUser) (yc_description ytChannel)
                biliUid ytChannelId); cbn [ret app].
    { do 2 eexists. split; [reflexivity|]. intros f error H. log_cases H. }
    destruct (getUserVideos api biliUid 1 10) as [biliVideos | e3];
      cbn [await bind rejection tryCatch ret app].
    2: { do 2 eexists. split; [reflexivity|]. intros f error H. log_cases H. now cbn. }
    destruct (getChannelVideos api ytChannelId 10) as [ytVideos | e4];
      cbn [await bind rejection tryCatch ret app].
    2: { do 2 eexists. split; [reflexivity|]. intros f error H. log_cases H. now cbn. }
    do 2 eexists. split; [reflexivity|]. intros f error H. log_cases H.
  - intros error Hu. unfold verify, verifyBody. rewrite Hu.
    eexists. split; [reflexivity|]. now cbn.
  - intros biliUser error Hu Hc. unfold verify, verifyBody. rewrite Hu, Hc.
    eexists. split; [reflexivity|]. now cbn.
  - intros biliUser ytChannel error Hu Hc H1 H2 Hbv.
    unfold verify, verifyBody. rewrite Hu, Hc. cbn [await bind rejection].
    pose proof (level1_not_returned toLowerCase now biliUser ytChannel
                  (initialMetadata biliUser ytChannel) H1) as Hl1.
    destruct (level1 toLowerCase now biliUser ytChannel (initialMetadata biliUser ytChannel))
      as [md ret1]. cbn in Hl1. subst ret1.
    rewrite H2, Hbv. eexists. split; [reflexivity|]. now cbn.
  - intros biliUser ytChannel biliVideos error Hu Hc H1 H2 Hbv Hyv.
    unfold verify, verifyBody. rewrite Hu, Hc. cbn [await bind rejection].
    pose proof (level1_not_returned toLowerCase now biliUser ytChannel
                  (initialMetadata biliUser ytChannel) H1) as Hl1.
    destruct (level1 toLowerCase now biliUser ytChannel (initialMetadata biliUser ytChannel))
      as [md ret1]. cbn in Hl1. subst ret1.
    rewrite H2, Hbv, Hyv. eexists. split; [reflexivity|]. now cbn.
Qed.

(** A run of C1: 'should handle API errors gracefully', the fetch of the
    source profile rejects with [new Error('API Error')]. *)
Lemma verify_never_throws_witness :
  exists r,
    verify asciiLower
      (Sample.api (Raise (js "Error: API Error"))
         (Ok (Sample.ytChannel "UCtest" "TestUser" "Test" (Some 5000%float) false))
         (Ok []) (Ok []))
      Sample.now (js "123456") (js "UCtest")
    = ([(GetUserInfo (js "123456"), Some (js "Error: API Error"))], Ok r) /\
    success r = false /\ level r = 4 /\ confidence r = 0%float /\
    reasons r = [VerificationFailed (js "Error: API Error")] /\ mapping r = None.
Proof.
  apply (proj1 (proj2 (verify_never_throws asciiLower
                         (Sample.api (Raise (js "Error: API Error"))
                            (Ok (Sample.ytChannel "UCtest" "TestUser" "Test"
                                   (Some 5000%float) false))
                            (Ok []) (Ok []))
                         Sample.now (js "123456") (js "UCtest")))).
  reflexivity.
Defined.

(** The score of the third tier, on the similarity and the ratio the
    code computes.  When neither level 1 nor level 2 returns (and both
    recent-video lists are fetched), the confidence [verify] reports is
    the sum of the name bonus (0.4 from similarity 0.8, else 0.2 from
    0.6), the title bonus (0.3 from three matching title pairs, else 0.15
    for one or two) and the ratio bonus (0.15 for a subscriber/follower
    ratio within [0.5, 2]); the result is a success at level 3 exactly
    when that sum is at least 0.7, and otherwise a failure at level 4
    carrying the same sum. *)
Lemma level3_confidence_is_sum (toLowerCase : jsstring -> jsstring) (api : Api)
    (now biliUid ytChannelId : jsstring) (biliUser : BilibiliUser)
    (ytChannel : YouTubeChannel) (biliVideos : list BilibiliVideo)
    (ytVideos : list YouTubeVideo) :
  getUserInfo api biliUid = Ok biliUser ->
  getChannel api ytChannelId = Ok ytChannel ->
  level1Succeeds toLowerCase biliUser ytChannel = false ->
  checkBioMatch toLowerCase (bu_sign biliUser) (yc_description ytChannel)
    biliUid ytChannelId = false ->
  getUserVideos api biliUid 1 10 = Ok biliVideos ->
  getChannelVideos api ytChannelId 10 = Ok ytVideos ->
  exists log r,
    verify toLowerCase api now biliUid ytChannelId = (log, Ok r) /\
    confidence r
    = tierScore (nameSimilarityOf toLowerCase biliUser ytChannel)
        (length (matchedPairs toLowerCase biliVideos ytVideos))
        (followerRatio biliUser ytChannel) /\
    (success r = true /\ level r = 3 <-> geq (confidence r) 0.7 = true) /\
    (geq (confidence r) 0.7 = false -> success r = false /\ level r = 4).
Proof.
  intros Hu Hc H1 H2 Hbv Hyv.
  destruct (verify_reaches_level3 toLowerCase api now _ _ _ _ _ _ Hu Hc H1 H2 Hbv Hyv)
    as [metadata ->].
  do 2 eexists. split; [reflexivity|].
  unfold level3.
  pose proof (score_is_tierScore (nameSimilarityOf toLowerCase biliUser ytChannel)
                (countMatchingVideos toLowerCase biliVideos ytVideos)
                biliUser ytChannel) as Hscore.
  destruct (scoreRatio _ _) as [conf why]. cbn [fst] in Hscore.
  rewrite countMatchingVideos_pairs in Hscore. subst conf.
  destruct (geq (tierScore _ _ _) 0.7) eqn:Hge; cbn [confidence success level].
  - rewrite Hge. split; [reflexivity|]. split; [tauto | discriminate].
  - rewrite Hge. split; [reflexivity|]. split; [|tauto].
    split; [intros [? _] | ]; discriminate.
Qed.

(** A run of it: the similar-profiles scenario of the test suite. *)
Lemma level3_confidence_is_sum_witness :
  exists log r,
    verify asciiLower (Sample.similarApi (Some 8000%float)) Sample.now
      (js "123456") (js "UCtest") = (log, Ok r) /\
    confidence r
    = tierScore
        (nameSimilarityOf asciiLower (Sample.biliUser "TestUser" "Regular bio")
           (Sample.ytChannel "UCtest" "TestUser" "Regular description"
              (Some 8000%float) false))
        (length (matchedPairs asciiLower (map Sample.biliVideo Sample.threeTitles)
                   (map Sample.ytVideo Sample.threeTitles)))
        (followerRatio (Sample.biliUser "TestUser" "Regular bio")
           (Sample.ytChannel "UCtest" "TestUser" "Regular description"
              (Some 8000%float) false)) /\
    (success r = true /\ level r = 3 <-> geq (confidence r) 0.7 = true) /\
    (geq (confidence r) 0.7 = false -> success r = false /\ level r = 4).
Proof.
  apply (level3_confidence_is_sum asciiLower (Sample.similarApi (Some 8000%float)));
    vm_compute; reflexivity.
Defined.

(** C2, at two names that normalize to the empty string.  The names
    [Official] and [Channel] both normalize to the empty string, so the
    normalized names are equal; three title pairs match and the
    subscriber/follower ratio is 0.8, within [0.5, 2].  The sum the
    claim describes is 0.4 + 0.3 + 0.15, a success at level 3.
    [stringSimilarity] of two empty strings is NaN, which is neither at
    least 0.8 nor at least 0.6: [verify] grants no name bonus and returns
    a failure at level 4 with confidence 0.3 + 0.15. *)
Theorem empty_names_get_no_name_bonus :
  normalizeUsername asciiLower (js "Official") = [] /\
  normalizeUsername asciiLower (js "Channel") = [] /\
  length (matchedPairs asciiLower (map Sample.biliVideo Sample.threeTitles)
            (map Sample.ytVideo Sample.threeTitles)) = 3%nat /\
  (8000 / 10000)%float = 0.8%float /\
  exists r,
    verify asciiLower
      (Sample.api (Ok (Sample.biliUser "Official" "Regular bio"))
         (Ok (Sample.ytChannel "UCtest" "Channel" "Regular description"
                (Some 8000%float) false))
         (Ok (map Sample.biliVideo Sample.threeTitles))
         (Ok (map Sample.ytVideo Sample.threeTitles)))
      Sample.now (js "123456") (js "UCtest")
    = ([(GetUserInfo (js "123456"), None); (GetChannel (js "UCtest"), None);
        (GetUserVideos (js "123456") 1 10, None);
        (GetChannelVideos (js "UCtest") 10, None)], Ok r) /\
    success r = false /\ level r = 4 /\
    confidence r = (0.3 + 0.15)%float /\
    PrimFloat.ltb (confidence r) 0.7 = true /\
    reasons r = [InsufficientConfidence; MatchingVideoTitles 3; FollowerRatioReasonable;
                 ManualReviewRequired] /\
    usernameSimilarity (vr_metadata r) = Some (Num nan) /\
    mapping r = None.
Proof.
  split; [vm_compute; reflexivity|]. split; [vm_compute; reflexivity|].
  split; [vm_compute; reflexivity|]. split; [vm_compute; reflexivity|].
  eexists. split; [vm_compute; reflexivity|].
  repeat split; vm_compute; reflexivity.
Qed.

(** A NaN ratio passes no comparison. *)
Lemma nan_ratio_not_valid (follower bound : number) :
  geq (nan / follower)%float bound = false.
Proof.
  unfold geq. rewrite FloatAxioms.leb_spec, FloatAxioms.div_spec.
  change (Prim2SF nan) with S754_nan. cbn.
  unfold SFleb, SFcompare. destruct (Prim2SF bound); reflexivity.
Qed.

Lemma missing_count_ratio_invalid biliUser ytChannel :
  yc_subscriberCount ytChannel = None ->
  followerRatioValid biliUser ytChannel = false.
Proof.
  intros Hnone. unfold followerRatioValid, followerRatio. rewrite Hnone.
  now rewrite nan_ratio_not_valid.
Qed.

(** Without the ratio block the score is the sum of the other two bonuses,
    and no reason mentions the ratio. *)
Lemma score_without_ratio similarity pairs :
  (scoreRatio false (scoreVideos pairs (scoreName similarity (0%float, [])))).1
  = (nameBonus similarity + titleBonus pairs)%float /\
  ~ In FollowerRatioReasonable
      (scoreRatio false (scoreVideos pairs (scoreName similarity (0%float, [])))).2.
Proof.
  unfold nameBonus, titleBonus, scoreRatio, scoreVideos, scoreName.
  destruct (geq similarity 0.8); [|destruct (geq similarity 0.6)];
    (destruct (3 <=? pairs)%nat; [|destruct (1 <=? pairs)%nat]);
    (split; [reflexivity | cbn; intuition discriminate]).
Qed.

(** C9.  In the level-3 tier, a target profile without a subscriber count
    does not make [verify] fail: it returns a result whose confidence is
    the name bonus plus the title bonus, the 0.15 of the ratio check left
    out, and whose reasons do not mention the ratio. *)
Theorem missing_subscriber_count_skips_ratio (toLowerCase : jsstring -> jsstring)
    (api : Api) (now biliUid ytChannelId : jsstring) (biliUser : BilibiliUser)
    (ytChannel : YouTubeChannel) (biliVideos : list BilibiliVideo)
    (ytVideos : list YouTubeVideo) :
  getUserInfo api biliUid = Ok biliUser ->
  getChannel api ytChannelId = Ok ytChannel ->
  level1Succeeds toLowerCase biliUser ytChannel = false ->
  checkBioMatch toLowerCase (bu_sign biliUser) (yc_description ytChannel)
    biliUid ytChannelId = false ->
  getUserVideos api biliUid 1 10 = Ok biliVideos ->
  getChannelVideos api ytChannelId 10 = Ok ytVideos ->
  yc_subscriberCount ytChannel = None ->
  exists log r,
    verify toLowerCase api now biliUid ytChannelId = (log, Ok r) /\
    (forall f error, ~ In (f, Some error) log) /\
    confidence r
    = (nameBonus (nameSimilarityOf toLowerCase biliUser ytChannel)
       + titleBonus (length (matchedPairs toLowerCase biliVideos ytVideos)))%float /\
    ~ In FollowerRatioReasonable (reasons r).
Proof.
  intros Hu Hc H1 H2 Hbv Hyv Hnone.
  destruct (verify_reaches_level3 toLowerCase api now _ _ _ _ _ _ Hu Hc H1 H2 Hbv Hyv)
    as [metadata ->].
  do 2 eexists. split; [reflexivity|].
  split; [intros f error H; log_cases H|].
  unfold level3. rewrite (missing_count_ratio_invalid _ _ Hnone).
  pose proof (score_without_ratio (nameSimilarityOf toLowerCase biliUser ytChannel)
                (countMatchingVideos toLowerCase biliVideos ytVideos)) as [Hscore Hwhy].
  destruct (scoreRatio _ _) as [conf why]. cbn [fst snd] in Hscore, Hwhy.
  rewrite countMatchingVideos_pairs in Hscore. subst conf.
  destruct (geq _ 0.7); cbn [confidence reasons]; split; try reflexivity; try assumption.
  cbn. intros [H | H]; [discriminate|].
  apply in_app_or in H as [H | [H | []]]; [tauto | discriminate].
Qed.

(** A run of C9: the similar-profiles scenario, the subscriber count
    removed. *)
Lemma missing_subscriber_count_skips_ratio_witness :
  exists log r,
    verify asciiLower (Sample.similarApi None) Sample.now (js "123456") (js "UCtest")
    = (log, Ok r) /\
    (forall f error, ~ In (f, Some error) log) /\
    confidence r
    = (nameBonus
         (nameSimilarityOf asciiLower (Sample.biliUser "TestUser" "Regular bio")
            (Sample.ytChannel "UCtest" "TestUser" "Regular description" None false))
       + titleBonus
           (length (matchedPairs asciiLower (map Sample.biliVideo Sample.threeTitles)
                      (map Sample.ytVideo Sample.threeTitles))))%float /\
    ~ In FollowerRatioReasonable (reasons r).
Proof.
  apply (missing_subscriber_count_skips_ratio asciiLower (Sample.similarApi None));
    vm_compute; reflexivity.
Defined.

(** The second tier, on the searches [checkBioMatch] makes.  If level 1
    did not succeed and the lower-cased source bio contains the
    lower-cased target identifier or one of the two target-platform
    patterns, or the lower-cased target description contains the source
    identifier as [verify] received it or one of the source-platform
    patterns, then [verify] returns [success = true], [level = 2] and
    [confidence = 0.85]. *)
Lemma bio_match_gives_level2 (toLowerCase : jsstring -> jsstring) (api : Api)
    (now biliUid ytChannelId : jsstring) (biliUser : BilibiliUser)
    (ytChannel : YouTubeChannel) :
  getUserInfo api biliUid = Ok biliUser ->
  getChannel api ytChannelId = Ok ytChannel ->
  level1Succeeds toLowerCase biliUser ytChannel = false ->
  includes (toLowerCase (bu_sign biliUser)) (toLowerCase ytChannelId) = true \/
  includes (toLowerCase (bu_sign biliUser)) (js "youtube.com") = true \/
  includes (toLowerCase (bu_sign biliUser)) (js "youtu.be") = true \/
  includes (toLowerCase (yc_description ytChannel)) biliUid = true \/
  includes (toLowerCase (yc_description ytChannel)) (js "bilibili.com") = true \/
  includes (toLowerCase (yc_description ytChannel)) [98; 31449]%N = true \/
  includes (toLowerCase (yc_description ytChannel)) [98; 31449; 31354; 38388]%N = true ->
  exists log r,
    verify toLowerCase api now biliUid ytChannelId = (log, Ok r) /\
    success r = true /\ level r = 2 /\ confidence r = 0.85%float.
Proof.
  intros Hu Hc H1 Hbio.
  assert (checkBioMatch toLowerCase (bu_sign biliUser) (yc_description ytChannel)
            biliUid ytChannelId = true) as Hmatch.
  { unfold checkBioMatch. cbn [existsb].
    destruct Hbio as [H | [H | [H | [H | [H | [H | H]]]]]]; rewrite H;
      repeat rewrite ?orb_true_r, ?orb_true_l; reflexivity. }
  unfold verify, verifyBody. rewrite Hu, Hc. cbn [await bind rejection].
  pose proof (level1_not_returned toLowerCase now biliUser ytChannel
                (initialMetadata biliUser ytChannel) H1) as Hl1.
  destruct (level1 toLowerCase now biliUser ytChannel (initialMetadata biliUser ytChannel))
    as [md ret1]. cbn in Hl1. subst ret1.
  rewrite Hmatch. cbn. do 2 eexists. split; [reflexivity|]. now cbn.
Qed.

(** A run of it: the target description quotes the digits of the source
    identifier. *)
Lemma bio_match_gives_level2_witness :
  exists log r,
    verify asciiLower Sample.mentionApi Sample.now (js "123456") (js "UCtest")
    = (log, Ok r) /\
    success r = true /\ level r = 2 /\ confidence r = 0.85%float.
Proof.
  apply (bio_match_gives_level2 asciiLower Sample.mentionApi Sample.now
           (js "123456") (js "UCtest")
           (Sample.biliUser "TestUser" "Regular bio")
           (Sample.ytChannel "UCtest" "Test Channel" "Follow me on Bilibili: 123456"
              (Some 5000%float) false)).
  - reflexivity.
  - reflexivity.
  - vm_compute. reflexivity.
  - right; right; right; left. vm_compute. reflexivity.
Defined.


(** C4, at the empty string.  [stringSimilarity] has no case for empty
    inputs: the distance 0 is divided by the maximal length 0, and the
    result is NaN, not 1. *)
Theorem stringSimilarity_empty_empty :
  stringSimilarity [] [] = nan /\
  PrimFloat.eqb (stringSimilarity [] []) 1%float = false.
Proof. split; vm_compute; reflexivity. Qed.

(** The other two cases of C4 on the strings of the test suite. *)
Example stringSimilarity_samples :
  stringSimilarity (js "test") (js "test") = 1%float /\
  stringSimilarity (js "hello world") (js "hello world") = 1%float /\
  stringSimilarity (js "test") [] = 0%float /\
  stringSimilarity [] (js "test") = 0%float.
Proof. repeat split; vm_compute; reflexivity. Qed.

(** [normalizeUsername] on the two names the specification lists. *)
Example normalizeUsername_samples :
  normalizeUsername asciiLower (js "Test_User-Official Channel") = js "testuser" /\
  normalizeUsername asciiLower [27979; 35797; 29992; 25143; 39057; 36947]%N
  = [27979; 35797; 29992; 25143]%N.
Proof. split; vm_compute; reflexivity. Qed.

(** NaN reaches a mapping: two names that normalize to the empty string
    and a bio that mentions the target give a level-2 mapping whose
    recorded username similarity is NaN. *)
Example empty_names_give_nan_similarity :
  exists log r m md,
    verify asciiLower
      (Sample.api (Ok (Sample.biliUser "Official" "see youtube.com/@me"))
         (Ok (Sample.ytChannel "UCtest" "Channel" "Test" (Some 5000%float) false))
         (Ok []) (Ok []))
      Sample.now (js "123456") (js "UCtest") = (log, Ok r) /\
    level r = 2 /\ mapping r = Some m /\ um_metadata m = Some md /\
    usernameSimilarity md = Some (Num nan).
Proof. do 4 eexists. split; [vm_compute; reflexivity|]. repeat split. Qed.

(** * Properties of the string similarity *)

(** ** Numbers *)

Lemma digits2_pos_iter_xO (m k : positive) :
  digits2_pos (Pos.iter xO m k) = (digits2_pos m + k)%positive.
Proof.
  revert m. induction k using Pos.peano_ind; intros m.
  - cbn. lia.
  - rewrite Pos.iter_succ. cbn. rewrite IHk. lia.
Qed.

Lemma digits2_pos_bound (m : positive) (d : Z) :
  0 <= d -> Zpos m < 2 ^ d -> Zpos (digits2_pos m) <= d.
Proof.
  revert d. induction m as [m IH | m IH |]; intros d Hd Hm; cbn [digits2_pos];
    assert (0 < d) by (destruct (Z.eq_dec d 0); [subst; cbn in Hm; lia | lia]);
    try lia;
    replace d with (Z.succ (d - 1)) in Hm by lia;
    rewrite Z.pow_succ_r in Hm by lia;
    specialize (IH (d - 1)); lia.
Qed.

(** A positive integer below 2^53 is a positive finite binary64 number. *)
Lemma normalize_small (m : positive) :
  Zpos m < 2 ^ 53 ->
  exists m' e', binary_normalize prec emax (Zpos m) 0 false = S754_finite false m' e'.
Proof.
  intros Hm. pose proof (digits2_pos_bound m 53 ltac:(lia) Hm) as Hd.
  unfold binary_normalize, binary_round.
  set (d := digits2_pos m) in *.
  assert (fexp prec emax (Zpos d + 0) = Zpos d - 53) as Hfexp.
  { unfold fexp, emin, prec, emax. lia. }
  rewrite Hfexp. unfold shl_align.
  destruct (Zpos d - 53 - 0) as [|p|p] eqn:Hs; [|lia|].
  - unfold binary_round_aux, shr_fexp. cbn [Zdigits2 shr_record_of_loc].
    fold d. rewrite Hfexp. replace (Zpos d - 53 - 0) with 0 by lia.
    cbn [shr shr_m loc_of_shr_record round_nearest_even].
    cbn [Zdigits2]. fold d. rewrite Hfexp. replace (Zpos d - 53 - 0) with 0 by lia.
    cbn [shr shr_m]. eexists _, _. reflexivity.
  - unfold binary_round_aux, shr_fexp. cbn [Zdigits2 shr_record_of_loc].
    rewrite digits2_pos_iter_xO. fold d.
    assert (fexp prec emax (Zpos (d + p) + (Zpos d - 53)) - (Zpos d - 53) = 0) as H0.
    { unfold fexp, emin, prec, emax. lia. }
    rewrite H0. cbn [shr shr_m loc_of_shr_record round_nearest_even].
    cbn [Zdigits2]. rewrite digits2_pos_iter_xO. fold d. rewrite H0. cbn [shr shr_m].
    replace (Zpos d - 53 <=? emax - prec) with true.
    + eexists _, _. reflexivity.
    + symmetry. apply Z.leb_le. unfold emax, prec. lia.
Qed.

Lemma toNumber_finite (z : Z) :
  0 < z <= maxStringLength ->
  exists m e, Prim2SF (toNumber z) = S754_finite false m e.
Proof.
  unfold maxStringLength, toNumber. intros Hz.
  rewrite FloatAxioms.of_uint63_spec, Uint63.of_Z_spec.
  rewrite Z.mod_small by (change wB with (2 ^ 63); lia).
  destruct z as [|p|p]; try lia. apply normalize_small. lia.
Qed.

Lemma zero_div_finite (x : number) m e :
  Prim2SF x = S754_finite false m e -> (0 / x)%float = 0%float.
Proof.
  intros Hx. apply Prim2SF_inj. rewrite FloatAxioms.div_spec, Hx. reflexivity.
Qed.

Lemma self_div_finite (x : number) m e :
  Prim2SF x = S754_finite false m e -> (x / x)%float = 1%float.
Proof.
  intros Hx. apply Prim2SF_inj. rewrite FloatAxioms.div_spec, Hx.
  unfold SF64div, SFdiv, SFdiv_core_binary.
  replace (Zdigits2 (Zpos m) + e - (Zdigits2 (Zpos m) + e)) with 0 by lia.
  replace (e - e) with 0 by lia.
  change (Z.min (fexp prec emax 0) 0) with (-53).
  change (0 - -53) with 53.
  cbv iota beta zeta.
  rewrite Z.shiftl_mul_pow2 by lia.
  pose proof (Z.div_eucl_eq (Zpos m * 2 ^ 53) (Zpos m) ltac:(lia)) as Heq.
  pose proof (Z.mod_pos_bound (Zpos m * 2 ^ 53) (Zpos m) ltac:(lia)) as Hbound.
  unfold Z.modulo in Hbound.
  destruct (Z.div_eucl (Zpos m * 2 ^ 53) (Zpos m)) as [q r].
  assert (q = 2 ^ 53) as ->.
  { generalize dependent (2 ^ 53). intros P Heq.
    destruct (Z.lt_trichotomy q P) as [Hlt | [Heq' | Hgt]]; [nia | assumption | nia]. }
  assert (r = 0) as -> by lia.
  assert (new_location (Zpos m) 0 = loc_Exact) as ->.
  { unfold new_location, new_location_even, new_location_odd.
    destruct (Z.even (Zpos m)); reflexivity. }
  vm_compute. reflexivity.
Qed.

(** The two quotients [stringSimilarity] forms in the cases below. *)
Lemma similarity_of_distance_zero (len : Z) :
  0 < len <= maxStringLength ->
  (1 - toNumber 0 / toNumber len)%float = 1%float.
Proof.
  intros Hlen. destruct (toNumber_finite len Hlen) as (m & e & Hfin).
  change (toNumber 0) with 0%float. now rewrite (zero_div_finite _ _ _ Hfin).
Qed.

Lemma similarity_of_distance_full (len : Z) :
  0 < len <= maxStringLength ->
  (1 - toNumber len / toNumber len)%float = 0%float.
Proof.
  intros Hlen. destruct (toNumber_finite len Hlen) as (m & e & Hfin).
  now rewrite (self_div_finite _ _ _ Hfin).
Qed.

(** ** Arrays without holes *)

Lemma nth_error_lookup {A} (l : list A) (i : nat) : nth_error l i = l !! i.
Proof. revert i. induction l as [|x l IH]; intros [|i]; cbn; auto. Qed.

Lemma lookup_map {A B} (f : A -> B) (l : list A) (i : nat) :
  map f l !! i = f <$> l !! i.
Proof. revert i. induction l as [|x l IH]; intros [|i]; cbn; auto. Qed.

Lemma aget_row (row : list Z) (k : nat) : aget (map Some row) k = row !! k.
Proof.
  unfold aget. rewrite nth_error_lookup, lookup_map.
  now destruct (row !! k).
Qed.

Lemma aget_dense (rows : list (list Z)) (i : nat) :
  aget (dense rows) i = map Some <$> rows !! i.
Proof.
  unfold aget, dense. rewrite nth_error_lookup, lookup_map.
  now destruct (rows !! i).
Qed.

Lemma aset_row_end (row : list Z) (k : nat) (v : Z) :
  length row = k -> aset (map Some row) k v = map Some (row ++ [v]).
Proof.
  intros <-. unfold aset.
  rewrite length_map, Nat.ltb_irrefl, Nat.sub_diag, map_app. reflexivity.
Qed.

Lemma aset_row_same (row : list Z) (k : nat) (v : Z) :
  row !! k = Some v -> aset (map Some row) k v = map Some row.
Proof.
  intros Hk. unfold aset. rewrite length_map.
  pose proof (lookup_lt_Some _ _ _ Hk) as Hlt.
  apply Nat.ltb_lt in Hlt as ->.
  rewrite <- (take_drop_middle row k v Hk) at 3.
  rewrite map_app. cbn. now rewrite <- firstn_map, <- skipn_map.
Qed.

Lemma aset_dense (rows : list (list Z)) (i : nat) (row : list Z) :
  (i < length rows)%nat ->
  aset (dense rows) i (map Some row) = dense (<[i := row]> rows).
Proof.
  intros Hlt. unfold aset, dense. rewrite length_map.
  apply Nat.ltb_lt in Hlt as Hlt'. rewrite Hlt'.
  rewrite insert_take_drop by assumption. rewrite map_app. cbn.
  now rewrite <- firstn_map, <- skipn_map.
Qed.

Lemma aset_dense_end (rows : list (list Z)) (row : list Z) :
  aset (dense rows) (length rows) (map Some row) = dense (rows ++ [row]).
Proof.
  unfold aset, dense. rewrite length_map, Nat.ltb_irrefl, Nat.sub_diag, map_app.
  reflexivity.
Qed.

(** A loop over [start, start + 1, ...] keeps an invariant indexed by the
    next value of the counter. *)
Lemma fold_seq_invariant {A} (f : A -> nat -> A) (Inv : nat -> A -> Prop)
    (len start : nat) (a : A) :
  Inv start a ->
  (forall k x, (start <= k < start + len)%nat -> Inv k x -> Inv (S k) (f x k)) ->
  Inv (start + len)%nat (fold_left f (seq start len) a).
Proof.
  revert start a. induction len as [|len IH]; intros start a Ha Hstep; cbn.
  - now rewrite Nat.add_0_r.
  - rewrite <- Nat.add_succ_comm. apply IH.
    + apply Hstep; [lia | assumption].
    + intros k x Hk. apply Hstep. lia.
Qed.

(** ** The matrix as initialised *)

Lemma initRows_dense (len1 : nat) :
  initRows len1 = dense (map (fun i => [Z.of_nat i]) (seq 0 (S len1))).
Proof.
  unfold initRows.
  apply (fold_seq_invariant
           (fun m i => aset m i [Some (Z.of_nat i)])
           (fun k m => m = dense (map (fun i => [Z.of_nat i]) (seq 0 k)))
           (S len1) 0 []).
  - reflexivity.
  - intros k m _ ->. rewrite seq_S, map_app. cbn [map].
    rewrite <- aset_dense_end. now rewrite length_map, length_seq.
Qed.

(** The first row after its initialisation: [0, 1, ..., len2]. *)
Lemma initFirstRow_dense (len2 : nat) (rest : list (list Z)) :
  initFirstRow len2 (dense ([0] :: rest))
  = dense (map Z.of_nat (seq 0 (S len2)) :: rest).
Proof.
  unfold initFirstRow. cbn [seq fold_left].
  replace (match aget (dense ([0] :: rest)) 0 with
           | Some row0 => aset (dense ([0] :: rest)) 0 (aset row0 0 (Z.of_nat 0))
           | None => dense ([0] :: rest)
           end) with (dense (map Z.of_nat (seq 0 1) :: rest)) by reflexivity.
  apply (fold_seq_invariant
           (fun m j =>
              match aget m 0 with
              | Some row0 => aset m 0 (aset row0 j (Z.of_nat j))
              | None => m
              end)
           (fun k m => m = dense (map Z.of_nat (seq 0 k) :: rest))
           len2 1).
  - reflexivity.
  - intros k m _ ->. rewrite aget_dense. cbn [lookup list_lookup fmap option_fmap option_map].
    rewrite aset_row_end by now rewrite length_map, length_seq.
    rewrite (aset_dense (_ :: rest) 0) by (cbn; lia). cbn [insert list_insert].
    now rewrite seq_S, map_app.
Qed.

(** ** Against the empty string *)

Lemma fold_left_const {A B} (l : list B) (a : A) : fold_left (fun x _ => x) l a = a.
Proof. induction l; cbn; auto. Qed.

Lemma editDistance_empty (s : jsstring) :
  editDistance s [] = Some (Z.of_nat (length s)).
Proof.
  unfold editDistance. cbn [length].
  rewrite initRows_dense. cbn [seq map]. rewrite initFirstRow_dense.
  unfold fillMatrix. cbn [length seq fold_left]. rewrite fold_left_const.
  replace (map Z.of_nat [0%nat] :: map (fun i => [Z.of_nat i]) (seq 1 (length s)))
    with (map (fun i => [Z.of_nat i]) (seq 0 (S (length s)))) by reflexivity.
  rewrite aget_dense, lookup_map, lookup_seq_lt by lia. reflexivity.
Qed.

(** ** Against itself *)

Section Identical.

Variable s : jsstring.

Let n := length s.

Lemma matrix_initially_filled :
  matrixFilled n 0 (initFirstRow n (initRows n)).
Proof.
  rewrite initRows_dense. cbn [seq map]. rewrite initFirstRow_dense.
  exists (map Z.of_nat (seq 0 (S n)) :: map (fun i => [Z.of_nat i]) (seq 1 n)),
         (map Z.of_nat (seq 0 (S n))).
  split; [reflexivity|]. split; [cbn; now rewrite length_map, length_seq|].
  split; [reflexivity|]. split.
  - split; [now rewrite length_map, length_seq|]. split; [|reflexivity].
    apply Forall_fmap, Forall_forall. intros k _. cbn. lia.
  - intros k Hk. destruct k as [|k]; [lia|].
    change (map (fun i => [Z.of_nat i]) (seq 1 n) !! k = Some [Z.of_nat (S k)]).
    rewrite lookup_map, lookup_seq_lt by lia. reflexivity.
Qed.

(** One cell of row [i]. *)
Lemma fillCell_keeps_filling (i j : nat) (m : jsarray (jsarray Z)) :
  (1 <= i <= n)%nat -> (1 <= j <= n)%nat ->
  matrixFilling n i j m -> matrixFilling n i (S j) (fillCell s s i j m).
Proof.
  intros Hi Hj (rows & above & current & -> & Hlen & Habove & Hdone & Hcur & Hfill & Hbelow).
  destruct Hdone as (Halen & Hapos & Hadiag).
  destruct Hfill as (Hclen & Hcpos & Hcdiag).
  destruct (lookup_lt_is_Some_2 current (j - 1)) as [pc Hpc]; [lia|].
  destruct (lookup_lt_is_Some_2 above (j - 1)) as [dc Hdc]; [lia|].
  destruct (lookup_lt_is_Some_2 above j) as [prc Hprc]; [lia|].
  destruct (lookup_lt_is_Some_2 s (i - 1)) as [a Ha]; [fold n; lia|].
  destruct (lookup_lt_is_Some_2 s (j - 1)) as [b Hb]; [fold n; lia|].
  assert (0 <= pc) as Hpc0.
  { eapply (Forall_lookup_1 _ current); eauto. }
  assert (0 <= dc) as Hdc0.
  { eapply (Forall_lookup_1 _ above); eauto. }
  assert (0 <= prc) as Hprc0.
  { eapply (Forall_lookup_1 _ above); eauto. }
  unfold fillCell. rewrite !nth_error_lookup, Ha, Hb, !aget_dense, Habove, Hcur.
  cbn [fmap option_fmap option_map mbind option_bind].
  rewrite !aget_row, Hpc, Hdc, Hprc.
  set (cost := if N.eqb a b then 0 else 1).
  set (v := Z.min (Z.min (prc + 1) (pc + 1)) (dc + cost)).
  assert (0 <= cost) as Hcost by (unfold cost; destruct (N.eqb a b); lia).
  rewrite aset_row_end by assumption.
  rewrite aset_dense by (rewrite Hlen; lia).
  exists (<[i := current ++ [v]]> rows), above, (current ++ [v]).
  split; [reflexivity|]. split; [now rewrite length_insert|].
  split; [rewrite list_lookup_insert_ne by lia; assumption|].
  split; [repeat split; assumption|].
  split; [apply list_lookup_insert_eq; rewrite Hlen; lia|].
  split.
  - split; [rewrite length_app; cbn; lia|]. split.
    + apply Forall_app. split; [assumption|]. repeat constructor. unfold v. lia.
    + intros Hij. destruct (decide (i < j)%nat) as [Hlt|Hge].
      * rewrite lookup_app_l by lia. now apply Hcdiag.
      * assert (i = j) as -> by lia.
        rewrite list_lookup_middle by lia. f_equal.
        assert (a = b) as -> by congruence.
        assert (dc = 0) as -> by congruence.
        unfold v, cost. rewrite N.eqb_refl. lia.
  - intros k Hk. rewrite list_lookup_insert_ne by lia. now apply Hbelow.
Qed.

(** One row. *)
Lemma fillRow_keeps_filled (i : nat) (m : jsarray (jsarray Z)) :
  (1 <= i <= n)%nat ->
  matrixFilled n (i - 1) m ->
  matrixFilled n i (fold_left (fun m j => fillCell s s i j m) (seq 1 n) m).
Proof.
  intros Hi (rows & above & -> & Hlen & Habove & Hdone & Hbelow).
  assert (matrixFilling n i (1 + n)
            (fold_left (fun m j => fillCell s s i j m) (seq 1 n) (dense rows)))
    as (rows' & above' & current & -> & Hlen' & _ & _ & Hcur & Hfill & Hbelow').
  { apply (fold_seq_invariant (fun m j => fillCell s s i j m)
             (fun j m => matrixFilling n i j m)).
    - exists rows, above, [Z.of_nat i].
      split; [reflexivity|]. split; [assumption|]. split; [assumption|].
      split; [assumption|]. split; [apply Hbelow; lia|]. split.
      + split; [reflexivity|]. split; [repeat constructor; lia | lia].
      + intros k Hk. apply Hbelow. lia.
    - intros j x Hj. apply fillCell_keeps_filling; lia. }
  exists rows', current. split; [reflexivity|]. split; [assumption|].
  split; [assumption|]. split; [|assumption].
  destruct Hfill as (Hclen & Hcpos & Hcdiag).
  split; [assumption|]. split; [assumption|]. apply Hcdiag. lia.
Qed.

Lemma editDistance_identical : editDistance s s = Some 0.
Proof.
  unfold editDistance, fillMatrix. fold n.
  assert (matrixFilled n (1 + n - 1)
            (fold_left
               (fun m i => fold_left (fun m j => fillCell s s i j m) (seq 1 n) m)
               (seq 1 n) (initFirstRow n (initRows n))))
    as (rows & row & -> & Hlen & Hrow & (_ & _ & Hdiag) & _).
  { apply (fold_seq_invariant
             (fun m i => fold_left (fun m j => fillCell s s i j m) (seq 1 n) m)
             (fun i m => matrixFilled n (i - 1) m)).
    - apply matrix_initially_filled.
    - intros i m Hi Hm. replace (S i - 1)%nat with i by lia.
      apply fillRow_keeps_filled; [lia | assumption]. }
  replace (1 + n - 1)%nat with n in * by lia.
  rewrite aget_dense, Hrow. cbn [fmap option_fmap option_map mbind option_bind].
  now rewrite aget_row.
Qed.

End Identical.

(** For every non-empty string, [stringSimilarity(s, s)] is 1 and
    [stringSimilarity(s, '')] is 0. *)
Theorem stringSimilarity_nonempty (s : jsstring) :
  s <> [] ->
  Z.of_nat (length s) <= maxStringLength ->
  stringSimilarity s s = 1%float /\ stringSimilarity s [] = 0%float.
Proof.
  intros Hne Hlen.
  assert (0 < Z.of_nat (length s)) by (destruct s; [contradiction | cbn; lia]).
  unfold stringSimilarity. rewrite editDistance_identical, editDistance_empty.
  cbn [length]. rewrite Z.max_id, Z.max_l by lia.
  split.
  - apply similarity_of_distance_zero. lia.
  - apply similarity_of_distance_full. lia.
Qed.

(** A run of [stringSimilarity_nonempty]. *)
Lemma stringSimilarity_nonempty_witness :
  stringSimilarity (js "test") (js "test") = 1%float /\
  stringSimilarity (js "test") [] = 0%float.
Proof.
  apply stringSimilarity_nonempty; [discriminate | vm_compute; discriminate].
Defined.
(** * Properties of the shard store *)

(** ** Paths *)

Lemma startsWith_app (p s : jsstring) : startsWith p (p ++ s) = true.
Proof. induction p as [|c p IH]; cbn; [reflexivity|]. now rewrite N.eqb_refl. Qed.

Lemma endsWith_app (s suffix : jsstring) : endsWith (s ++ suffix) suffix = true.
Proof. unfold endsWith. rewrite rev_app_distr. apply startsWith_app. Qed.

Lemma stripPrefix_app (prefix s : jsstring) : stripPrefix prefix (prefix ++ s) = Some s.
Proof.
  induction prefix as [|p prefix IH]; cbn; [now destruct s|].
  now rewrite N.eqb_refl.
Qed.

Lemma stripPrefix_Some (prefix s rest : jsstring) :
  stripPrefix prefix s = Some rest -> s = prefix ++ rest.
Proof.
  revert s. induction prefix as [|p prefix IH]; intros s; cbn.
  - destruct s; now intros [= ->].
  - destruct s as [|c s]; [discriminate|].
    destruct (N.eqb_spec p c); [|discriminate]. intros H. subst. f_equal. now apply IH.
Qed.

Lemma segments_not_nil (path : jsstring) : segments path <> [].
Proof.
  destruct path as [|c rest]; cbn; [discriminate|].
  destruct (N.eqb c 47); [discriminate|]. destruct (segments rest); discriminate.
Qed.

Lemma segments_slash (s t : jsstring) :
  Forall (fun c => c <> 47%N) s -> segments (s ++ 47%N :: t) = s :: segments t.
Proof.
  induction 1 as [|c s Hc Hs IH]; cbn.
  - reflexivity.
  - destruct (N.eqb_spec c 47) as [->|_]; [contradiction|]. now rewrite IH.
Qed.

Lemma segments_one (s : jsstring) :
  Forall (fun c => c <> 47%N) s -> segments s = [s].
Proof.
  induction 1 as [|c s Hc Hs IH]; cbn.
  - reflexivity.
  - destruct (N.eqb_spec c 47) as [->|_]; [contradiction|]. now rewrite IH.
Qed.

(** The segments of a path are those before a slash and those after it. *)
Lemma segments_app_slash (x t : jsstring) :
  segments (x ++ 47%N :: t) = segments x ++ segments t.
Proof.
  induction x as [|c x IH]; cbn; [reflexivity|].
  destruct (N.eqb c 47); [now rewrite IH|].
  rewrite IH. pose proof (segments_not_nil x) as Hx.
  destruct (segments x); [contradiction | reflexivity].
Qed.

(** Collapsing works on the two sides of a place where no two slashes
    meet. *)
Lemma collapse_app (a b : jsstring) :
  head b <> Some 47%N -> collapse (a ++ b) = collapse a ++ collapse b.
Proof.
  intros Hb. induction a as [|c a IH]; [reflexivity|].
  destruct a as [|d a].
  - destruct b as [|d b]; [reflexivity|]. cbn [app collapse].
    destruct (N.eqb_spec d 47) as [->|_]; [now contradiction Hb|].
    now rewrite andb_false_r.
  - change ((c :: d :: a) ++ b) with (c :: d :: (a ++ b)).
    change (collapse (c :: d :: a ++ b))
      with (if N.eqb c 47 && N.eqb d 47 then collapse (d :: a ++ b)
            else c :: collapse (d :: a ++ b)).
    change (collapse (c :: d :: a))
      with (if N.eqb c 47 && N.eqb d 47 then collapse (d :: a) else c :: collapse (d :: a)).
    change (d :: a ++ b) with ((d :: a) ++ b). rewrite IH.
    now destruct (N.eqb c 47 && N.eqb d 47).
Qed.

Lemma collapse_slashfree (s : jsstring) :
  Forall (fun c => c <> 47%N) s -> collapse s = s.
Proof.
  induction 1 as [|c s Hc Hs IH]; [reflexivity|].
  destruct s as [|d s]; [reflexivity|].
  change (collapse (c :: d :: s))
    with (if N.eqb c 47 && N.eqb d 47 then collapse (d :: s) else c :: collapse (d :: s)).
  destruct (N.eqb_spec c 47) as [->|_]; [contradiction|]. cbn [andb]. now rewrite IH.
Qed.

(** Two slashes in a row count as one. *)
Lemma collapse_slash_slash (a b : jsstring) :
  collapse (a ++ 47%N :: 47%N :: b) = collapse (a ++ 47%N :: b).
Proof.
  induction a as [|c a IH]; [reflexivity|].
  destruct a as [|d a].
  - cbn [app]. 
    change (collapse (c :: 47%N :: 47%N :: b))
      with (if N.eqb c 47 && N.eqb 47 47 then collapse (47%N :: 47%N :: b)
            else c :: collapse (47%N :: 47%N :: b)).
    change (collapse (c :: 47%N :: b))
      with (if N.eqb c 47 && N.eqb 47 47 then collapse (47%N :: b)
            else c :: collapse (47%N :: b)).
    change (collapse (47%N :: 47%N :: b)) with (collapse (47%N :: b)). reflexivity.
  - change ((c :: d :: a) ++ 47%N :: 47%N :: b) with (c :: d :: (a ++ 47%N :: 47%N :: b)).
    change ((c :: d :: a) ++ 47%N :: b) with (c :: d :: (a ++ 47%N :: b)).
    change (collapse (c :: d :: a ++ 47%N :: 47%N :: b))
      with (if N.eqb c 47 && N.eqb d 47 then collapse (d :: a ++ 47%N :: 47%N :: b)
            else c :: collapse (d :: a ++ 47%N :: 47%N :: b)).
    change (collapse (c :: d :: a ++ 47%N :: b))
      with (if N.eqb c 47 && N.eqb d 47 then collapse (d :: a ++ 47%N :: b)
            else c :: collapse (d :: a ++ 47%N :: b)).
    change (d :: a ++ 47%N :: 47%N :: b) with ((d :: a) ++ 47%N :: 47%N :: b).
    change (d :: a ++ 47%N :: b) with ((d :: a) ++ 47%N :: b).
    now rewrite IH.
Qed.

Lemma collapse_not_nil (c : N) (path : jsstring) : collapse (c :: path) <> [].
Proof.
  revert c. induction path as [|d path IH]; intros c; [discriminate|].
  change (collapse (c :: d :: path))
    with (if N.eqb c 47 && N.eqb d 47 then collapse (d :: path)
          else c :: collapse (d :: path)).
  destruct (N.eqb c 47 && N.eqb d 47); [apply IH | discriminate].
Qed.

(** Collapsing keeps the last character of a path. *)
Lemma collapse_last (path : jsstring) : last (collapse path) = last path.
Proof.
  induction path as [|c path IH]; [reflexivity|].
  destruct path as [|d path]; [reflexivity|].
  change (collapse (c :: d :: path))
    with (if N.eqb c 47 && N.eqb d 47 then collapse (d :: path)
          else c :: collapse (d :: path)).
  change (last (c :: d :: path)) with (last (d :: path)).
  destruct (N.eqb c 47 && N.eqb d 47); [exact IH|].
  rewrite <- IH. pose proof (collapse_not_nil d path) as Hne.
  destruct (collapse (d :: path)); [contradiction | reflexivity].
Qed.

(** The file name of a path, the part after its last slash, survives the
    collapsing. *)
Lemma collapse_fileName (x s : jsstring) :
  Forall (fun c => c <> 47%N) s ->
  last (segments (collapse (x ++ 47%N :: s))) = Some s.
Proof.
  intros Hs.
  change (x ++ 47%N :: s) with (x ++ [47%N] ++ s). rewrite app_assoc.
  rewrite collapse_app, (collapse_slashfree s) by
    (try assumption; destruct Hs; cbn; congruence).
  pose proof (collapse_last (x ++ [47%N])) as Hlast. rewrite last_snoc in Hlast.
  revert Hlast. generalize (collapse (x ++ [47%N])). intros y Hlast.
  destruct y as [|c y _] using rev_ind; [discriminate|].
  rewrite last_snoc in Hlast. injection Hlast as ->.
  rewrite <- app_assoc. cbn [app].
  now rewrite segments_app_slash, (segments_one s), last_snoc.
Qed.

(** ** Hex digests *)

Lemma hexDigit_hexChar n : (n < 16)%N -> hexChar (hexDigit n).
Proof. unfold hexChar, hexDigit. destruct (N.ltb_spec n 10); lia. Qed.

Lemma hexWord_hexChar w : Forall hexChar (hexWord w).
Proof.
  unfold hexWord. apply Forall_map, Forall_forall. intros i _.
  apply hexDigit_hexChar. change 15%N with (N.ones 4).
  rewrite N.land_ones. now apply N.mod_lt.
Qed.

Lemma sha256hex_hexChar s : Forall hexChar (sha256hex s).
Proof.
  unfold sha256hex, hexDigest. repeat (apply Forall_app; split); apply hexWord_hexChar.
Qed.

Lemma sha256hex_length s : length (sha256hex s) = 64%nat.
Proof. unfold sha256hex, hexDigest. rewrite !length_app. reflexivity. Qed.

Lemma substring_Forall (P : N -> Prop) s a b :
  Forall P s -> Forall P (substring s a b).
Proof.
  intros H. unfold substring. apply Forall_take, Forall_drop, H.
Qed.

Lemma substring_length s a b :
  0 <= a <= b -> b <= Z.of_nat (length s) ->
  length (substring s a b) = Z.to_nat (b - a).
Proof.
  intros Hab Hb. unfold substring.
  replace (Z.min (Z.max a 0) (Z.of_nat (length s))) with a by lia.
  replace (Z.min (Z.max b 0) (Z.of_nat (length s))) with b by lia.
  replace (Z.max a b) with b by lia. replace (Z.min a b) with a by lia.
  rewrite length_take, length_drop. lia.
Qed.

Lemma hexChar_no_slash (s : jsstring) :
  Forall hexChar s -> Forall (fun c => c <> 47%N) s.
Proof.
  intros H. eapply Forall_impl; [exact H|]. unfold hexChar. intros c Hc. lia.
Qed.

Section StorageFacts.

Variable config : ShardConfig.
Variable baseDir : jsstring.

Lemma hash_hexChar userId : Forall hexChar (hash config userId).
Proof. apply substring_Forall, sha256hex_hexChar. Qed.

(** The file name of a shard file: the hash and its suffix. *)
Lemma fileName_slashfree userId :
  Forall (fun c => c <> 47%N) (hash config userId ++ js ".json").
Proof.
  apply Forall_app. split; [apply hexChar_no_slash, hash_hexChar|].
  cbn. repeat constructor; lia.
Qed.

Lemma getFullPath_fileName userId :
  last (segments (collapse (getFullPath config baseDir userId)))
  = Some (hash config userId ++ js ".json").
Proof.
  unfold getFullPath, getShardPath. cbv zeta.
  rewrite !app_assoc, <- (app_assoc _ (hash config userId)).
  rewrite <- (app_assoc _ (js "/") (hash config userId ++ js ".json")).
  change (js "/" ++ hash config userId ++ js ".json")
    with (47%N :: hash config userId ++ js ".json").
  apply collapse_fileName, fileName_slashfree.
Qed.

Lemma gitkeep_fileName userId :
  last (segments (collapse (getShardDir config baseDir userId ++ js "/.gitkeep")))
  = Some (js ".gitkeep").
Proof.
  change (js "/.gitkeep") with (47%N :: js ".gitkeep").
  apply collapse_fileName. cbn. repeat constructor; lia.
Qed.

Lemma indexPath_fileName :
  last (segments (collapse (baseDir ++ js "/index.json"))) = Some (js "index.json").
Proof.
  change (js "/index.json") with (47%N :: js "index.json").
  apply collapse_fileName. cbn. repeat constructor; lia.
Qed.

(** The marker file of a shard directory is never a mapping file. *)
Lemma gitkeep_is_not_a_mapping_file userId userId' :
  collapse (getShardDir config baseDir userId ++ js "/.gitkeep")
  <> collapse (getFullPath config baseDir userId').
Proof.
  intros H. apply (f_equal (fun p => last (segments p))) in H.
  rewrite gitkeep_fileName, getFullPath_fileName in H.
  apply (f_equal (default [])) in H. cbn [default from_option id] in H.
  apply (f_equal (@rev N)) in H.
  rewrite rev_app_distr in H. cbn in H. discriminate.
Qed.

(** No hash spells [index]: the index file is never a mapping file. *)
Lemma fullPath_is_not_index userId :
  collapse (getFullPath config baseDir userId) <> collapse (baseDir ++ js "/index.json").
Proof.
  intros H. apply (f_equal (fun p => last (segments p))) in H.
  rewrite getFullPath_fileName, indexPath_fileName in H.
  apply (f_equal (default [])) in H. cbn [default from_option id] in H.
  change (js "index.json") with (js "index" ++ js ".json") in H.
  apply app_inv_tail in H.
  pose proof (hash_hexChar userId) as Hhex. rewrite H in Hhex.
  inversion Hhex as [|c l Hc _]; subst. unfold hexChar in Hc. lia.
Qed.

Lemma gitkeep_is_not_index userId :
  collapse (getShardDir config baseDir userId ++ js "/.gitkeep")
  <> collapse (baseDir ++ js "/index.json").
Proof.
  intros H. apply (f_equal (fun p => last (segments p))) in H.
  rewrite gitkeep_fileName, indexPath_fileName in H.
  apply (f_equal (default [])) in H. cbn [default from_option id] in H. discriminate.
Qed.

(** Two shard files are one file exactly when their hashes agree. *)
Lemma fullPath_same_file userId userId' :
  collapse (getFullPath config baseDir userId) = collapse (getFullPath config baseDir userId')
  -> hash config userId = hash config userId'.
Proof.
  intros H. apply (f_equal (fun p => last (segments p))) in H.
  rewrite !getFullPath_fileName in H.
  apply (f_equal (default [])) in H. cbn [default from_option id] in H. now apply app_inv_tail in H.
Qed.

Lemma bunWrite_ok fs path c fs' :
  bunWrite fs path c = Ok fs' ->
  fs' = <[collapse path := File c]> fs /\ fileAt fs path <> Some Denied.
Proof.
  unfold bunWrite. destruct (fileAt fs path) as [[?|]|] eqn:E; intros H;
    inversion H; subst; split; congruence.
Qed.

Lemma fileAt_written fs path e : fileAt (<[collapse path := e]> fs) path = Some e.
Proof. apply lookup_insert_eq. Qed.

(** What a successful [writeMapping] leaves behind. *)
Lemma writeMapping_ok fs userId mapping fs' :
  writeMapping config baseDir fs userId mapping = (Ok tt, fs') ->
  fs' = <[collapse (getFullPath config baseDir userId)
            := File (Json (JMapping (jsonMapping mapping)))]>
          (<[collapse (getShardDir config baseDir userId ++ js "/.gitkeep")
               := File (NotJson [])]> fs).
Proof.
  unfold writeMapping.
  destruct (bunWrite fs _ _) as [fs1|] eqn:E1; [|discriminate].
  destruct (bunWrite fs1 _ _) as [fs2|] eqn:E2; [|discriminate].
  intros H. inversion H; subst.
  apply bunWrite_ok in E1 as [-> _]. apply bunWrite_ok in E2 as [-> _]. reflexivity.
Qed.

Lemma writeMapping_lookup fs userId mapping fs' :
  writeMapping config baseDir fs userId mapping = (Ok tt, fs') ->
  fileAt fs' (getFullPath config baseDir userId)
  = Some (File (Json (JMapping (jsonMapping mapping)))).
Proof. intros H. rewrite (writeMapping_ok _ _ _ _ H). apply fileAt_written. Qed.

(** [readMapping], case by case on the shard file. *)
Lemma readMapping_cases fs userId :
  readMapping config baseDir fs userId
  = Ok match fileAt fs (getFullPath config baseDir userId) with
       | Some (File (Json data)) => Some data
       | _ => None
       end.
Proof.
  unfold readMapping, fileExists, fileJson, catch.
  destruct (fileAt fs (getFullPath config baseDir userId)) as [[[d|t]|]|]; reflexivity.
Qed.

Lemma jsonKeeps_fixed v : jsonKeeps v = true -> jsonNumval v = v.
Proof.
  destruct v as [f|]; [|reflexivity]. cbn. unfold jsonNumber.
  destruct (PrimFloat.classify f); intros H; try discriminate; reflexivity.
Qed.

Lemma jsonKeepsField_fixed v : jsonKeepsField v = true -> jsonNumval <$> v = v.
Proof.
  destruct v as [x|]; [|reflexivity]. cbn. intros H. now rewrite jsonKeeps_fixed.
Qed.

(** JSON returns a mapping unchanged when it keeps all its numbers. *)
Lemma jsonMapping_fixed m : jsonKeepsMapping m = true -> jsonMapping m = m.
Proof.
  destruct m as [a b c d e f g h i md]. unfold jsonKeepsMapping, jsonMapping. cbn.
  destruct md as [md|]; [|reflexivity]. cbn.
  destruct md as [f1 f2 f3 f4 f5 f6 f7 f8]. unfold jsonKeepsMetadata, jsonMetadata. cbn.
  intros H. repeat (apply andb_prop in H as [H ?]).
  rewrite !jsonKeepsField_fixed by assumption. reflexivity.
Qed.

End StorageFacts.

(** C5, as amended.  [readMapping] never raises: it returns the parsed
    document when the shard file exists and parses, and [null] in every
    other case, whether the file is missing, unparsable, or unreadable. *)
Theorem readMapping_never_raises (config : ShardConfig) (baseDir : jsstring)
    (fs : disk) (userId : jsstring) :
  readMapping config baseDir fs userId
  = Ok match fileAt fs (getFullPath config baseDir userId) with
       | Some (File (Json data)) => Some data
       | Some (File (NotJson _)) => None
       | Some Denied => None
       | None => None
       end.
Proof.
  rewrite readMapping_cases.
  destruct (fileAt fs (getFullPath config baseDir userId)) as [[[d|t]|]|]; reflexivity.
Qed.

(** C5, as stated, fails on a shard file that exists and cannot be read:
    reading it raises an I/O error, and [readMapping] returns [null]
    instead of letting that error reach its caller. *)
Lemma readMapping_swallows_io_failure :
  fileExists SampleStore.deniedStore
    (getFullPath DEFAULT_SHARD_CONFIG SampleStore.baseDir (js "123456")) = true /\
  fileJson SampleStore.deniedStore
    (getFullPath DEFAULT_SHARD_CONFIG SampleStore.baseDir (js "123456"))
  = Raise (js "EACCES: permission denied") /\
  readMapping DEFAULT_SHARD_CONFIG SampleStore.baseDir SampleStore.deniedStore (js "123456")
  = Ok None.
Proof. repeat split; vm_compute; reflexivity. Qed.

(** C6, as amended.  For a mapping whose numbers JSON keeps, a successful
    write followed by a read returns that mapping, whatever the store
    held before; after two successful writes to one identifier the read
    returns the second mapping. *)
Theorem write_then_read_returns_mapping (config : ShardConfig) (baseDir : jsstring)
    (fs fs1 fs2 : disk) (userId : jsstring) (m1 m2 : UserMapping) :
  jsonKeepsMapping m1 = true ->
  jsonKeepsMapping m2 = true ->
  writeMapping config baseDir fs userId m1 = (Ok tt, fs1) ->
  writeMapping config baseDir fs1 userId m2 = (Ok tt, fs2) ->
  readMapping config baseDir fs1 userId = Ok (Some (JMapping m1)) /\
  readMapping config baseDir fs2 userId = Ok (Some (JMapping m2)).
Proof.
  intros K1 K2 W1 W2.
  rewrite !readMapping_cases.
  rewrite (writeMapping_lookup _ _ _ _ _ _ W1), (writeMapping_lookup _ _ _ _ _ _ W2).
  now rewrite (jsonMapping_fixed _ K1), (jsonMapping_fixed _ K2).
Qed.

(** A run of C6: two writes to "123456" in an empty store. *)
Lemma write_then_read_returns_mapping_witness :
  readMapping DEFAULT_SHARD_CONFIG SampleStore.baseDir
    (writeMapping DEFAULT_SHARD_CONFIG SampleStore.baseDir ∅ (js "123456")
       SampleStore.nullMapping).2 (js "123456")
  = Ok (Some (JMapping SampleStore.nullMapping)) /\
  readMapping DEFAULT_SHARD_CONFIG SampleStore.baseDir
    (writeMapping DEFAULT_SHARD_CONFIG SampleStore.baseDir
       (writeMapping DEFAULT_SHARD_CONFIG SampleStore.baseDir ∅ (js "123456")
          SampleStore.nullMapping).2
       (js "123456") SampleStore.plainMapping).2 (js "123456")
  = Ok (Some (JMapping SampleStore.plainMapping)).
Proof.
  apply (write_then_read_returns_mapping DEFAULT_SHARD_CONFIG SampleStore.baseDir ∅);
    vm_compute; reflexivity.
Defined.

(** C6, as stated, fails on a mapping that records a NaN similarity: the
    file holds [null] in its place, and that is what the read returns. *)
Lemma nan_does_not_survive_json :
  exists fs1,
    writeMapping DEFAULT_SHARD_CONFIG SampleStore.baseDir ∅ (js "123456")
      SampleStore.nanMapping = (Ok tt, fs1) /\
    readMapping DEFAULT_SHARD_CONFIG SampleStore.baseDir fs1 (js "123456")
    = Ok (Some (JMapping SampleStore.nullMapping)) /\
    SampleStore.nullMapping <> SampleStore.nanMapping.
Proof.
  eexists. split; [vm_compute; reflexivity|]. split; [vm_compute; reflexivity|].
  intros H. inversion H.
Qed.

(** C8.  After a mapping was written, [deleteMapping] succeeds, and then
    [hasMapping] still answers [true] (the path remains) while
    [readMapping] answers [null] (the emptied file does not parse). *)
Theorem delete_keeps_path_and_clears_content (config : ShardConfig)
    (baseDir : jsstring) (fs fs1 : disk) (userId : jsstring) (mapping : UserMapping) :
  writeMapping config baseDir fs userId mapping = (Ok tt, fs1) ->
  exists fs2,
    deleteMapping config baseDir fs1 userId = (Ok tt, fs2) /\
    hasMapping config baseDir fs2 userId = true /\
    readMapping config baseDir fs2 userId = Ok None.
Proof.
  intros W. pose proof (writeMapping_lookup _ _ _ _ _ _ W) as Hfile.
  exists (<[collapse (getFullPath config baseDir userId) := File (NotJson [])]> fs1).
  unfold deleteMapping, bunWrite. rewrite Hfile. split; [reflexivity|].
  rewrite readMapping_cases. unfold hasMapping, fileExists.
  rewrite fileAt_written. split; reflexivity.
Qed.

(** A run of C8: write then delete "123456" in an empty store. *)
Lemma delete_keeps_path_and_clears_content_witness :
  exists fs2,
    deleteMapping DEFAULT_SHARD_CONFIG SampleStore.baseDir
      (writeMapping DEFAULT_SHARD_CONFIG SampleStore.baseDir ∅ (js "123456")
         SampleStore.plainMapping).2 (js "123456") = (Ok tt, fs2) /\
    hasMapping DEFAULT_SHARD_CONFIG SampleStore.baseDir fs2 (js "123456") = true /\
    readMapping DEFAULT_SHARD_CONFIG SampleStore.baseDir fs2 (js "123456") = Ok None.
Proof.
  apply (delete_keeps_path_and_clears_content DEFAULT_SHARD_CONFIG SampleStore.baseDir ∅
           _ (js "123456") SampleStore.plainMapping).
  vm_compute. reflexivity.
Defined.
(** * Properties of the index *)

(** ** Paths as the scan reports them *)

Lemma collapse_cons (c d : N) (p : jsstring) :
  collapse (c :: d :: p)
  = if N.eqb c 47 && N.eqb d 47 then collapse (d :: p) else c :: collapse (d :: p).
Proof. reflexivity. Qed.

Lemma collapse_head (c : N) (p : jsstring) :
  c <> 47%N -> collapse (c :: p) = c :: collapse p.
Proof.
  intros Hc. destruct p as [|d p]; [reflexivity|].
  rewrite collapse_cons. now destruct (N.eqb_spec c 47).
Qed.

Lemma relativePath_slash (p : jsstring) : relativePath (47%N :: p) = relativePath p.
Proof.
  unfold relativePath. destruct p as [|d p]; [reflexivity|].
  rewrite collapse_cons.
  destruct (N.eqb_spec d 47) as [->|Hd]; [reflexivity|].
  rewrite andb_false_r, (collapse_head d) by assumption.
  change (N.eqb 47 47) with true. cbn iota.
  now destruct (N.eqb_spec d 47).
Qed.

(** A path under a directory: the directory, collapsed, and the path as
    the scan reports it. *)
Lemma collapse_under (a p : jsstring) :
  collapse (a ++ 47%N :: p) = collapse (a ++ [47%N]) ++ relativePath p.
Proof.
  induction p as [|c p IH].
  - unfold relativePath. cbn. now rewrite app_nil_r.
  - destruct (N.eqb_spec c 47) as [->|Hc].
    + now rewrite collapse_slash_slash, relativePath_slash.
    + change (a ++ 47%N :: c :: p) with (a ++ [47%N] ++ c :: p).
      rewrite app_assoc, collapse_app by (cbn; congruence).
      unfold relativePath. rewrite collapse_head by assumption.
      now destruct (N.eqb_spec c 47).
Qed.

Lemma relativePath_slashfree (s : jsstring) :
  Forall (fun c => c <> 47%N) s -> relativePath s = s.
Proof.
  intros Hs. unfold relativePath. rewrite collapse_slashfree by assumption.
  destruct Hs as [|c s Hc Hs]; [reflexivity|]. now destruct (N.eqb_spec c 47).
Qed.

(** A directory name in front: it and its slash are kept, unless the name
    is empty. *)
Lemma relativePath_dir (s p : jsstring) :
  Forall (fun c => c <> 47%N) s ->
  relativePath (s ++ 47%N :: p)
  = match s with
    | [] => relativePath p
    | _ :: _ => s ++ 47%N :: relativePath p
    end.
Proof.
  intros Hs. destruct Hs as [|c s Hc Hs]; [apply relativePath_slash|].
  unfold relativePath at 1. rewrite collapse_under.
  assert (collapse ((c :: s) ++ [47%N]) = (c :: s) ++ [47%N]) as ->.
  { clear p. cbn [app]. revert c Hc. induction Hs as [|d s Hd Hs IH]; intros c Hc.
    - cbn. destruct (N.eqb_spec c 47); [contradiction | reflexivity].
    - rewrite collapse_head by assumption. f_equal. now apply IH. }
  cbn [app]. destruct (N.eqb_spec c 47); [contradiction|].
  now rewrite <- app_assoc.
Qed.

(** A path without an empty segment after its first one has no two
    slashes in a row. *)
Lemma collapse_segments (path : jsstring) :
  forallb visible (tail (segments path)) = true -> collapse path = path.
Proof.
  induction path as [|c path IH]; [reflexivity|].
  destruct path as [|d path]; [reflexivity|].
  change (collapse (c :: d :: path))
    with (if N.eqb c 47 && N.eqb d 47 then collapse (d :: path)
          else c :: collapse (d :: path)).
  intros Hsegs. revert Hsegs IH. cbn [segments].
  pose proof (segments_not_nil path) as Hne.
  destruct (N.eqb_spec c 47) as [->|Hc]; destruct (N.eqb_spec d 47) as [->|Hd];
    cbn [tail forallb visible andb]; try discriminate.
  - destruct (segments path) as [|seg segs]; [contradiction|]. cbn [tail forallb visible].
    intros Hsegs IH. f_equal. apply IH. now apply andb_prop in Hsegs as [_ ?].
  - intros Hsegs IH. f_equal. now apply IH.
  - destruct (segments path) as [|seg segs]; [contradiction|]. cbn [tail].
    intros Hsegs IH. f_equal. now apply IH.
Qed.

(** A path the glob matches is reported as it is. *)
Lemma relativePath_matched (relative : jsstring) :
  globMatches relative = true -> relativePath relative = relative.
Proof.
  unfold globMatches. intros H. apply andb_prop in H as [_ H].
  unfold relativePath. rewrite collapse_segments.
  - destruct relative as [|c relative]; [reflexivity|].
    destruct (N.eqb_spec c 47) as [->|_]; [|reflexivity]. cbn in H. discriminate.
  - pose proof (segments_not_nil relative) as Hne.
    destruct (segments relative); [contradiction|]. cbn [tail].
    now apply andb_prop in H as [_ ?].
Qed.

Lemma scanned_file (baseDir relative : jsstring) :
  globMatches relative = true ->
  collapse (baseDir ++ js "/" ++ relative) = collapse (baseDir ++ js "/") ++ relative.
Proof.
  intros H. change (baseDir ++ js "/" ++ relative) with (baseDir ++ 47%N :: relative).
  now rewrite collapse_under, relativePath_matched.
Qed.

Section IndexFacts.

Variable config : ShardConfig.
Variable baseDir : jsstring.

Lemma hash_length userId :
  wellFormed config -> length (hash config userId) = Z.to_nat (hashLength config).
Proof.
  intros (H1 & H2 & H3 & H4). unfold hash.
  rewrite substring_length; rewrite ?sha256hex_length; [f_equal|..]; lia.
Qed.

Lemma hash_not_nil userId : 0 < hashLength config -> hash config userId <> [].
Proof.
  intros Hpos E. apply (f_equal length) in E. revert E.
  unfold hash, substring. rewrite length_take, length_drop, sha256hex_length.
  cbn [length]. lia.
Qed.

(** A directory level or a hash starts with a hex digit. *)
Lemma hex_head (s : jsstring) :
  Forall hexChar s -> s <> [] ->
  exists c rest, s = c :: rest /\ c <> 46%N /\ c <> 47%N.
Proof.
  intros H Hne. destruct s as [|c rest]; [contradiction|].
  exists c, rest. split; [reflexivity|]. inversion H; subst. unfold hexChar in *. lia.
Qed.

(** The shard path as the scan reports it: the directory names that are
    not empty, then the file name. *)
Lemma relativePath_shardPath_cases userId :
  relativePath (getShardPath config userId)
  = match substring (hash config userId) 0 (level1Length config) with
    | [] => []
    | c :: l => (c :: l) ++ js "/"
    end
    ++ match substring (hash config userId) (level1Length config)
               (level1Length config + level2Length config) with
       | [] => []
       | c :: l => (c :: l) ++ js "/"
       end
    ++ hash config userId ++ js ".json".
Proof.
  unfold getShardPath. cbv zeta.
  pose proof (hash_hexChar config userId) as Hhex.
  set (h := hash config userId) in *.
  set (l1 := substring h 0 (level1Length config)).
  set (l2 := substring h (level1Length config) (level1Length config + level2Length config)).
  assert (Forall (fun c => c <> 47%N) l1) as Hl1
    by now apply hexChar_no_slash, substring_Forall.
  assert (Forall (fun c => c <> 47%N) l2) as Hl2
    by now apply hexChar_no_slash, substring_Forall.
  change (js "/") with [47%N]. cbn [app].
  rewrite (relativePath_dir l1) by assumption.
  rewrite (relativePath_dir l2) by assumption.
  rewrite (relativePath_slashfree (h ++ js ".json")) by apply fileName_slashfree.
  destruct l1, l2; cbn [app]; rewrite <- ?app_assoc; reflexivity.
Qed.

(** With the two directory levels non-empty, the scan reports the shard
    path itself. *)
Lemma relativePath_shardPath userId :
  wellFormed config ->
  relativePath (getShardPath config userId) = getShardPath config userId.
Proof.
  intros Hwf. pose proof Hwf as (H1 & H2 & H3 & H4).
  pose proof (hash_length userId Hwf) as Hlen.
  rewrite relativePath_shardPath_cases. unfold getShardPath. cbv zeta.
  set (h := hash config userId) in *.
  set (l1 := substring h 0 (level1Length config)).
  set (l2 := substring h (level1Length config) (level1Length config + level2Length config)).
  assert (length l1 = Z.to_nat (level1Length config)) as Len1.
  { unfold l1. rewrite substring_length; [f_equal|..]; lia. }
  assert (length l2 = Z.to_nat (level2Length config)) as Len2.
  { unfold l2. rewrite substring_length; [f_equal|..]; lia. }
  destruct l1; [cbn in Len1; lia|]. destruct l2; [cbn in Len2; lia|].
  now rewrite <- !app_assoc.
Qed.

(** The glob of [buildIndex] matches every shard file whose hash is not
    empty. *)
Lemma globMatches_shardFile userId :
  0 < hashLength config -> globMatches (relativePath (getShardPath config userId)) = true.
Proof.
  intros Hpos. rewrite relativePath_shardPath_cases.
  pose proof (hash_hexChar config userId) as Hhex.
  pose proof (hash_not_nil userId Hpos) as Hne.
  set (h := hash config userId) in *.
  set (l1 := substring h 0 (level1Length config)).
  set (l2 := substring h (level1Length config) (level1Length config + level2Length config)).
  assert (Forall hexChar l1) as Hl1 by now apply substring_Forall.
  assert (Forall hexChar l2) as Hl2 by now apply substring_Forall.
  destruct (hex_head h Hhex Hne) as (c3 & r3 & E3 & D3 & S3).
  assert (Forall (fun c => c <> 47%N) (h ++ js ".json")) as Hfile
    by apply fileName_slashfree.
  unfold globMatches. apply andb_true_intro. split.
  - rewrite !app_assoc. apply endsWith_app.
  - assert (forallb visible (segments (h ++ js ".json")) = true) as Hseg3.
    { rewrite segments_one by assumption. rewrite E3. cbn.
      now destruct (N.eqb_spec c3 46). }
    assert (forall l rest, Forall hexChar l ->
              forallb visible (segments rest) = true ->
              forallb visible
                (segments (match l with [] => [] | c :: l' => (c :: l') ++ js "/" end
                           ++ rest)) = true) as Hdir.
    { intros l rest Hl Hrest. destruct l as [|c l]; [exact Hrest|].
      change (js "/") with [47%N]. rewrite <- app_assoc. cbn [app].
      change (c :: l ++ 47%N :: rest) with ((c :: l) ++ 47%N :: rest).
      rewrite segments_slash by now apply hexChar_no_slash.
      cbn [forallb visible]. rewrite Hrest.
      inversion Hl; subst. unfold hexChar in *.
      destruct (N.eqb_spec c 46); [lia | reflexivity]. }
    apply Hdir; [assumption|]. apply Hdir; assumption.
Qed.

(** The file of an identifier, under its collapsed path. *)
Lemma fullPath_collapse userId :
  collapse (getFullPath config baseDir userId)
  = collapse (baseDir ++ js "/") ++ relativePath (getShardPath config userId).
Proof. unfold getFullPath. apply collapse_under. Qed.

Lemma shardFile_is_not_index userId :
  relativePath (getShardPath config userId) <> js "index.json".
Proof.
  intros H. apply (fullPath_is_not_index config [] userId).
  unfold getFullPath.
  change ([] ++ js "/" ++ getShardPath config userId)
    with ([] ++ 47%N :: getShardPath config userId).
  change ([] ++ js "/index.json") with ([] ++ 47%N :: js "index.json").
  rewrite (collapse_under [] (getShardPath config userId)), H.
  rewrite (collapse_under [] (js "index.json")). reflexivity.
Qed.

(** The shard path is a function of the truncated hash, and the truncated
    hash can be read back from the shard path. *)
Lemma shardPath_eq_iff_hash (a b : jsstring) :
  getShardPath config a = getShardPath config b <-> hash config a = hash config b.
Proof.
  unfold getShardPath. cbv zeta. split; [|intros ->; reflexivity].
  assert (forall s t : jsstring, forall x y : Z,
            length s = length t -> length (substring s x y) = length (substring t x y))
    as Hsub.
  { intros s t x y H. unfold substring. cbv zeta.
    rewrite !length_take, !length_drop, H. reflexivity. }
  assert (length (hash config a) = length (hash config b)) as Hlen.
  { apply Hsub. now rewrite !sha256hex_length. }
  intros H.
  apply app_inj_1 in H as [_ H]; [|now apply Hsub].
  apply app_inv_head in H.
  apply app_inj_1 in H as [_ H]; [|now apply Hsub].
  apply app_inv_head in H.
  now apply app_inj_1 in H as [H _].
Qed.

(** Two identifiers with different shard paths have different files. *)
Lemma fullPath_other_file userId userId' :
  getShardPath config userId <> getShardPath config userId' ->
  collapse (getFullPath config baseDir userId) <> collapse (getFullPath config baseDir userId').
Proof.
  intros Hne E. apply Hne, shardPath_eq_iff_hash. now apply fullPath_same_file in E.
Qed.

Lemma fullPath_inj userId userId' :
  getFullPath config baseDir userId = getFullPath config baseDir userId' ->
  getShardPath config userId = getShardPath config userId'.
Proof. unfold getFullPath. intros H. now apply app_inv_head, app_inv_head in H. Qed.

(** ** The scan *)

Lemma elem_of_scan (fs : disk) (relative : jsstring) :
  relative ∈ scan baseDir fs <->
  is_Some (fileAt fs (baseDir ++ js "/" ++ relative)) /\ globMatches relative = true.
Proof.
  unfold scan, fileAt. rewrite list_elem_of_omap. split.
  - intros ([path e] & Hin & Hf). cbn [fst] in Hf.
    apply elem_of_map_to_list in Hin.
    destruct (stripPrefix (collapse (baseDir ++ js "/")) path) as [rel|] eqn:Erel;
      [|discriminate].
    destruct (globMatches rel) eqn:Eglob; [|discriminate].
    injection Hf as ->. apply stripPrefix_Some in Erel. subst path.
    rewrite scanned_file by assumption. eauto.
  - intros [[e He] Hglob]. rewrite scanned_file in He by assumption.
    exists (collapse (baseDir ++ js "/") ++ relative, e). split.
    + now apply elem_of_map_to_list.
    + cbn [fst]. now rewrite stripPrefix_app, Hglob.
Qed.

(** ** The index, key by key *)

(** Two assignments in a row, key by key. *)
Lemma assignProperty_twice (index : MappingIndex) (k1 k2 path k : jsstring) :
  assignProperty (assignProperty index k1 path) k2 path !! k
  = if decide (k ∈ filter (fun x => x <> js "__proto__") [k1; k2]) then Some path
    else index !! k.
Proof.
  unfold assignProperty.
  destruct (decide (k ∈ filter (fun x => x <> js "__proto__") [k1; k2])) as [Hin|Hout].
  - apply list_elem_of_filter in Hin as [Hk Hin].
    destruct (decide (k2 = k)) as [->|Hne].
    + rewrite decide_False by assumption. apply lookup_insert_eq.
    + assert (k1 = k) as -> by set_solver.
      rewrite (decide_False (P := k = js "__proto__")) by assumption.
      case_decide; [|rewrite lookup_insert_ne by assumption]; apply lookup_insert_eq.
  - assert (forall key, key ∈ [k1; k2] -> key <> js "__proto__" -> key <> k) as Hother.
    { intros key Hkey Hproto ->. apply Hout. now apply list_elem_of_filter. }
    repeat case_decide; rewrite ?lookup_insert_ne; try reflexivity;
      apply Hother; set_solver.
Qed.

Lemma indexFile_lookup (fs : disk) (index : MappingIndex) (filePath k : jsstring) :
  indexFile baseDir fs index filePath !! k
  = if decide (k ∈ fileKeys baseDir fs filePath) then Some filePath else index !! k.
Proof.
  unfold indexFile, fileKeys.
  destruct (decide (filePath = js "index.json")).
  { destruct (decide (k ∈ [])) as [Hin|]; [set_solver|reflexivity]. }
  destruct (fileJson fs (baseDir ++ js "/" ++ filePath)) as [[m|o]|e]; cbn [documentKeys].
  - apply assignProperty_twice.
  - apply assignProperty_twice.
  - destruct (decide (k ∈ [])) as [Hin|]; [set_solver|reflexivity].
Qed.

(** Every entry of the index names a scanned file that holds its key. *)
Lemma fold_indexFile_sound (fs : disk) (files : list jsstring) (index : MappingIndex)
    (k path : jsstring) :
  fold_left (indexFile baseDir fs) files index !! k = Some path ->
  index !! k = Some path \/ (path ∈ files /\ k ∈ fileKeys baseDir fs path).
Proof.
  revert index. induction files as [|f files IH]; intros index; cbn.
  - auto.
  - intros H. apply IH in H as [H | [Hin Hk]].
    + rewrite indexFile_lookup in H. case_decide.
      * injection H as <-. right. split; [set_solver | assumption].
      * auto.
    + right. split; [set_solver | assumption].
Qed.

(** A key held by one scanned file only is mapped to that file. *)
Lemma fold_indexFile_unique (fs : disk) (files : list jsstring) (index : MappingIndex)
    (k path : jsstring) :
  (forall path', path' ∈ files -> k ∈ fileKeys baseDir fs path' -> path' = path) ->
  index !! k = Some path \/ (path ∈ files /\ k ∈ fileKeys baseDir fs path) ->
  fold_left (indexFile baseDir fs) files index !! k = Some path.
Proof.
  revert index. induction files as [|f files IH]; intros index Huniq Hsrc; cbn.
  - destruct Hsrc as [H | [H _]]; [assumption | set_solver].
  - apply IH; [intros; apply Huniq; set_solver|].
    rewrite indexFile_lookup. case_decide as Hf.
    + left. f_equal. apply Huniq; [set_solver | assumption].
    + destruct Hsrc as [H | [Hin Hk]]; [now left|].
      right. split; [|assumption].
      apply elem_of_cons in Hin as [->|Hin]; [contradiction | assumption].
Qed.

(** A key held by some scanned file is in the index. *)
Lemma fold_indexFile_complete (fs : disk) (files : list jsstring) (index : MappingIndex)
    (k path : jsstring) :
  path ∈ files -> k ∈ fileKeys baseDir fs path ->
  is_Some (fold_left (indexFile baseDir fs) files index !! k).
Proof.
  revert index. induction files as [|f files IH]; intros index Hin Hk; cbn.
  - set_solver.
  - apply elem_of_cons in Hin as [->|Hin]; [|now apply IH].
    clear IH. assert (is_Some (indexFile baseDir fs index f !! k)) as Hsome.
    { rewrite indexFile_lookup. case_decide; [eauto | contradiction]. }
    revert Hsome. generalize (indexFile baseDir fs index f). clear Hk.
    induction files as [|g files IH]; intros acc Hacc; cbn; [assumption|].
    apply IH. rewrite indexFile_lookup. case_decide; [eauto | assumption].
Qed.

End IndexFacts.

Section WriteAllFacts.

Variable config : ShardConfig.
Variable baseDir : jsstring.

Lemma writeAll_cons fs0 userId mapping rest fs :
  writeAll config baseDir fs0 ((userId, mapping) :: rest) = (Ok tt, fs) ->
  exists fs1,
    writeMapping config baseDir fs0 userId mapping = (Ok tt, fs1) /\
    writeAll config baseDir fs1 rest = (Ok tt, fs).
Proof.
  cbn. destruct (writeMapping config baseDir fs0 userId mapping) as [[[]|e] fs1];
    [eauto | discriminate].
Qed.

(** Writes touch mapping files and marker files only. *)
Lemma writeAll_elsewhere fs0 writes fs key :
  writeAll config baseDir fs0 writes = (Ok tt, fs) ->
  (forall w, w ∈ writes -> key <> collapse (getFullPath config baseDir w.1)) ->
  (forall w, w ∈ writes ->
     key <> collapse (getShardDir config baseDir w.1 ++ js "/.gitkeep")) ->
  fs !! key = fs0 !! key.
Proof.
  revert fs0. induction writes as [|[userId mapping] rest IH]; intros fs0 Hall Hfile Hkeep.
  - cbn in Hall. now injection Hall as ->.
  - apply writeAll_cons in Hall as (fs1 & Hw & Hrest).
    rewrite (IH fs1 Hrest);
      [ | intros; apply Hfile; set_solver | intros; apply Hkeep; set_solver ].
    rewrite (writeMapping_ok _ _ _ _ _ _ Hw).
    rewrite !lookup_insert_ne; [reflexivity|..].
    + intros E. apply (Hkeep (userId, mapping)); [set_solver | now symmetry].
    + intros E. apply (Hfile (userId, mapping)); [set_solver | now symmetry].
Qed.

(** With pairwise distinct shard paths every mapping written is in its
    file at the end. *)
Lemma writeAll_written fs0 writes fs userId mapping :
  writeAll config baseDir fs0 writes = (Ok tt, fs) ->
  NoDup (map (fun w => getShardPath config w.1) writes) ->
  (userId, mapping) ∈ writes ->
  fileAt fs (getFullPath config baseDir userId)
  = Some (File (Json (JMapping (jsonMapping mapping)))).
Proof.
  revert fs0. induction writes as [|[userId0 mapping0] rest IH]; intros fs0 Hall Hnd Hin.
  - set_solver.
  - apply writeAll_cons in Hall as (fs1 & Hw & Hrest).
    cbn [map fst] in Hnd. apply NoDup_cons in Hnd as [Hfresh Hnd].
    apply elem_of_cons in Hin as [Heq | Hin]; [|now apply (IH fs1)].
    injection Heq as -> ->. unfold fileAt.
    rewrite (writeAll_elsewhere fs1 rest fs _ Hrest).
    + now apply writeMapping_lookup with (fs := fs0).
    + intros w Hw' E. apply Hfresh.
      apply fullPath_same_file, shardPath_eq_iff_hash in E. rewrite E.
      apply list_elem_of_fmap. now exists w.
    + intros w _ E. symmetry in E. revert E. apply gitkeep_is_not_a_mapping_file.
Qed.

(** Where a file of the final store comes from. *)
Lemma writeAll_origin fs0 writes fs key e :
  writeAll config baseDir fs0 writes = (Ok tt, fs) ->
  fs !! key = Some e ->
  fs0 !! key = Some e \/
  (exists userId mapping,
      (userId, mapping) ∈ writes /\ key = collapse (getFullPath config baseDir userId) /\
      e = File (Json (JMapping (jsonMapping mapping)))) \/
  e = File (NotJson []).
Proof.
  revert fs0. induction writes as [|[userId mapping] rest IH]; intros fs0 Hall Hlook.
  - cbn in Hall. injection Hall as ->. now left.
  - apply writeAll_cons in Hall as (fs1 & Hw & Hrest).
    destruct (IH fs1 Hrest Hlook) as [H1 | [(u & m & Hin & -> & ->) | ->]].
    + rewrite (writeMapping_ok _ _ _ _ _ _ Hw) in H1.
      destruct (decide (collapse (getFullPath config baseDir userId) = key)) as [<-|Hne].
      { rewrite lookup_insert_eq in H1. injection H1 as <-.
        right; left. exists userId, mapping. set_solver. }
      rewrite lookup_insert_ne in H1 by assumption.
      destruct (decide (collapse (getShardDir config baseDir userId ++ js "/.gitkeep") = key))
        as [<-|Hne'].
      { rewrite lookup_insert_eq in H1. injection H1 as <-. now right; right. }
      rewrite lookup_insert_ne in H1 by assumption. now left.
    + right; left. exists u, m. set_solver.
    + now right; right.
Qed.

End WriteAllFacts.

Lemma elem_of_identifiers (writes : list (jsstring * UserMapping)) (k : jsstring) :
  k ∈ identifiers writes <->
  exists w, w ∈ writes /\ (k = bilibiliUid w.2 \/ k = youtubeChannelId w.2).
Proof.
  unfold identifiers. induction writes as [|a rest IH]; cbn.
  - split; [set_solver | intros (w & Hw & _); set_solver].
  - rewrite !elem_of_cons, IH. split.
    + intros [-> | [-> | (w & Hw & Hk)]].
      * exists a. split; [set_solver | now left].
      * exists a. split; [set_solver | now right].
      * exists w. split; [set_solver | assumption].
    + intros (w & Hw & Hk). apply elem_of_cons in Hw as [-> | Hw].
      * destruct Hk as [-> | ->]; auto.
      * right; right. now exists w.
Qed.

Lemma identifiers_length (writes : list (jsstring * UserMapping)) :
  length (identifiers writes) = (2 * length writes)%nat.
Proof. unfold identifiers. induction writes as [|a rest IH]; cbn; lia. Qed.

(** With pairwise distinct identifiers, an identifier belongs to one write
    only. *)
Lemma identifiers_owner (writes : list (jsstring * UserMapping))
    (w w' : jsstring * UserMapping) (k : jsstring) :
  NoDup (identifiers writes) ->
  w ∈ writes -> w' ∈ writes ->
  k = bilibiliUid w.2 \/ k = youtubeChannelId w.2 ->
  k = bilibiliUid w'.2 \/ k = youtubeChannelId w'.2 ->
  w = w'.
Proof.
  induction writes as [|a rest IH]; intros Hnd Hw Hw' Hk Hk'; [set_solver|].
  change (identifiers (a :: rest))
    with ([bilibiliUid a.2; youtubeChannelId a.2] ++ identifiers rest) in Hnd.
  apply NoDup_app in Hnd as (_ & Hdisj & Hnd).
  assert (forall v, v ∈ rest ->
            k = bilibiliUid v.2 \/ k = youtubeChannelId v.2 ->
            k = bilibiliUid a.2 \/ k = youtubeChannelId a.2 -> False) as Hclash.
  { intros v Hv Hkv Hka. apply (Hdisj k); [set_solver|].
    apply elem_of_identifiers. now exists v. }
  apply elem_of_cons in Hw as [-> | Hw]; apply elem_of_cons in Hw' as [-> | Hw'].
  - reflexivity.
  - exfalso. eapply Hclash; eauto.
  - exfalso. eapply Hclash; eauto.
  - now apply IH.
Qed.

Section BuildIndexFacts.

Variable config : ShardConfig.
Variable baseDir : jsstring.

(** The scan reports the file of an identifier under the shard path
    without its empty directory names. *)
Lemma shardFile_scanned userId :
  0 < hashLength config ->
  collapse (baseDir ++ js "/" ++ relativePath (getShardPath config userId))
  = collapse (getFullPath config baseDir userId).
Proof.
  intros Hpos. rewrite scanned_file by now apply globMatches_shardFile.
  now rewrite fullPath_collapse.
Qed.

(** The keys of a file of the final store that was written by
    [writeAll]. *)
Lemma fileKeys_written fs userId mapping :
  0 < hashLength config ->
  fileAt fs (getFullPath config baseDir userId)
  = Some (File (Json (JMapping (jsonMapping mapping)))) ->
  fileKeys baseDir fs (relativePath (getShardPath config userId))
  = filter (fun k => k <> js "__proto__") [bilibiliUid mapping; youtubeChannelId mapping].
Proof.
  intros Hpos Hfile. unfold fileKeys. case_decide as Hidx.
  - now apply shardFile_is_not_index in Hidx.
  - unfold fileJson, fileAt in *. rewrite shardFile_scanned by assumption.
    now rewrite Hfile.
Qed.

(** The keys of a file depend on its content only. *)
Lemma fileKeys_same_entry fs fs' path :
  fileAt fs (baseDir ++ js "/" ++ path) = fileAt fs' (baseDir ++ js "/" ++ path) ->
  fileKeys baseDir fs path = fileKeys baseDir fs' path.
Proof. intros H. unfold fileKeys, fileJson. now rewrite H. Qed.

Lemma fileKeys_not_index fs path k :
  k ∈ fileKeys baseDir fs path -> path <> js "index.json".
Proof. unfold fileKeys. case_decide; [set_solver | auto]. Qed.

Lemma fileKeys_not_proto fs path k :
  k ∈ fileKeys baseDir fs path -> k <> js "__proto__".
Proof.
  unfold fileKeys. case_decide; [set_solver|].
  destruct (fileJson fs _); [|set_solver].
  intros Hk. now apply list_elem_of_filter in Hk as [? _].
Qed.

(** One identifier of one write, in the index built at the end. *)
Lemma buildIndex_written fs0 fs writes userId mapping k :
  0 < hashLength config ->
  NoDup (identifiers writes) ->
  NoDup (map (fun w => getShardPath config w.1) writes) ->
  (forall k, k ∈ identifiers writes -> buildIndex baseDir fs0 !! k = None) ->
  writeAll config baseDir fs0 writes = (Ok tt, fs) ->
  (userId, mapping) ∈ writes ->
  k = bilibiliUid mapping \/ k = youtubeChannelId mapping ->
  k <> js "__proto__" ->
  buildIndex baseDir fs !! k = Some (relativePath (getShardPath config userId)).
Proof.
  intros Hpos Hids Hpaths Hfresh Hall Hin Hk Hproto.
  pose proof (writeAll_written _ _ _ _ _ _ _ Hall Hpaths Hin) as Hfile.
  unfold buildIndex. apply fold_indexFile_unique.
  - intros path' Hscan Hkeys.
    apply elem_of_scan in Hscan as [[e He] Hglob].
    destruct (writeAll_origin _ _ _ _ _ _ _ Hall He) as [Hold | [Hnew | ->]].
    + (* a file that was there before: its keys were in the old index *)
      exfalso.
      assert (is_Some (buildIndex baseDir fs0 !! k)) as [p Hp].
      { unfold buildIndex. apply fold_indexFile_complete with (path := path').
        - apply elem_of_scan. split; [unfold fileAt; rewrite Hold; eauto | assumption].
        - rewrite (fileKeys_same_entry fs0 fs) by (unfold fileAt in *; congruence).
          assumption. }
      rewrite Hfresh in Hp; [discriminate|].
      apply elem_of_identifiers. exists (userId, mapping). split; assumption.
    + (* a file written by another write: the identifier would be shared *)
      destruct Hnew as (userId' & mapping' & Hin' & Hpath & ->).
      rewrite scanned_file, fullPath_collapse in Hpath by assumption.
      apply app_inv_head in Hpath. subst path'.
      rewrite (fileKeys_written fs userId' mapping') in Hkeys.
      2: { assumption. }
      2: { unfold fileAt in *. now rewrite <- shardFile_scanned. }
      apply list_elem_of_filter in Hkeys as [_ Hkeys].
      assert ((userId', mapping') = (userId, mapping)) as Heq.
      { apply (identifiers_owner writes _ _ k); cbn; try assumption. set_solver. }
      now injection Heq as -> ->.
    + (* a marker file holds no document *)
      exfalso. unfold fileKeys, fileJson in Hkeys. rewrite He in Hkeys.
      case_decide; set_solver.
  - right. split.
    + apply elem_of_scan. split.
      * unfold fileAt in *. rewrite shardFile_scanned, Hfile by assumption. eauto.
      * now apply globMatches_shardFile.
    + rewrite (fileKeys_written fs userId mapping Hpos Hfile).
      apply list_elem_of_filter. split; [assumption | set_solver].
Qed.

(** One identifier of one write is a key of the index built at the end,
    whatever the store held before. *)
Lemma buildIndex_has_key fs0 fs writes userId mapping k :
  0 < hashLength config ->
  NoDup (map (fun w => getShardPath config w.1) writes) ->
  writeAll config baseDir fs0 writes = (Ok tt, fs) ->
  (userId, mapping) ∈ writes ->
  k = bilibiliUid mapping \/ k = youtubeChannelId mapping ->
  k <> js "__proto__" ->
  is_Some (buildIndex baseDir fs !! k).
Proof.
  intros Hpos Hpaths Hall Hin Hk Hproto.
  pose proof (writeAll_written _ _ _ _ _ _ _ Hall Hpaths Hin) as Hfile.
  unfold buildIndex.
  apply fold_indexFile_complete with (path := relativePath (getShardPath config userId)).
  - apply elem_of_scan. split.
    + unfold fileAt in *. rewrite shardFile_scanned, Hfile by assumption. eauto.
    + now apply globMatches_shardFile.
  - rewrite (fileKeys_written fs userId mapping Hpos Hfile).
    apply list_elem_of_filter. split; [assumption | set_solver].
Qed.

(** Every entry of a built index leads to a file, and none to the index
    file. *)
Lemma buildIndex_entries_exist fs k path :
  buildIndex baseDir fs !! k = Some path ->
  path <> js "index.json" /\ fileExists fs (baseDir ++ js "/" ++ path) = true.
Proof.
  unfold buildIndex. intros H.
  apply fold_indexFile_sound in H as [H | [Hscan Hkeys]].
  - rewrite lookup_empty in H. discriminate.
  - split; [now apply fileKeys_not_index in Hkeys|].
    apply elem_of_scan in Hscan as [[e He] _]. unfold fileExists. now rewrite He.
Qed.

End BuildIndexFacts.

(** C7, as amended.  Let N mappings be written, with pairwise distinct
    source and target identifiers, none of them the string [__proto__],
    and pairwise distinct shard paths, the hash length being at least 1.
    Then [buildIndex] returns an index with at least 2N keys, among them
    the source identifier and the target identifier of every mapping
    written, and the file of each mapping holds it under the path of its
    shard file relative to the base directory, which is the shard path
    itself when the configuration is well formed.  When the index of the
    store knew none of these identifiers before the writes, both
    identifiers of each mapping are mapped to that path.  No entry leads
    to the index file, and every entry leads to a file that exists. *)
Theorem buildIndex_after_writes (config : ShardConfig) (baseDir : jsstring)
    (fs0 fs : disk) (writes : list (jsstring * UserMapping)) :
  0 < hashLength config ->
  js "__proto__" ∉ identifiers writes ->
  NoDup (identifiers writes) ->
  NoDup (map (fun w => getShardPath config w.1) writes) ->
  writeAll config baseDir fs0 writes = (Ok tt, fs) ->
  (2 * length writes <= size (buildIndex baseDir fs))%nat /\
  (forall userId mapping, (userId, mapping) ∈ writes ->
     is_Some (buildIndex baseDir fs !! bilibiliUid mapping) /\
     is_Some (buildIndex baseDir fs !! youtubeChannelId mapping) /\
     fileJson fs (baseDir ++ js "/" ++ relativePath (getShardPath config userId))
     = Ok (JMapping (jsonMapping mapping)) /\
     (wellFormed config ->
      relativePath (getShardPath config userId) = getShardPath config userId)) /\
  ((forall k, k ∈ identifiers writes -> buildIndex baseDir fs0 !! k = None) ->
   forall userId mapping, (userId, mapping) ∈ writes ->
     buildIndex baseDir fs !! bilibiliUid mapping
     = Some (relativePath (getShardPath config userId)) /\
     buildIndex baseDir fs !! youtubeChannelId mapping
     = Some (relativePath (getShardPath config userId))) /\
  (forall k path, buildIndex baseDir fs !! k = Some path ->
     path <> js "index.json" /\ fileExists fs (baseDir ++ js "/" ++ path) = true).
Proof.
  intros Hpos Hproto Hids Hpaths Hall.
  assert (forall userId mapping k, (userId, mapping) ∈ writes ->
            k = bilibiliUid mapping \/ k = youtubeChannelId mapping ->
            k <> js "__proto__") as Hnot.
  { intros userId mapping k Hin Hk ->.
    apply Hproto, elem_of_identifiers. now exists (userId, mapping). }
  assert (forall userId mapping k, (userId, mapping) ∈ writes ->
            k = bilibiliUid mapping \/ k = youtubeChannelId mapping ->
            is_Some (buildIndex baseDir fs !! k)) as Hkey.
  { intros userId mapping k Hin Hk. eapply buildIndex_has_key; eauto. }
  split; [|split; [|split]].
  - rewrite <- identifiers_length, <- (size_list_to_set (C := gset jsstring)) by assumption.
    rewrite <- (size_dom (D := gset jsstring) (buildIndex baseDir fs)).
    apply subseteq_size. intros k Hk.
    apply elem_of_list_to_set, elem_of_identifiers in Hk as ([userId mapping] & Hin & Hk).
    apply elem_of_dom. now apply (Hkey userId mapping).
  - intros userId mapping Hin.
    split; [apply (Hkey userId mapping); auto|].
    split; [apply (Hkey userId mapping); auto|].
    split; [|apply relativePath_shardPath].
    unfold fileJson, fileAt. rewrite shardFile_scanned by assumption.
    pose proof (writeAll_written _ _ _ _ _ _ _ Hall Hpaths Hin) as Hfile.
    unfold fileAt in Hfile. now rewrite Hfile.
  - intros Hfresh userId mapping Hin.
    split; eapply buildIndex_written; eauto.
  - intros k path. apply buildIndex_entries_exist.
Qed.

(** A run of C7: the three mappings of the test suite, written into an
    empty store with the default configuration. *)
Lemma buildIndex_after_writes_witness :
  (2 * length SampleStore.threeWrites
   <= size (buildIndex SampleStore.baseDir
              (writeAll DEFAULT_SHARD_CONFIG SampleStore.baseDir ∅
                 SampleStore.threeWrites).2))%nat /\
  (forall userId mapping, (userId, mapping) ∈ SampleStore.threeWrites ->
     is_Some
       (buildIndex SampleStore.baseDir
          (writeAll DEFAULT_SHARD_CONFIG SampleStore.baseDir ∅ SampleStore.threeWrites).2
          !! bilibiliUid mapping) /\
     is_Some
       (buildIndex SampleStore.baseDir
          (writeAll DEFAULT_SHARD_CONFIG SampleStore.baseDir ∅ SampleStore.threeWrites).2
          !! youtubeChannelId mapping) /\
     fileJson
       (writeAll DEFAULT_SHARD_CONFIG SampleStore.baseDir ∅ SampleStore.threeWrites).2
       (SampleStore.baseDir ++ js "/"
        ++ relativePath (getShardPath DEFAULT_SHARD_CONFIG userId))
     = Ok (JMapping (jsonMapping mapping)) /\
     (wellFormed DEFAULT_SHARD_CONFIG ->
      relativePath (getShardPath DEFAULT_SHARD_CONFIG userId)
      = getShardPath DEFAULT_SHARD_CONFIG userId)) /\
  ((forall k, k ∈ identifiers SampleStore.threeWrites ->
      buildIndex SampleStore.baseDir ∅ !! k = None) ->
   forall userId mapping, (userId, mapping) ∈ SampleStore.threeWrites ->
     buildIndex SampleStore.baseDir
       (writeAll DEFAULT_SHARD_CONFIG SampleStore.baseDir ∅ SampleStore.threeWrites).2
       !! bilibiliUid mapping
     = Some (relativePath (getShardPath DEFAULT_SHARD_CONFIG userId)) /\
     buildIndex SampleStore.baseDir
       (writeAll DEFAULT_SHARD_CONFIG SampleStore.baseDir ∅ SampleStore.threeWrites).2
       !! youtubeChannelId mapping
     = Some (relativePath (getShardPath DEFAULT_SHARD_CONFIG userId))) /\
  (forall k path,
     buildIndex SampleStore.baseDir
       (writeAll DEFAULT_SHARD_CONFIG SampleStore.baseDir ∅ SampleStore.threeWrites).2
       !! k = Some path ->
     path <> js "index.json" /\
     fileExists
       (writeAll DEFAULT_SHARD_CONFIG SampleStore.baseDir ∅ SampleStore.threeWrites).2
       (SampleStore.baseDir ++ js "/" ++ path) = true).
Proof.
  apply (buildIndex_after_writes DEFAULT_SHARD_CONFIG SampleStore.baseDir ∅).
  - reflexivity.
  - apply (bool_decide_unpack _). vm_compute. exact I.
  - apply (bool_decide_unpack _). vm_compute. exact I.
  - apply (bool_decide_unpack _). vm_compute. exact I.
  - vm_compute. reflexivity.
Defined.

(** The two conditions on the identifiers and on the hash length are
    needed: an identifier [__proto__] is not stored as a key, and with a
    hash length of 0 the shard file is the hidden file [.json], which the
    scan does not list; with a second level of length 0 the scan lists the
    file under its one directory. *)
Example buildIndex_edge_cases :
  size (buildIndex SampleStore.baseDir
          (writeAll DEFAULT_SHARD_CONFIG SampleStore.baseDir ∅
             [(js "111", SampleStore.mappingOf "__proto__" "User1" "UC1" noMetadata)]).2)
  = 1%nat /\
  buildIndex SampleStore.baseDir
    (writeAll {| level1Length := 2; level2Length := 2; hashLength := 0 |}
       SampleStore.baseDir ∅
       [(js "111", SampleStore.mappingOf "111" "User1" "UC1" noMetadata)]).2
  = ∅ /\
  buildIndex SampleStore.baseDir
    (writeAll {| level1Length := 2; level2Length := 0; hashLength := 8 |}
       SampleStore.baseDir ∅
       [(js "111", SampleStore.mappingOf "111" "User1" "UC1" noMetadata)]).2
  !! js "111" = Some (js "f6/f6e0a1e2.json").
Proof. repeat split; vm_compute; reflexivity. Qed.

(** C7, as stated, fails on two source identifiers whose truncated hashes
    coincide: the identifiers of the two mappings are pairwise distinct,
    both writes succeed, the second one replaces the file of the first,
    and the index built has two keys, not four. *)
Lemma colliding_hashes_lose_a_mapping :
  NoDup (identifiers SampleStore.collidingWrites) /\
  getShardPath DEFAULT_SHARD_CONFIG (js "69235")
  = getShardPath DEFAULT_SHARD_CONFIG (js "95303") /\
  exists fs,
    writeAll DEFAULT_SHARD_CONFIG SampleStore.baseDir ∅ SampleStore.collidingWrites
    = (Ok tt, fs) /\
    size (buildIndex SampleStore.baseDir fs) = 2%nat /\
    buildIndex SampleStore.baseDir fs !! js "69235" = None.
Proof.
  split; [apply (bool_decide_unpack _); vm_compute; exact I|].
  split; [vm_compute; reflexivity|].
  eexists. split; [vm_compute; reflexivity|].
  split; vm_compute; reflexivity.
Qed.

(** * Properties of the rate limiter *)

Section RateLimiterFacts.

Variable T : Type.

Implicit Types (log : list (occurrence T)) (tasks : list (result T)).

Lemma completedIn_app log more n : completedIn log n -> completedIn (log ++ more) n.
Proof.
  intros (l1 & o & l2 & l3 & -> & Ho).
  exists l1, o, l2, (l3 ++ more). split; [|assumption].
  now rewrite <- !app_assoc, <- !app_comm_cons, <- app_assoc.
Qed.

Lemma wrappersFrom_app n tasks task :
  wrappersFrom n (tasks ++ [task])
  = wrappersFrom n tasks ++ [{| ticket := n + length tasks; fn := task |}].
Proof.
  revert n. induction tasks as [|t tasks IH]; intros n; cbn.
  - now rewrite Nat.add_0_r.
  - rewrite IH, Nat.add_succ_r. reflexivity.
Qed.

Lemma wrappersFrom_nil n tasks : wrappersFrom n tasks = [] -> tasks = [].
Proof. destruct tasks; [reflexivity | discriminate]. Qed.

Lemma invariant_initial : invariant [] (newLimiter T) [] 0.
Proof.
  repeat split; cbn; try reflexivity; try lia.
  - intros pre n post H. now destruct pre.
  - intros o n r H. now apply elem_of_nil in H.
Qed.

(** Where a [Started] occurrence of an extended log lies. *)
Lemma started_in_extension log more pre n post :
  log ++ more = pre ++ Started n :: post ->
  (exists post', log = pre ++ Started n :: post') \/
  (exists pre', pre = log ++ pre' /\ more = pre' ++ Started n :: post).
Proof.
  intros H. apply app_eq_app in H as (mid & [[Hlog Hmid] | [Hpre Hmore]]).
  - destruct mid as [|o mid]; cbn in Hmid.
    + right. exists []. rewrite app_nil_r in *. subst. split; reflexivity.
    + injection Hmid as <- ->. left. eauto.
  - right. eauto.
Qed.

(** Occurrences other than [Started] extend a log without disturbing the
    order of starts. *)
Lemma starts_preserved log more :
  (forall pre n post, log = pre ++ Started n :: post ->
     forall k, (k < n)%nat -> completedIn pre k) ->
  startedCalls more = [] ->
  forall pre n post, log ++ more = pre ++ Started n :: post ->
    forall k, (k < n)%nat -> completedIn pre k.
Proof.
  intros Hlog Hmore pre n post H k Hk.
  apply started_in_extension in H as [(post' & ->) | (pre' & -> & ->)].
  - eapply Hlog; eauto.
  - unfold startedCalls in Hmore. rewrite omap_app in Hmore. cbn in Hmore.
    now apply app_eq_nil in Hmore as [_ ?].
Qed.

(** A start appended after [before]: the earlier starts are those of
    [log], the new one has [log ++ before] behind it. *)
Lemma starts_extended log before n0 :
  (forall pre n post, log = pre ++ Started n :: post ->
     forall k, (k < n)%nat -> completedIn pre k) ->
  startedCalls before = [] ->
  (forall k, (k < n0)%nat -> completedIn (log ++ before) k) ->
  forall pre n post, log ++ before ++ [Started n0] = pre ++ Started n :: post ->
    forall k, (k < n)%nat -> completedIn pre k.
Proof.
  intros Hlog Hbefore Hnew pre n post H k Hk.
  apply started_in_extension in H as [(post' & ->) | (pre' & -> & H)].
  - eapply Hlog; eauto.
  - apply started_in_extension in H as [(post' & H) | (pre'' & -> & H)].
    + exfalso. rewrite H in Hbefore. unfold startedCalls in Hbefore.
      rewrite omap_app in Hbefore. cbn in Hbefore.
      now apply app_eq_nil in Hbefore as [_ ?].
    + destruct pre'' as [|o pre'']; cbn in H.
      * injection H as <- <-. rewrite app_nil_r. now apply Hnew.
      * injection H as _ H. now destruct pre''.
Qed.

Lemma outcomes_preserved tasks task log more :
  (forall o n r, o ∈ log -> outcomeOf o = Some (n, r) -> tasks !! n = Some r) ->
  (forall o n r, o ∈ more -> outcomeOf o = Some (n, r) -> tasks !! n = Some r) ->
  forall o n r, o ∈ log ++ more -> outcomeOf o = Some (n, r) ->
    (tasks ++ task) !! n = Some r.
Proof.
  intros Hlog Hmore o n r Hin Ho. apply lookup_app_l_Some.
  apply elem_of_app in Hin as [Hin | Hin]; eauto.
Qed.

End RateLimiterFacts.

Section RateLimiterRun.

Variable T : Type.

Lemma drop_head (tasks : list (result T)) (n : nat) task rest :
  drop n tasks = task :: rest ->
  tasks !! n = Some task /\ drop (S n) tasks = rest /\ (n < length tasks)%nat.
Proof.
  intros H.
  assert (tasks !! n = Some task) as Hn.
  { rewrite <- (Nat.add_0_r n), <- lookup_drop, H. reflexivity. }
  split; [assumption|]. split.
  - rewrite (drop_S _ _ _ Hn) in H. now injection H.
  - now apply lookup_lt_Some in Hn.
Qed.

Lemma startedCalls_app (log more : list (occurrence T)) :
  startedCalls (log ++ more) = startedCalls log ++ startedCalls more.
Proof. apply omap_app. Qed.

Lemma settle_outcome (w : wrapper T) : outcomeOf (settle w) = Some (ticket w, fn w).
Proof. unfold settle. destruct (fn w); reflexivity. Qed.

Lemma settle_is_no_start (w : wrapper T) : startedCalls [settle w] = [].
Proof. unfold settle. destruct (fn w); reflexivity. Qed.

(** After the delay that follows task [current], every task up to it has
    completed. *)
Lemma completed_after_delay (log : list (occurrence T)) (current : nat) :
  (forall k, (k < current)%nat -> completedIn log k) ->
  (exists l1 o l2, log = l1 ++ o :: l2 /\ settles current o) ->
  forall k, (k < S current)%nat -> completedIn (log ++ [Slept]) k.
Proof.
  intros Hbefore (l1 & o & l2 & -> & Ho) k Hk.
  destruct (decide (k = current)) as [->|Hne].
  - exists l1, o, l2, []. split; [|assumption]. now rewrite <- app_assoc.
  - apply completedIn_app, Hbefore. lia.
Qed.

Ltac split_invariant :=
  unfold invariant;
  refine (conj _ (conj _ (conj _ (conj _ (conj _ (conj _ _))))));
  cbn [issued queue processing suspended fst snd].

(** One input preserves the invariant. *)
Lemma step_invariant (tasks : list (result T)) (l : limiter T)
    (log : list (occurrence T)) (started : nat) (i : input T) :
  invariant tasks l log started ->
  exists started',
    invariant (tasks ++ submissions [i]) (step l i).1 (log ++ (step l i).2) started'.
Proof.
  intros (Hissued & Hle & Hqueue & Hstarts & Horder & Hout & Hphase).
  unfold phaseInvariant in Hphase.
  destruct i as [task | | ]; cbn [step].
  - (* execute(task) *)
    change (submissions [Execute task]) with [task].
    destruct (suspended l) as [|w|] eqn:Hsusp.
    + (* process is not running: it is started and takes the task at once *)
      destruct Hphase as (Hproc & Hempty & Hdone).
      rewrite Hproc. unfold processLoop. cbn [queue]. rewrite Hempty. cbn [app fst snd].
      assert (started = length tasks) as ->.
      { rewrite Hempty in Hqueue. symmetry in Hqueue.
        apply wrappersFrom_nil in Hqueue.
        apply (f_equal length) in Hqueue. rewrite length_drop in Hqueue. cbn in Hqueue.
        lia. }
      exists (S (length tasks)). rewrite Hissued.
      split_invariant.
      * rewrite length_app. cbn. lia.
      * rewrite length_app. cbn. lia.
      * rewrite drop_ge by (rewrite length_app; cbn; lia). reflexivity.
      * rewrite startedCalls_app, Hstarts, seq_S. reflexivity.
      * apply (starts_extended T log [Submitted (length tasks)] (length tasks));
          [assumption | reflexivity |].
        intros k Hk. now apply completedIn_app, Hdone.
      * apply outcomes_preserved; [assumption|].
        intros o n r Ho. apply list_elem_of_In in Ho. cbn in Ho.
        destruct Ho as [<- | [<- | []]]; discriminate.
      * unfold phaseInvariant. cbn [suspended processing].
        split; [reflexivity|]. exists (length tasks). cbn [ticket fn].
        split; [reflexivity|]. split; [reflexivity|]. split.
        -- now apply list_lookup_middle.
        -- intros k Hk. now apply completedIn_app, Hdone.
    + (* process awaits a task: the new task is queued *)
      destruct Hphase as (Hproc & current & -> & Hticket & Hfn & Hdone).
      rewrite Hproc. cbn [fst snd]. exists (S current).
      split_invariant.
      * rewrite length_app. cbn. lia.
      * rewrite length_app. cbn. lia.
      * rewrite drop_app_le by assumption. rewrite wrappersFrom_app, <- Hqueue.
        rewrite length_drop. repeat f_equal. lia.
      * rewrite startedCalls_app, Hstarts. cbn. now rewrite app_nil_r.
      * now apply starts_preserved.
      * apply outcomes_preserved; [assumption|].
        intros o n r Ho. apply list_elem_of_In in Ho. cbn in Ho.
        destruct Ho as [<- | []]; discriminate.
      * unfold phaseInvariant. cbn [suspended processing]. rewrite ?Hsusp.
        split; [reflexivity|]. exists current.
        split; [reflexivity|]. split; [assumption|]. split.
        -- now apply lookup_app_l_Some.
        -- intros k Hk. now apply completedIn_app, Hdone.
    + (* process sleeps: the new task is queued *)
      destruct Hphase as (Hproc & current & -> & Hdone & l1 & o & l2 & Hlog & Ho).
      rewrite Hproc. cbn [fst snd]. exists (S current).
      split_invariant.
      * rewrite length_app. cbn. lia.
      * rewrite length_app. cbn. lia.
      * rewrite drop_app_le by assumption. rewrite wrappersFrom_app, <- Hqueue.
        rewrite length_drop. repeat f_equal. lia.
      * rewrite startedCalls_app, Hstarts. cbn. now rewrite app_nil_r.
      * now apply starts_preserved.
      * apply outcomes_preserved; [assumption|].
        intros o' n r Ho'. apply list_elem_of_In in Ho'. cbn in Ho'.
        destruct Ho' as [<- | []]; discriminate.
      * unfold phaseInvariant. cbn [suspended processing]. rewrite ?Hsusp.
        split; [reflexivity|]. exists current.
        split; [reflexivity|]. split.
        -- intros k Hk. now apply completedIn_app, Hdone.
        -- exists l1, o, (l2 ++ [Submitted (issued l)]). split; [|assumption].
           rewrite Hlog. now rewrite <- app_assoc.
  - (* the running task settles *)
    change (submissions [@TaskSettles T]) with (@nil (result T)). rewrite app_nil_r.
    destruct (suspended l) as [|w|] eqn:Hsusp; cbn [fst snd].
    + exists started. rewrite app_nil_r. unfold invariant, phaseInvariant.
      rewrite ?Hsusp. auto 10.
    + destruct Hphase as (Hproc & current & -> & Hticket & Hfn & Hdone).
      exists (S current).
      split_invariant; try assumption.
      * rewrite startedCalls_app, Hstarts, settle_is_no_start. now rewrite app_nil_r.
      * apply starts_preserved; [assumption | apply settle_is_no_start].
      * intros o n r Hin Ho. apply elem_of_app in Hin as [Hin | Hin]; [eauto|].
        apply list_elem_of_singleton in Hin as ->.
        rewrite settle_outcome in Ho. injection Ho as <- <-. now rewrite Hticket.
      * unfold phaseInvariant. cbn [suspended processing].
        split; [assumption|]. exists current. split; [reflexivity|]. split.
        -- intros k Hk. now apply completedIn_app, Hdone.
        -- exists log, (settle w), []. split; [reflexivity|].
           exists (fn w). now rewrite settle_outcome, Hticket.
    + exists started. rewrite app_nil_r. unfold invariant, phaseInvariant.
      rewrite ?Hsusp. auto 10.
  - (* the delay elapses *)
    change (submissions [@DelayElapses T]) with (@nil (result T)). rewrite app_nil_r.
    destruct (suspended l) as [|w|] eqn:Hsusp; cbn [fst snd].
    + exists started. rewrite app_nil_r. unfold invariant, phaseInvariant.
      rewrite ?Hsusp. auto 10.
    + exists started. rewrite app_nil_r. unfold invariant, phaseInvariant.
      rewrite ?Hsusp. auto 10.
    + destruct Hphase as (Hproc & current & -> & Hdone & Hsettled).
      pose proof (completed_after_delay log current Hdone Hsettled) as Hall.
      unfold processLoop. destruct (queue l) as [|w rest] eqn:Hq; cbn [fst snd].
      * (* nothing queued: process ends *)
        exists (S current).
        split_invariant; try assumption.
        -- rewrite startedCalls_app, Hstarts. cbn. now rewrite app_nil_r.
        -- now apply starts_preserved.
        -- intros o n r Hin Ho. apply elem_of_app in Hin as [Hin | Hin]; [eauto|].
           apply list_elem_of_singleton in Hin as ->. discriminate.
        -- unfold phaseInvariant. cbn [suspended processing queue]. auto.
      * (* the next task is taken from the queue and invoked *)
        symmetry in Hqueue. destruct (drop (S current) tasks) as [|task later] eqn:Hdrop;
          [discriminate|].
        cbn in Hqueue. injection Hqueue as Hw Hrest.
        apply drop_head in Hdrop as (Hnext & Hlater & Hlt).
        exists (S (S current)). subst w. cbn [ticket].
        split_invariant; try assumption.
        -- rewrite Hlater. now symmetry.
        -- rewrite startedCalls_app, Hstarts. cbn.
           change (0 :: seq 1 current ++ [S current])%nat
             with (seq 0 (S current) ++ [0 + S current])%nat.
           now rewrite <- seq_S.
        -- apply (starts_extended T log [Slept] (S current));
             [assumption | reflexivity | assumption].
        -- intros o n r Hin Ho. apply elem_of_app in Hin as [Hin | Hin]; [eauto|].
           apply list_elem_of_In in Hin. cbn in Hin.
           destruct Hin as [<- | [<- | []]]; discriminate.
        -- unfold phaseInvariant. cbn [suspended processing].
           split; [assumption|]. exists (S current). cbn [ticket fn].
           split; [reflexivity|]. split; [reflexivity|]. split; [assumption|].
           intros k Hk. change [Slept; Started (S current)]
             with ([@Slept T] ++ [Started (S current)]).
           rewrite app_assoc. now apply completedIn_app, Hall.
Qed.

End RateLimiterRun.

Lemma run_snoc (T : Type) (inputs : list (input T)) (i : input T) :
  run (inputs ++ [i])
  = ((step (run inputs).1 i).1, (run inputs).2 ++ (step (run inputs).1 i).2).
Proof.
  unfold run. rewrite fold_left_app. cbn.
  now destruct (step _ i).
Qed.

Lemma submissions_snoc (T : Type) (inputs : list (input T)) (i : input T) :
  submissions (inputs ++ [i]) = submissions inputs ++ submissions [i].
Proof. apply omap_app. Qed.

(** The invariant holds along every run. *)
Lemma run_invariant (T : Type) (inputs : list (input T)) :
  exists started,
    invariant (submissions inputs) (run inputs).1 (run inputs).2 started.
Proof.
  induction inputs as [|i inputs IH] using rev_ind.
  - exists 0%nat. apply invariant_initial.
  - destruct IH as [started IH].
    rewrite run_snoc, submissions_snoc. now apply step_invariant with (started := started).
Qed.


(** ** Progress *)

Section RateLimiterProgress.

Variable T : Type.

Lemma run_app (inputs more : list (input T)) :
  (run (inputs ++ more)).1 = feed (run inputs).1 more.
Proof.
  induction more as [|i more IH] using rev_ind.
  - now rewrite app_nil_r.
  - rewrite app_assoc, run_snoc. cbn [fst]. rewrite IH.
    unfold feed. now rewrite fold_left_app.
Qed.

Lemma submissions_cycles (rounds : nat) : submissions (@cycles T rounds) = [].
Proof. induction rounds; [reflexivity | assumption]. Qed.

(** One round takes a task off the queue, or finds the limiter idle. *)
Lemma round_progress (l : limiter T) :
  suspended (feed l (cycles 1)) = Idle \/
  (length (queue (feed l (cycles 1))) < length (queue l))%nat.
Proof.
  unfold feed. cbn [cycles fold_left step].
  destruct (suspended l) as [|w|] eqn:Hs; cbn [fst suspended].
  - rewrite Hs. cbn. now left.
  - unfold processLoop. cbn [queue].
    destruct (queue l) as [|w' rest]; cbn; [now left | right; lia].
  - rewrite Hs. unfold processLoop.
    destruct (queue l) as [|w' rest]; cbn; [now left | right; lia].
Qed.

Lemma idle_stays_idle (l : limiter T) (rounds : nat) :
  suspended l = Idle -> suspended (feed l (cycles rounds)) = Idle.
Proof.
  revert l. induction rounds as [|k IH]; intros l Hs; [assumption|].
  change (feed l (cycles (S k))) with (feed (feed l (cycles 1)) (cycles k)).
  apply IH. unfold feed. cbn [cycles fold_left step]. rewrite Hs. cbn. now rewrite Hs.
Qed.

Lemma drains_within (l : limiter T) (rounds : nat) :
  (length (queue l) < rounds)%nat -> suspended (feed l (cycles rounds)) = Idle.
Proof.
  revert l. induction rounds as [|k IH]; intros l Hlen; [lia|].
  change (feed l (cycles (S k))) with (feed (feed l (cycles 1)) (cycles k)).
  destruct (round_progress l) as [Hidle | Hless].
  - now apply idle_stays_idle.
  - apply IH. lia.
Qed.

End RateLimiterProgress.

(** The limiter after the running task and the queued ones have settled
    and their delays have elapsed: it is idle, every task submitted has
    been started, in order, and the promise of every call is settled with
    the outcome of its own task. *)
Lemma run_drained (T : Type) (inputs : list (input T)) (rounds : nat) :
  (length (queue (run inputs).1) < rounds)%nat ->
  suspended (run (inputs ++ cycles rounds)).1 = Idle /\
  processing (run (inputs ++ cycles rounds)).1 = false /\
  queue (run (inputs ++ cycles rounds)).1 = [] /\
  startedCalls (run (inputs ++ cycles rounds)).2 = seq 0 (length (submissions inputs)) /\
  forall n task, submissions inputs !! n = Some task ->
    exists o, o ∈ (run (inputs ++ cycles rounds)).2 /\ outcomeOf o = Some (n, task).
Proof.
  intros Hrounds.
  set (all := inputs ++ cycles rounds).
  assert (suspended (run all).1 = Idle) as Hidle.
  { unfold all. rewrite run_app. now apply drains_within. }
  assert (submissions all = submissions inputs) as Hsub.
  { unfold all, submissions. rewrite omap_app.
    change (omap _ (cycles _)) with (submissions (@cycles T rounds)).
    now rewrite submissions_cycles, app_nil_r. }
  destruct (run_invariant T all)
    as (started & Hissued & Hle & Hqueue & Hstarts & _ & Hout & Hphase).
  unfold phaseInvariant in Hphase. rewrite Hidle in Hphase.
  destruct Hphase as (Hproc & Hempty & Hdone).
  rewrite Hsub in *.
  rewrite Hempty in Hqueue. symmetry in Hqueue. apply wrappersFrom_nil in Hqueue.
  assert (started = length (submissions inputs)) as ->.
  { apply (f_equal length) in Hqueue. rewrite length_drop in Hqueue. cbn in Hqueue. lia. }
  split; [assumption|]. split; [assumption|]. split; [assumption|].
  split; [assumption|].
  intros n task Hn.
  destruct (Hdone n) as (l1 & o & l2 & l3 & Hlog & r & Ho).
  { now apply lookup_lt_Some in Hn. }
  assert (o ∈ (run all).2) as Hin by (rewrite Hlog; set_solver).
  exists o. split; [assumption|].
  rewrite Ho. f_equal. f_equal.
  pose proof (Hout o n r Hin Ho) as Hr. congruence.
Qed.

(** The log of a run is kept by what follows. *)
Lemma run_log_extends (T : Type) (inputs more : list (input T)) :
  exists later, (run (inputs ++ more)).2 = (run inputs).2 ++ later.
Proof.
  induction more as [|i more IH] using rev_ind.
  - exists []. now rewrite !app_nil_r.
  - destruct IH as [later IH]. rewrite app_assoc, run_snoc. cbn [snd].
    rewrite IH, <- app_assoc. eauto.
Qed.

(** C10.  Along every run of the limiter, the tasks are started in the
    order of the [execute] calls that submitted them; a task is started
    only when every task submitted before it has completed and a delay
    has elapsed after that; the promise of a call is resolved or rejected
    with the outcome of the task that call submitted; and the tasks do
    run: a task handed to an idle limiter is started by the call itself,
    and once the running task and the queued ones have settled and their
    delays have elapsed, every task submitted has been started, in
    submission order, and the promise of every call has been settled with
    the outcome of its own task, the log so far being kept. *)
Theorem rate_limiter_runs_tasks_in_order (T : Type) (inputs : list (input T)) :
  (exists started, startedCalls (run inputs).2 = seq 0 started) /\
  (forall pre n post, (run inputs).2 = pre ++ Started n :: post ->
     forall k, (k < n)%nat -> completedIn pre k) /\
  (forall o n r, o ∈ (run inputs).2 -> outcomeOf o = Some (n, r) ->
     submissions inputs !! n = Some r) /\
  (forall task, suspended (run inputs).1 = Idle ->
     (run (inputs ++ [Execute task])).2
     = (run inputs).2 ++ [Submitted (length (submissions inputs));
                          Started (length (submissions inputs))]) /\
  (forall rounds, (length (queue (run inputs).1) < rounds)%nat ->
     (exists later, (run (inputs ++ cycles rounds)).2 = (run inputs).2 ++ later) /\
     startedCalls (run (inputs ++ cycles rounds)).2 = seq 0 (length (submissions inputs)) /\
     forall n task, submissions inputs !! n = Some task ->
       exists o, o ∈ (run (inputs ++ cycles rounds)).2 /\ outcomeOf o = Some (n, task)).
Proof.
  destruct (run_invariant T inputs)
    as (started & Hissued & _ & _ & Hstarts & Horder & Hout & Hphase).
  split; [eauto|]. split; [assumption|]. split; [assumption|]. split.
  - intros task Hidle. rewrite run_snoc. cbn [snd step].
    unfold phaseInvariant in Hphase. rewrite Hidle in Hphase.
    destruct Hphase as (Hproc & Hempty & _).
    rewrite Hproc. unfold processLoop. cbn [queue]. rewrite Hempty. cbn [app snd ticket].
    now rewrite Hissued.
  - intros rounds Hrounds.
    destruct (run_drained T inputs rounds Hrounds) as (_ & _ & _ & Hall & Hsettled).
    split; [apply run_log_extends|]. split; assumption.
Qed.

(** A run with two tasks: the second one is submitted while the first one
    runs, and is started after the first one has settled and the delay
    has elapsed. *)
Example rate_limiter_two_tasks :
  (run [Execute (Ok 7); Execute (Raise (js "Error: busy")); TaskSettles;
        DelayElapses; TaskSettles; DelayElapses]).2
  = [Submitted 0%nat; Started 0%nat; Submitted 1%nat; Resolved 0%nat 7; Slept;
     Started 1%nat; Rejected 1%nat (js "Error: busy"); Slept].
Proof. reflexivity. Qed.

(** * Further properties *)

(** Level 1: a channel flagged verified whose normalized name is at least
    0.8 similar to the source's gives [level = 1], with confidence
    [0.95 + similarity * 0.05] and a mapping, after the two profile
    fetches only. *)
Theorem verified_channel_gives_level1 (toLowerCase : jsstring -> jsstring) (api : Api)
    (now biliUid ytChannelId : jsstring) (biliUser : BilibiliUser)
    (ytChannel : YouTubeChannel) :
  getUserInfo api biliUid = Ok biliUser ->
  getChannel api ytChannelId = Ok ytChannel ->
  level1Succeeds toLowerCase biliUser ytChannel = true ->
  exists r m,
    verify toLowerCase api now biliUid ytChannelId
    = ([(GetUserInfo biliUid, None); (GetChannel ytChannelId, None)], Ok r) /\
    success r = true /\ level r = 1 /\
    confidence r
    = (0.95 + nameSimilarityOf toLowerCase biliUser ytChannel * 0.05)%float /\
    mapping r = Some m /\ verificationLevel m = 1 /\
    bilibiliUid m = bu_uid biliUser /\ youtubeChannelId m = yc_id ytChannel.
Proof.
  intros Hu Hc H1. unfold verify, verifyBody. rewrite Hu, Hc.
  cbn [await bind rejection]. unfold level1Succeeds in H1. unfold level1.
  destruct (yc_verified ytChannel) as [[|]|]; try discriminate.
  rewrite H1. cbn. do 2 eexists. repeat split.
Qed.

(** A run of [verified_channel_gives_level1]: the verified channel of the
    test suite. *)
Lemma verified_channel_gives_level1_witness :
  exists r m,
    verify asciiLower Sample.verifiedApi Sample.now (js "123456") (js "UCtest")
    = ([(GetUserInfo (js "123456"), None); (GetChannel (js "UCtest"), None)], Ok r) /\
    success r = true /\ level r = 1 /\
    confidence r
    = (0.95 + nameSimilarityOf asciiLower (Sample.biliUser "TestUser" "Test bio")
                (Sample.ytChannel "UCtest" "TestUser" "Test" (Some 5000%float) true)
              * 0.05)%float /\
    mapping r = Some m /\ verificationLevel m = 1 /\
    bilibiliUid m = bu_uid (Sample.biliUser "TestUser" "Test bio") /\
    youtubeChannelId m
    = yc_id (Sample.ytChannel "UCtest" "TestUser" "Test" (Some 5000%float) true).
Proof.
  apply (verified_channel_gives_level1 asciiLower Sample.verifiedApi);
    vm_compute; reflexivity.
Defined.

Lemma substring_take_drop (s : jsstring) (a b : Z) :
  0 <= a <= b -> b <= Z.of_nat (length s) ->
  substring s a b = take (Z.to_nat (b - a)) (drop (Z.to_nat a) s).
Proof.
  intros Hab Hb. unfold substring.
  replace (Z.min (Z.max a 0) (Z.of_nat (length s))) with a by lia.
  replace (Z.min (Z.max b 0) (Z.of_nat (length s))) with b by lia.
  replace (Z.max a b) with b by lia. replace (Z.min a b) with a by lia.
  reflexivity.
Qed.

(** With a well-formed configuration a shard path has three segments: the
    first [level1Length] digits of the hash, the next [level2Length]
    digits, and the hash followed by [.json], the hash being the first
    [hashLength] digits of the SHA-256 digest of the identifier. *)
Theorem shardPath_has_three_segments (config : ShardConfig) (userId : jsstring) :
  wellFormed config ->
  exists level1 level2 h,
    segments (getShardPath config userId) = [level1; level2; h ++ js ".json"] /\
    h = take (Z.to_nat (hashLength config)) (sha256hex userId) /\
    level1 = take (Z.to_nat (level1Length config)) h /\
    level2 = take (Z.to_nat (level2Length config)) (drop (Z.to_nat (level1Length config)) h) /\
    Z.of_nat (length level1) = level1Length config /\
    Z.of_nat (length level2) = level2Length config /\
    Z.of_nat (length h) = hashLength config /\
    h = hash config userId.
Proof.
  intros Hwf. pose proof Hwf as (H1 & H2 & H3 & H4).
  pose proof (hash_hexChar config userId) as Hhex.
  pose proof (hash_length config userId Hwf) as Hlen.
  unfold getShardPath. cbv zeta.
  set (h := hash config userId) in *.
  set (l1 := substring h 0 (level1Length config)).
  set (l2 := substring h (level1Length config) (level1Length config + level2Length config)).
  exists l1, l2, h.
  assert (Forall hexChar l1) as Hl1 by now apply substring_Forall.
  assert (Forall hexChar l2) as Hl2 by now apply substring_Forall.
  split; [|split; [|split; [|split; [|split; [|split; [|split]]]]]].
  - change (js "/") with [47%N]. cbn [app].
    rewrite (segments_slash l1) by now apply hexChar_no_slash.
    rewrite (segments_slash l2) by now apply hexChar_no_slash.
    rewrite segments_one; [reflexivity|].
    apply Forall_app. split; [now apply hexChar_no_slash|].
    cbn. repeat constructor; lia.
  - unfold h, hash. rewrite substring_take_drop by (rewrite ?sha256hex_length; lia).
    now rewrite Z.sub_0_r.
  - unfold l1. rewrite substring_take_drop by lia. now rewrite Z.sub_0_r.
  - unfold l2. rewrite substring_take_drop by lia. do 2 f_equal. lia.
  - unfold l1. rewrite substring_length; lia.
  - unfold l2. rewrite substring_length; lia.
  - lia.
  - reflexivity.
Qed.

(** A run of [shardPath_has_three_segments]: the default configuration. *)
Lemma shardPath_has_three_segments_witness :
  exists level1 level2 h,
    segments (getShardPath DEFAULT_SHARD_CONFIG (js "123456"))
    = [level1; level2; h ++ js ".json"] /\
    h = take (Z.to_nat (hashLength DEFAULT_SHARD_CONFIG)) (sha256hex (js "123456")) /\
    level1 = take (Z.to_nat (level1Length DEFAULT_SHARD_CONFIG)) h /\
    level2 = take (Z.to_nat (level2Length DEFAULT_SHARD_CONFIG))
               (drop (Z.to_nat (level1Length DEFAULT_SHARD_CONFIG)) h) /\
    Z.of_nat (length level1) = level1Length DEFAULT_SHARD_CONFIG /\
    Z.of_nat (length level2) = level2Length DEFAULT_SHARD_CONFIG /\
    Z.of_nat (length h) = hashLength DEFAULT_SHARD_CONFIG /\
    h = hash DEFAULT_SHARD_CONFIG (js "123456").
Proof.
  apply shardPath_has_three_segments. unfold wellFormed. cbn. lia.
Defined.

(** ** The scanner *)

Lemma firstOccurrences_app (seen : gset jsstring) (l1 l2 : list BilibiliUser) :
  firstOccurrences seen (l1 ++ l2)
  = firstOccurrences seen l1
    ++ firstOccurrences (list_to_set (map bu_uid l1) ∪ seen) l2.
Proof.
  revert seen. induction l1 as [|u l1 IH]; intros seen; cbn.
  - f_equal. set_solver.
  - case_decide as Hseen.
    + rewrite IH. do 2 f_equal. set_solver.
    + cbn. rewrite IH. do 3 f_equal. set_solver.
Qed.

(** The inner loop of [deduplicateUsers]. *)
Lemma dedupe_inner (users : list BilibiliUser) (seen : gset jsstring)
    (unique : list BilibiliUser) :
  fold_left
    (fun (state : gset jsstring * list BilibiliUser) user =>
       if decide (bu_uid user ∈ state.1) then state
       else ({[bu_uid user]} ∪ state.1, state.2 ++ [user]))
    users (seen, unique)
  = (list_to_set (map bu_uid users) ∪ seen, unique ++ firstOccurrences seen users).
Proof.
  revert seen unique. induction users as [|u users IH]; intros seen unique; cbn.
  - rewrite app_nil_r. f_equal. set_solver.
  - case_decide as Hseen; cbn [fst snd].
    + rewrite IH. f_equal. set_solver.
    + rewrite IH, <- app_assoc. f_equal. set_solver.
Qed.

Lemma dedupe_outer (results : list ScanResult) (seen : gset jsstring)
    (unique : list BilibiliUser) :
  fold_left
    (fun state result =>
       fold_left
         (fun (state : gset jsstring * list BilibiliUser) user =>
            if decide (bu_uid user ∈ state.1) then state
            else ({[bu_uid user]} ∪ state.1, state.2 ++ [user]))
         (sr_users result) state)
    results (seen, unique)
  = (list_to_set (map bu_uid (scannedUsers results)) ∪ seen,
     unique ++ firstOccurrences seen (scannedUsers results)).
Proof.
  revert seen unique. induction results as [|r results IH]; intros seen unique; cbn.
  - rewrite app_nil_r. f_equal. set_solver.
  - rewrite dedupe_inner, IH. unfold scannedUsers. cbn [flat_map].
    rewrite firstOccurrences_app, app_assoc, map_app. f_equal.
    rewrite list_to_set_app_L. set_solver.
Qed.

Lemma firstOccurrences_fresh (seen : gset jsstring) (users : list BilibiliUser)
    (u : BilibiliUser) :
  u ∈ firstOccurrences seen users -> (bu_uid u ∉ seen) /\ (u ∈ users).
Proof.
  revert seen. induction users as [|v users IH]; intros seen; cbn.
  - intros H. now apply elem_of_nil in H.
  - case_decide as Hseen.
    + intros H. apply IH in H as [? ?]. split; [assumption | set_solver].
    + intros H. apply elem_of_cons in H as [-> | H].
      * split; [assumption | set_solver].
      * apply IH in H as [? ?]. split; set_solver.
Qed.

Lemma firstOccurrences_NoDup (seen : gset jsstring) (users : list BilibiliUser) :
  NoDup (map bu_uid (firstOccurrences seen users)).
Proof.
  revert seen. induction users as [|v users IH]; intros seen; cbn.
  - constructor.
  - case_decide as Hseen; [apply IH|]. cbn. constructor; [|apply IH].
    intros Hin. apply list_elem_of_fmap in Hin as (u & Hu & Hin).
    apply firstOccurrences_fresh in Hin as [Hfresh _]. set_solver.
Qed.

Lemma firstOccurrences_covers (seen : gset jsstring) (users : list BilibiliUser)
    (u : BilibiliUser) :
  u ∈ users -> bu_uid u ∉ seen ->
  bu_uid u ∈ map bu_uid (firstOccurrences seen users).
Proof.
  revert seen. induction users as [|v users IH]; intros seen Hin Hfresh; cbn.
  - now apply elem_of_nil in Hin.
  - case_decide as Hseen.
    + apply IH; [|assumption].
      apply elem_of_cons in Hin as [-> | Hin]; [contradiction | assumption].
    + cbn. destruct (decide (bu_uid u = bu_uid v)) as [->|Hne]; [set_solver|].
      apply elem_of_cons in Hin as [-> | Hin]; [contradiction|].
      apply elem_of_cons. right. apply IH; [assumption | set_solver].
Qed.

(** [deduplicateUsers] keeps, in the order scanned, exactly the users
    whose identifier has not occurred before them: every identifier
    scanned is returned once. *)
Theorem deduplicateUsers_first_seen (results : list ScanResult) :
  deduplicateUsers results = firstOccurrences ∅ (scannedUsers results) /\
  NoDup (map bu_uid (deduplicateUsers results)) /\
  (forall user, user ∈ scannedUsers results ->
     bu_uid user ∈ map bu_uid (deduplicateUsers results)) /\
  (forall user, user ∈ deduplicateUsers results -> user ∈ scannedUsers results).
Proof.
  assert (deduplicateUsers results = firstOccurrences ∅ (scannedUsers results)) as ->.
  { unfold deduplicateUsers. now rewrite dedupe_outer. }
  split; [reflexivity|]. split; [apply firstOccurrences_NoDup|]. split.
  - intros user Hin. apply firstOccurrences_covers; [assumption | set_solver].
  - intros user Hin. now apply firstOccurrences_fresh in Hin as [_ ?].
Qed.

(** [filterNewUsers] keeps, in their order, the users without a mapping
    file. *)
Theorem filterNewUsers_is_filter (config : ShardConfig) (baseDir : jsstring)
    (fs : disk) (users : list BilibiliUser) :
  filterNewUsers config baseDir fs users
  = List.filter (fun user => negb (hasMapping config baseDir fs (bu_uid user))) users.
Proof.
  unfold filterNewUsers.
  enough (forall acc,
             fold_left
               (fun newUsers user =>
                  if negb (hasMapping config baseDir fs (bu_uid user))
                  then newUsers ++ [user] else newUsers) users acc
             = acc ++ List.filter
                        (fun user => negb (hasMapping config baseDir fs (bu_uid user)))
                        users) as H by (apply (H [])).
  induction users as [|u users IH]; intros acc; cbn.
  - now rewrite app_nil_r.
  - rewrite IH. destruct (negb _); [now rewrite <- app_assoc | reflexivity].
Qed.

(** * [stringSimilarity] and the Levenshtein distance *)

Section Recurrence.

Variables str1 str2 : jsstring.

Lemma prefixDistance_0_r (i : nat) : prefixDistance str1 str2 i 0 = Z.of_nat i.
Proof. now destruct i. Qed.

Lemma prefixDistance_S_S (i j : nat) :
  prefixDistance str1 str2 (S i) (S j)
  = Z.min (Z.min (prefixDistance str1 str2 i (S j) + 1)
                 (prefixDistance str1 str2 (S i) j + 1))
          (prefixDistance str1 str2 i j + substitutionCost str1 str2 i j).
Proof. reflexivity. Qed.

Lemma substitutionCost_range (i j : nat) :
  0 <= substitutionCost str1 str2 i j <= 1.
Proof. unfold substitutionCost. case_decide; lia. Qed.

(** The distance lies between the difference and the larger of the two
    prefix lengths. *)
Lemma prefixDistance_bounds (i j : nat) :
  Z.abs (Z.of_nat i - Z.of_nat j) <= prefixDistance str1 str2 i j
  <= Z.max (Z.of_nat i) (Z.of_nat j).
Proof.
  revert j. induction i as [|i IHi]; intros j.
  - cbn [prefixDistance]. lia.
  - induction j as [|j IHj].
    + rewrite prefixDistance_0_r. lia.
    + rewrite prefixDistance_S_S.
      pose proof (IHi (S j)). pose proof (IHi j).
      pose proof (substitutionCost_range i j). lia.
Qed.

(** It is zero exactly between equal prefixes. *)
Lemma prefixDistance_zero (i j : nat) :
  (i <= length str1)%nat -> (j <= length str2)%nat ->
  prefixDistance str1 str2 i j = 0 <-> take i str1 = take j str2.
Proof.
  revert j. induction i as [|i IHi]; intros j Hi Hj.
  - cbn [prefixDistance]. split.
    + intros H. now replace j with 0%nat by lia.
    + intros H. apply (f_equal length) in H. rewrite !length_take in H. lia.
  - destruct j as [|j].
    + rewrite prefixDistance_0_r. split; [lia|].
      intros H. apply (f_equal length) in H. rewrite !length_take in H. lia.
    + rewrite prefixDistance_S_S.
      pose proof (prefixDistance_bounds i (S j)).
      pose proof (prefixDistance_bounds (S i) j).
      pose proof (prefixDistance_bounds i j).
      pose proof (substitutionCost_range i j) as Hcost.
      destruct (lookup_lt_is_Some_2 str1 i) as [a Ha]; [lia|].
      destruct (lookup_lt_is_Some_2 str2 j) as [b Hb]; [lia|].
      rewrite (take_S_r _ _ _ Ha), (take_S_r _ _ _ Hb).
      split.
      * intros Hzero.
        assert (prefixDistance str1 str2 i j = 0 /\ substitutionCost str1 str2 i j = 0)
          as [Hd Hc] by lia.
        apply IHi in Hd; [|lia|lia]. rewrite Hd. f_equal.
        unfold substitutionCost in Hc. case_decide as Heq; [|discriminate].
        congruence.
      * intros Heq. apply app_inj_tail in Heq as [Hpre ->].
        apply IHi in Hpre; [|lia|lia].
        unfold substitutionCost in *. rewrite Ha, Hb in *.
        case_decide; [lia | congruence].
Qed.

End Recurrence.

(** Exchanging the two strings exchanges the two prefix lengths. *)
Lemma prefixDistance_sym (str1 str2 : jsstring) (i j : nat) :
  prefixDistance str1 str2 i j = prefixDistance str2 str1 j i.
Proof.
  revert j. induction i as [|i IHi]; intros j.
  - now rewrite prefixDistance_0_r.
  - induction j as [|j IHj].
    + now rewrite prefixDistance_0_r.
    + rewrite !prefixDistance_S_S, IHj, (IHi (S j)), (IHi j).
      unfold substitutionCost.
      destruct (decide (str1 !! i = str2 !! j)), (decide (str2 !! j = str1 !! i));
        try congruence; lia.
Qed.

(** ** The loops compute the recurrence *)

Section Loops.

Variables str1 str2 : jsstring.

Let n1 := length str1.
Let n2 := length str2.

Lemma recurrenceRow_length (i width : nat) :
  length (recurrenceRow str1 str2 i width) = width.
Proof. unfold recurrenceRow. now rewrite length_map, length_seq. Qed.

Lemma recurrenceRow_lookup (i width j : nat) :
  (j < width)%nat ->
  recurrenceRow str1 str2 i width !! j = Some (prefixDistance str1 str2 i j).
Proof.
  intros Hj. unfold recurrenceRow. rewrite lookup_map, lookup_seq_lt by assumption.
  reflexivity.
Qed.

Lemma recurrenceRow_S (i width : nat) :
  recurrenceRow str1 str2 i (S width)
  = recurrenceRow str1 str2 i width ++ [prefixDistance str1 str2 i width].
Proof. unfold recurrenceRow. now rewrite seq_S, map_app. Qed.

Lemma distance_initially_filled :
  distanceFilled str1 str2 0 (initFirstRow n2 (initRows n1)).
Proof.
  rewrite initRows_dense. cbn [seq map]. rewrite initFirstRow_dense.
  exists (map Z.of_nat (seq 0 (S n2)) :: map (fun i => [Z.of_nat i]) (seq 1 n1)).
  split; [reflexivity|]. split; [cbn; now rewrite length_map, length_seq|].
  split.
  - intros k Hk. replace k with 0%nat by lia. reflexivity.
  - intros k Hk. destruct k as [|k]; [lia|].
    change (map (fun i => [Z.of_nat i]) (seq 1 n1) !! k = Some [Z.of_nat (S k)]).
    rewrite lookup_map, lookup_seq_lt by (fold n1 in Hk; lia). reflexivity.
Qed.

(** One cell. *)
Lemma fillCell_follows_recurrence (i j : nat) (m : jsarray (jsarray Z)) :
  (1 <= i <= n1)%nat -> (1 <= j <= n2)%nat ->
  distanceFilling str1 str2 i j m ->
  distanceFilling str1 str2 i (S j) (fillCell str1 str2 i j m).
Proof.
  intros Hi Hj (rows & -> & Hlen & Habove & Hcur & Hbelow).
  destruct i as [|i]; [lia|]. destruct j as [|j]; [lia|].
  pose proof (Habove i ltac:(lia)) as Hprev.
  destruct (lookup_lt_is_Some_2 str1 i) as [a Ha]; [fold n1; lia|].
  destruct (lookup_lt_is_Some_2 str2 j) as [b Hb]; [fold n2; lia|].
  unfold fillCell.
  replace (S i - 1)%nat with i by lia. replace (S j - 1)%nat with j by lia.
  rewrite !nth_error_lookup, Ha, Hb, !aget_dense, Hprev, Hcur.
  cbn [fmap option_fmap option_map mbind option_bind].
  rewrite !aget_row.
  rewrite (recurrenceRow_lookup (S i) (S j) j) by lia.
  rewrite (recurrenceRow_lookup i (S (length str2)) j) by (fold n2; lia).
  rewrite (recurrenceRow_lookup i (S (length str2)) (S j)) by (fold n2; lia).
  rewrite aset_row_end by apply recurrenceRow_length.
  rewrite aset_dense by (rewrite Hlen; fold n1; lia).
  assert ((if N.eqb a b then 0 else 1) = substitutionCost str1 str2 i j) as ->.
  { unfold substitutionCost. rewrite Ha, Hb.
    destruct (N.eqb_spec a b) as [->|Hne]; case_decide; congruence. }
  rewrite <- prefixDistance_S_S, <- recurrenceRow_S.
  exists (<[S i := recurrenceRow str1 str2 (S i) (S (S j))]> rows).
  split; [reflexivity|]. split; [now rewrite length_insert|].
  split; [intros k Hk; rewrite list_lookup_insert_ne by lia; now apply Habove|].
  split; [apply list_lookup_insert_eq; rewrite Hlen; fold n1; lia|].
  intros k Hk. rewrite list_lookup_insert_ne by lia. now apply Hbelow.
Qed.

(** One row. *)
Lemma fillRow_follows_recurrence (i : nat) (m : jsarray (jsarray Z)) :
  (1 <= i <= n1)%nat ->
  distanceFilled str1 str2 (i - 1) m ->
  distanceFilled str1 str2 i
    (fold_left (fun m j => fillCell str1 str2 i j m) (seq 1 n2) m).
Proof.
  intros Hi (rows & -> & Hlen & Habove & Hbelow).
  assert (distanceFilling str1 str2 i (1 + n2)
            (fold_left (fun m j => fillCell str1 str2 i j m) (seq 1 n2) (dense rows)))
    as (rows' & -> & Hlen' & Habove' & Hcur' & Hbelow').
  { apply (fold_seq_invariant (fun m j => fillCell str1 str2 i j m)
             (fun j m => distanceFilling str1 str2 i j m)).
    - exists rows. split; [reflexivity|]. split; [assumption|].
      split; [intros k Hk; apply Habove; lia|].
      split.
      + rewrite (Hbelow i) by (fold n1; lia).
        unfold recurrenceRow. cbn [seq map]. now rewrite prefixDistance_0_r.
      + intros k Hk. apply Hbelow. lia.
    - intros j x Hj. apply fillCell_follows_recurrence; lia. }
  exists rows'. split; [reflexivity|]. split; [assumption|]. split; [|assumption].
  intros k Hk. destruct (decide (k = i)) as [->|Hne]; [assumption|].
  apply Habove'. lia.
Qed.

Lemma fillMatrix_follows_recurrence :
  distanceFilled str1 str2 n1
    (fillMatrix str1 str2 (initFirstRow n2 (initRows n1))).
Proof.
  unfold fillMatrix. fold n1 n2.
  replace n1 with (1 + n1 - 1)%nat at 1 by lia.
  apply (fold_seq_invariant
           (fun m i => fold_left (fun m j => fillCell str1 str2 i j m) (seq 1 n2) m)
           (fun i m => distanceFilled str1 str2 (i - 1) m)).
  - apply distance_initially_filled.
  - intros i m Hi Hm. replace (S i - 1)%nat with i by lia.
    apply fillRow_follows_recurrence; [lia | assumption].
Qed.

Lemma editDistance_levenshtein : editDistance str1 str2 = Some (levenshtein str1 str2).
Proof.
  unfold editDistance, levenshtein. fold n1 n2.
  destruct fillMatrix_follows_recurrence as (rows & -> & Hlen & Hrows & _).
  rewrite aget_dense, (Hrows n1) by lia.
  cbn [fmap option_fmap option_map mbind option_bind].
  rewrite aget_row. apply recurrenceRow_lookup. lia.
Qed.

End Loops.

(** The loops of [stringSimilarity] compute the Levenshtein distance of
    the two strings, for all inputs: the cell [matrix[len1][len2]] is
    always there, so the [return 0] for a missing distance is never
    taken, and the result is [1 - distance / max(len1, len2)]. *)
Theorem stringSimilarity_is_levenshtein (str1 str2 : jsstring) :
  editDistance str1 str2 = Some (levenshtein str1 str2) /\
  stringSimilarity str1 str2
  = (1 - toNumber (levenshtein str1 str2)
         / toNumber (Z.max (Z.of_nat (length str1)) (Z.of_nat (length str2))))%float.
Proof.
  split; [apply editDistance_levenshtein|].
  unfold stringSimilarity. now rewrite editDistance_levenshtein.
Qed.

(** [stringSimilarity] does not depend on the order of its arguments. *)
Theorem stringSimilarity_symmetric (str1 str2 : jsstring) :
  stringSimilarity str1 str2 = stringSimilarity str2 str1.
Proof.
  unfold stringSimilarity. rewrite !editDistance_levenshtein.
  unfold levenshtein. now rewrite prefixDistance_sym, Z.max_comm.
Qed.

(** The distance [stringSimilarity] divides is at least the difference of
    the two lengths, at most the larger of them, and zero exactly when the
    two strings are equal. *)
Theorem editDistance_bounds (str1 str2 : jsstring) :
  exists distance,
    editDistance str1 str2 = Some distance /\
    Z.abs (Z.of_nat (length str1) - Z.of_nat (length str2)) <= distance /\
    distance <= Z.max (Z.of_nat (length str1)) (Z.of_nat (length str2)) /\
    (distance = 0 <-> str1 = str2).
Proof.
  exists (levenshtein str1 str2). split; [apply editDistance_levenshtein|].
  unfold levenshtein.
  pose proof (prefixDistance_bounds str1 str2 (length str1) (length str2)) as [Hlo Hhi].
  split; [assumption|]. split; [assumption|].
  rewrite prefixDistance_zero by lia. now rewrite !firstn_all.
Qed.

(** * More about [verify] *)

(** What the result says about itself.  [verify] reports a success
    exactly when it hands out a mapping; a success has level 1, 2 or 3 and
    a failure has level 4; and the mapping handed out records the level of
    the result, the metadata of the result, the instant of the
    verification, [verifiedBy = 'auto'], and the identifiers and names of
    the two profiles as they were fetched. *)
Theorem verify_success_iff_mapping (toLowerCase : jsstring -> jsstring) (api : Api)
    (now biliUid ytChannelId : jsstring) :
  exists log r,
    verify toLowerCase api now biliUid ytChannelId = (log, Ok r) /\
    match mapping r with
    | Some m =>
        success r = true /\ 1 <= level r <= 3 /\
        verificationLevel m = level r /\
        um_metadata m = Some (vr_metadata r) /\
        verifiedAt m = now /\ um_verifiedBy m = auto /\
        exists biliUser ytChannel,
          getUserInfo api biliUid = Ok biliUser /\
          getChannel api ytChannelId = Ok ytChannel /\
          bilibiliUid m = bu_uid biliUser /\
          bilibiliUsername m = bu_name biliUser /\
          youtubeChannelId m = yc_id ytChannel /\
          youtubeChannelName m = yc_title ytChannel
    | None => success r = false /\ level r = 4
    end.
Proof.
  unfold verify, verifyBody.
  destruct (getUserInfo api biliUid) as [biliUser | e1] eqn:Hu;
    cbn [await bind rejection tryCatch ret].
  2: { do 2 eexists. split; [reflexivity|]. now cbn. }
  destruct (getChannel api ytChannelId) as [ytChannel | e2] eqn:Hc;
    cbn [await bind rejection tryCatch ret app].
  2: { do 2 eexists. split; [reflexivity|]. now cbn. }
  unfold level1.
  destruct (yc_verified ytChannel) as [[|]|];
    [destruct (geq (nameSimilarityOf toLowerCase biliUser ytChannel) 0.8)| |];
    cbn [ret app].
  1: { do 2 eexists. split; [reflexivity|]. cbn.
       repeat split; try lia. exists biliUser, ytChannel. repeat split; assumption. }
  all: destruct (checkBioMatch toLowerCase (bu_sign biliUser) (yc_description ytChannel)
                   biliUid ytChannelId); cbn [ret app].
  all: try (do 2 eexists; split; [reflexivity|]; cbn;
            repeat split; try lia; exists biliUser, ytChannel; repeat split; assumption).
  all: destruct (getUserVideos api biliUid 1 10) as [biliVideos | e3];
    cbn [await bind rejection tryCatch ret app];
    [|do 2 eexists; split; [reflexivity|]; now cbn].
  all: destruct (getChannelVideos api ytChannelId 10) as [ytVideos | e4];
    cbn [await bind rejection tryCatch ret app];
    [|do 2 eexists; split; [reflexivity|]; now cbn].
  all: do 2 eexists; (split; [reflexivity|]).
  all: unfold level3.
  all: match goal with
       | |- context [scoreRatio ?v ?acc] => destruct (scoreRatio v acc) as [conf why]
       end.
  all: destruct (geq conf 0.7); cbn; repeat split; try lia.
  all: exists biliUser, ytChannel; repeat split; assumption.
Qed.

(** In a log whose entries before the last one report no error, an entry
    that reports one is the last. *)
Lemma error_ends_log (log : list event) (i : nat) (f : fetch) (error : exn) :
  log !! i = Some (f, Some error) ->
  Forall (fun ev => ev.2 = None) (removelast log) -> S i = length log.
Proof.
  intros Hi Hall.
  destruct (decide (S i = length log)) as [|Hne]; [assumption|].
  pose proof (lookup_lt_Some _ _ _ Hi) as Hlt.
  destruct log as [|x log _] using rev_ind; [cbn in Hlt; lia|].
  rewrite removelast_last in Hall.
  rewrite length_app in Hne, Hlt. cbn [length] in Hne, Hlt.
  assert (i < length log)%nat as Hi' by lia.
  rewrite lookup_app_l in Hi by exact Hi'.
  eapply Forall_lookup_1 in Hall; [|exact Hi]. discriminate.
Qed.

(** The run is fixed; what is left is what its level says about its log. *)
Ltac fetch_log_facts :=
  do 2 eexists; split; [reflexivity|];
  split; [eexists; reflexivity|];
  split; [intros i f error Hi; eapply error_ends_log; [exact Hi|]; cbn; repeat constructor|].

(** The fetches of one run.  [verify] asks for the source profile, the
    target profile, the source videos and the target videos, in this
    order, and stops at the first fetch that fails; a result of level 1
    or 2 is reached after the two profile fetches alone, a result of
    level 3 after all four. *)
Theorem verify_fetches_in_order (toLowerCase : jsstring -> jsstring) (api : Api)
    (now biliUid ytChannelId : jsstring) :
  exists log r,
    verify toLowerCase api now biliUid ytChannelId = (log, Ok r) /\
    map fst log `prefix_of`
      [GetUserInfo biliUid; GetChannel ytChannelId;
       GetUserVideos biliUid 1 10; GetChannelVideos ytChannelId 10] /\
    (forall i f error, log !! i = Some (f, Some error) -> S i = length log) /\
    (level r = 1 \/ level r = 2 ->
     log = [(GetUserInfo biliUid, None); (GetChannel ytChannelId, None)]) /\
    (level r = 3 -> length log = 4%nat).
Proof.
  unfold verify, verifyBody.
  destruct (getUserInfo api biliUid) as [biliUser | e1];
    cbn [await bind rejection tryCatch ret].
  2: { fetch_log_facts. cbn. split; intros; lia. }
  destruct (getChannel api ytChannelId) as [ytChannel | e2];
    cbn [await bind rejection tryCatch ret app].
  2: { fetch_log_facts. cbn. split; intros; lia. }
  unfold level1.
  destruct (yc_verified ytChannel) as [[|]|];
    [destruct (geq (nameSimilarityOf toLowerCase biliUser ytChannel) 0.8)| |];
    cbn [ret app].
  1: { fetch_log_facts. cbn. split; [reflexivity | intros; lia]. }
  all: destruct (checkBioMatch toLowerCase (bu_sign biliUser) (yc_description ytChannel)
                   biliUid ytChannelId); cbn [ret app].
  all: try (fetch_log_facts; cbn; split; [reflexivity | intros; lia]).
  all: destruct (getUserVideos api biliUid 1 10) as [biliVideos | e3];
    cbn [await bind rejection tryCatch ret app];
    [|fetch_log_facts; cbn; split; intros; lia].
  all: destruct (getChannelVideos api ytChannelId 10) as [ytVideos | e4];
    cbn [await bind rejection tryCatch ret app];
    [|fetch_log_facts; cbn; split; intros; lia].
  all: fetch_log_facts.
  all: split; [|reflexivity].
  all: unfold level3.
  all: match goal with
       | |- context [scoreRatio ?v ?acc] => destruct (scoreRatio v acc) as [conf why]
       end.
  all: destruct (geq conf 0.7); cbn; intros; lia.
Qed.

(** What a level-3 success takes.  The three bonuses are 0.4 or 0.2, 0.3
    or 0.15, and 0.15, and the bar is 0.7: a result of level 3 means that
    all four fetches resolved, that the normalized names are at least 0.8
    similar, that at least one pair of titles matches, and that there are
    three matching pairs or the follower ratio is within bounds.  Its
    confidence is at most 0.85, the confidence of level 2. *)
Theorem level3_needs_name_and_title (toLowerCase : jsstring -> jsstring) (api : Api)
    (now biliUid ytChannelId : jsstring) (log : list event) (r : VerificationResult) :
  verify toLowerCase api now biliUid ytChannelId = (log, Ok r) ->
  level r = 3 ->
  exists biliUser ytChannel biliVideos ytVideos,
    getUserInfo api biliUid = Ok biliUser /\
    getChannel api ytChannelId = Ok ytChannel /\
    getUserVideos api biliUid 1 10 = Ok biliVideos /\
    getChannelVideos api ytChannelId 10 = Ok ytVideos /\
    geq (nameSimilarityOf toLowerCase biliUser ytChannel) 0.8 = true /\
    (1 <= length (matchedPairs toLowerCase biliVideos ytVideos))%nat /\
    ((3 <= length (matchedPairs toLowerCase biliVideos ytVideos))%nat \/
     followerRatioValid biliUser ytChannel = true) /\
    leq (confidence r) 0.85 = true.
Proof.
  unfold verify, verifyBody.
  destruct (getUserInfo api biliUid) as [biliUser | e1];
    cbn [await bind rejection tryCatch ret app].
  2: { intros [= <- <-]. discriminate. }
  destruct (getChannel api ytChannelId) as [ytChannel | e2];
    cbn [await bind rejection tryCatch ret app].
  2: { intros [= <- <-]. discriminate. }
  unfold level1.
  destruct (yc_verified ytChannel) as [[|]|];
    [destruct (geq (nameSimilarityOf toLowerCase biliUser ytChannel) 0.8)| |];
    cbn [ret app].
  1: { intros [= <- <-]. discriminate. }
  all: destruct (checkBioMatch toLowerCase (bu_sign biliUser) (yc_description ytChannel)
                   biliUid ytChannelId); cbn [ret app].
  all: try (intros [= <- <-]; discriminate).
  all: destruct (getUserVideos api biliUid 1 10) as [biliVideos | e3];
    cbn [await bind rejection tryCatch ret app];
    [|intros [= <- <-]; discriminate].
  all: destruct (getChannelVideos api ytChannelId 10) as [ytVideos | e4];
    cbn [await bind rejection tryCatch ret app];
    [|intros [= <- <-]; discriminate].
  all: intros [= <- <-] Hlevel.
  all: exists biliUser, ytChannel, biliVideos, ytVideos.
  all: do 4 (split; [reflexivity|]).
  all: revert Hlevel; unfold level3, scoreRatio, scoreVideos, scoreName.
  all: rewrite countMatchingVideos_pairs.
  all: destruct (geq (nameSimilarityOf toLowerCase biliUser ytChannel) 0.8);
    [|destruct (geq (nameSimilarityOf toLowerCase biliUser ytChannel) 0.6)].
  all: destruct (3 <=? length (matchedPairs toLowerCase biliVideos ytVideos))%nat eqn:H3;
    [|destruct (1 <=? length (matchedPairs toLowerCase biliVideos ytVideos))%nat eqn:H1].
  all: destruct (followerRatioValid biliUser ytChannel).
  all: cbn; try discriminate; intros _.
  all: try apply Nat.leb_le in H3; try apply Nat.leb_le in H1.
  all: repeat split; try reflexivity; try lia; auto.
Qed.

(** A run of [level3_needs_name_and_title]: the similar-profiles scenario
    of the test suite. *)
Lemma level3_needs_name_and_title_witness :
  exists biliUser ytChannel biliVideos ytVideos,
    getUserInfo (Sample.similarApi (Some 8000%float)) (js "123456") = Ok biliUser /\
    getChannel (Sample.similarApi (Some 8000%float)) (js "UCtest") = Ok ytChannel /\
    getUserVideos (Sample.similarApi (Some 8000%float)) (js "123456") 1 10
    = Ok biliVideos /\
    getChannelVideos (Sample.similarApi (Some 8000%float)) (js "UCtest") 10
    = Ok ytVideos /\
    geq (nameSimilarityOf asciiLower biliUser ytChannel) 0.8 = true /\
    (1 <= length (matchedPairs asciiLower biliVideos ytVideos))%nat /\
    ((3 <= length (matchedPairs asciiLower biliVideos ytVideos))%nat \/
     followerRatioValid biliUser ytChannel = true) /\
    leq (confidence
           (level3 asciiLower Sample.now (Sample.biliUser "TestUser" "Regular bio")
              (Sample.ytChannel "UCtest" "TestUser" "Regular description"
                 (Some 8000%float) false)
              1%float (map Sample.biliVideo Sample.threeTitles)
              (map Sample.ytVideo Sample.threeTitles)
              (withUsernameSimilarity 1%float
                 (withBioMatch false
                    (initialMetadata (Sample.biliUser "TestUser" "Regular bio")
                       (Sample.ytChannel "UCtest" "TestUser" "Regular description"
                          (Some 8000%float) false)))))) 0.85 = true.
Proof.
  eapply (level3_needs_name_and_title asciiLower (Sample.similarApi (Some 8000%float))
            Sample.now (js "123456") (js "UCtest")).
  - vm_compute. reflexivity.
  - reflexivity.
Defined.

(** ** [normalizeUsername] *)

Lemma stripTokens_sublist (skip : nat) (s : jsstring) : stripTokens skip s `sublist_of` s.
Proof.
  revert skip. induction s as [|c s IH]; intros skip; cbn [stripTokens].
  - constructor.
  - destruct skip as [|k].
    + destruct (find (fun tok => matchesAt tok (c :: s)) suffixTokens).
      * apply sublist_cons, IH.
      * apply sublist_skip, IH.
    + apply sublist_cons, IH.
Qed.

Lemma Forall_sublist {A} (P : A -> Prop) (l1 l2 : list A) :
  l1 `sublist_of` l2 -> Forall P l2 -> Forall P l1.
Proof.
  induction 1 as [|x l1 l2 _ IH|x l1 l2 _ IH]; intros Hall.
  - constructor.
  - apply Forall_cons in Hall as [Hx Hall]. constructor; auto.
  - apply Forall_cons in Hall as [_ Hall]. auto.
Qed.

(** The normalized name is made of code units of the lower-cased name, in
    their order, and none of them is an underscore, a hyphen or white
    space. *)
Theorem normalizeUsername_drops_separators (toLowerCase : jsstring -> jsstring)
    (username : jsstring) :
  normalizeUsername toLowerCase username `sublist_of` toLowerCase username /\
  Forall (fun c => isSeparator c = false) (normalizeUsername toLowerCase username).
Proof.
  unfold normalizeUsername.
  set (kept := filter (fun c => negb (isSeparator c)) (toLowerCase username)).
  assert (kept `sublist_of` toLowerCase username) as Hkept
    by apply sublist_filter.
  assert (Forall (fun c => isSeparator c = false) kept) as Hclean.
  { apply Forall_forall. intros c Hc. apply list_elem_of_filter in Hc as [Hc _].
    now destruct (isSeparator c). }
  split.
  - etransitivity; [apply stripTokens_sublist | exact Hkept].
  - eapply Forall_sublist; [apply stripTokens_sublist | exact Hclean].
Qed.

(** * More about the shard store *)

Section ShardFrame.

Variable config : ShardConfig.
Variable baseDir : jsstring.

(** [writeMapping] touches the shard file and the marker file of its
    directory, whether it succeeds or fails half way. *)
Lemma writeMapping_elsewhere fs userId mapping key :
  key <> collapse (getFullPath config baseDir userId) ->
  key <> collapse (getShardDir config baseDir userId ++ js "/.gitkeep") ->
  (writeMapping config baseDir fs userId mapping).2 !! key = fs !! key.
Proof.
  intros Hfile Hkeep. unfold writeMapping.
  destruct (bunWrite fs _ _) as [fs1|] eqn:E1; [|reflexivity].
  apply bunWrite_ok in E1 as [-> _].
  destruct (bunWrite _ (getFullPath config baseDir userId) _) as [fs2|] eqn:E2.
  - apply bunWrite_ok in E2 as [-> _]. cbn [snd].
    now rewrite !lookup_insert_ne by congruence.
  - cbn [snd]. now rewrite lookup_insert_ne by congruence.
Qed.

Lemma deleteMapping_elsewhere fs userId key :
  key <> collapse (getFullPath config baseDir userId) ->
  (deleteMapping config baseDir fs userId).2 !! key = fs !! key.
Proof.
  intros Hfile. unfold deleteMapping.
  destruct (bunWrite fs _ _) as [fs1|] eqn:E1; [|reflexivity].
  apply bunWrite_ok in E1 as [-> _]. cbn [snd].
  now rewrite lookup_insert_ne by congruence.
Qed.

Lemma writeIndex_elsewhere fs index key :
  key <> collapse (baseDir ++ js "/index.json") ->
  (writeIndex baseDir fs index).2 !! key = fs !! key.
Proof.
  intros Hfile. unfold writeIndex.
  destruct (bunWrite fs _ _) as [fs1|] eqn:E1; [|reflexivity].
  apply bunWrite_ok in E1 as [-> _]. cbn [snd].
  now rewrite lookup_insert_ne by congruence.
Qed.

(** What the reads of a manager depend on. *)
Lemma readMapping_same_file fs fs' userId :
  fileAt fs' (getFullPath config baseDir userId) = fileAt fs (getFullPath config baseDir userId)
  ->
  readMapping config baseDir fs' userId = readMapping config baseDir fs userId /\
  hasMapping config baseDir fs' userId = hasMapping config baseDir fs userId.
Proof.
  intros H. unfold hasMapping, fileExists. rewrite !readMapping_cases, H. auto.
Qed.

Lemma readIndex_same_file fs fs' :
  fileAt fs' (baseDir ++ js "/index.json") = fileAt fs (baseDir ++ js "/index.json") ->
  readIndex baseDir fs' = readIndex baseDir fs.
Proof. intros H. unfold readIndex, fileExists, fileJson. now rewrite H. Qed.

End ShardFrame.

(** Writing or deleting the mapping of one identifier, whether it succeeds
    or fails, changes nothing for an identifier stored under another shard
    path, and nothing for the index file: [readMapping] and [hasMapping]
    of the other identifier and [readIndex] answer as before. *)
Theorem mapping_writes_leave_other_shards (config : ShardConfig) (baseDir : jsstring)
    (fs : disk) (userId other : jsstring) (mapping : UserMapping) :
  getShardPath config other <> getShardPath config userId ->
  (readMapping config baseDir (writeMapping config baseDir fs userId mapping).2 other
   = readMapping config baseDir fs other /\
   hasMapping config baseDir (writeMapping config baseDir fs userId mapping).2 other
   = hasMapping config baseDir fs other /\
   readIndex baseDir (writeMapping config baseDir fs userId mapping).2
   = readIndex baseDir fs) /\
  (readMapping config baseDir (deleteMapping config baseDir fs userId).2 other
   = readMapping config baseDir fs other /\
   hasMapping config baseDir (deleteMapping config baseDir fs userId).2 other
   = hasMapping config baseDir fs other /\
   readIndex baseDir (deleteMapping config baseDir fs userId).2
   = readIndex baseDir fs).
Proof.
  intros Hother.
  assert (collapse (getFullPath config baseDir other)
          <> collapse (getFullPath config baseDir userId)) as Hfile
    by now apply fullPath_other_file.
  split.
  - destruct (readMapping_same_file config baseDir fs
                (writeMapping config baseDir fs userId mapping).2 other) as [Hr Hh].
    { apply writeMapping_elsewhere; [assumption|].
      intros E. symmetry in E. revert E. apply gitkeep_is_not_a_mapping_file. }
    split; [assumption|]. split; [assumption|].
    apply readIndex_same_file, writeMapping_elsewhere.
    + intros E. symmetry in E. revert E. apply fullPath_is_not_index.
    + intros E. symmetry in E. revert E. apply gitkeep_is_not_index.
  - destruct (readMapping_same_file config baseDir fs
                (deleteMapping config baseDir fs userId).2 other) as [Hr Hh].
    { now apply deleteMapping_elsewhere. }
    split; [assumption|]. split; [assumption|].
    apply readIndex_same_file, deleteMapping_elsewhere.
    intros E. symmetry in E. revert E. apply fullPath_is_not_index.
Qed.

(** A run of [mapping_writes_leave_other_shards]: the identifiers "111"
    and "222" of the test suite, in a store that holds the mapping of
    "222". *)
Lemma mapping_writes_leave_other_shards_witness :
  (readMapping DEFAULT_SHARD_CONFIG SampleStore.baseDir
     (writeMapping DEFAULT_SHARD_CONFIG SampleStore.baseDir SampleShards.holding222 (js "111")
        (SampleStore.mappingOf "111" "User1" "UC1" noMetadata)).2 (js "222")
   = readMapping DEFAULT_SHARD_CONFIG SampleStore.baseDir SampleShards.holding222 (js "222") /\
   hasMapping DEFAULT_SHARD_CONFIG SampleStore.baseDir
     (writeMapping DEFAULT_SHARD_CONFIG SampleStore.baseDir SampleShards.holding222 (js "111")
        (SampleStore.mappingOf "111" "User1" "UC1" noMetadata)).2 (js "222")
   = hasMapping DEFAULT_SHARD_CONFIG SampleStore.baseDir SampleShards.holding222 (js "222") /\
   readIndex SampleStore.baseDir
     (writeMapping DEFAULT_SHARD_CONFIG SampleStore.baseDir SampleShards.holding222 (js "111")
        (SampleStore.mappingOf "111" "User1" "UC1" noMetadata)).2
   = readIndex SampleStore.baseDir SampleShards.holding222) /\
  (readMapping DEFAULT_SHARD_CONFIG SampleStore.baseDir
     (deleteMapping DEFAULT_SHARD_CONFIG SampleStore.baseDir SampleShards.holding222 (js "111")).2 (js "222")
   = readMapping DEFAULT_SHARD_CONFIG SampleStore.baseDir SampleShards.holding222 (js "222") /\
   hasMapping DEFAULT_SHARD_CONFIG SampleStore.baseDir
     (deleteMapping DEFAULT_SHARD_CONFIG SampleStore.baseDir SampleShards.holding222 (js "111")).2 (js "222")
   = hasMapping DEFAULT_SHARD_CONFIG SampleStore.baseDir SampleShards.holding222 (js "222") /\
   readIndex SampleStore.baseDir
     (deleteMapping DEFAULT_SHARD_CONFIG SampleStore.baseDir SampleShards.holding222 (js "111")).2
   = readIndex SampleStore.baseDir SampleShards.holding222).
Proof.
  apply (mapping_writes_leave_other_shards DEFAULT_SHARD_CONFIG SampleStore.baseDir
           SampleShards.holding222
           (js "111") (js "222")).
  vm_compute. discriminate.
Defined.

(** The index file round trip.  After a successful [writeIndex],
    [readIndex] returns the index written, and every mapping reads as
    before. *)
Theorem writeIndex_then_readIndex (config : ShardConfig) (baseDir : jsstring)
    (fs fs' : disk) (index : MappingIndex) :
  writeIndex baseDir fs index = (Ok tt, fs') ->
  readIndex baseDir fs' = Ok (Some (JIndex index)) /\
  forall userId,
    readMapping config baseDir fs' userId = readMapping config baseDir fs userId /\
    hasMapping config baseDir fs' userId = hasMapping config baseDir fs userId.
Proof.
  intros Hw. split.
  - revert Hw. unfold writeIndex.
    destruct (bunWrite fs _ _) as [fs1|] eqn:E1; [|discriminate].
    intros [= <-]. apply bunWrite_ok in E1 as [-> _].
    unfold readIndex, fileExists, fileJson. now rewrite fileAt_written.
  - intros userId. apply readMapping_same_file.
    replace fs' with (writeIndex baseDir fs index).2 by now rewrite Hw.
    apply writeIndex_elsewhere, fullPath_is_not_index.
Qed.

(** A run of [writeIndex_then_readIndex]. *)
Lemma writeIndex_then_readIndex_witness :
  readIndex SampleStore.baseDir
    (writeIndex SampleStore.baseDir SampleShards.holding222 SampleShards.index222).2
  = Ok (Some (JIndex SampleShards.index222)) /\
  forall userId,
    readMapping DEFAULT_SHARD_CONFIG SampleStore.baseDir
      (writeIndex SampleStore.baseDir SampleShards.holding222 SampleShards.index222).2 userId
    = readMapping DEFAULT_SHARD_CONFIG SampleStore.baseDir SampleShards.holding222 userId /\
    hasMapping DEFAULT_SHARD_CONFIG SampleStore.baseDir
      (writeIndex SampleStore.baseDir SampleShards.holding222 SampleShards.index222).2 userId
    = hasMapping DEFAULT_SHARD_CONFIG SampleStore.baseDir SampleShards.holding222 userId.
Proof.
  apply (writeIndex_then_readIndex DEFAULT_SHARD_CONFIG SampleStore.baseDir
           SampleShards.holding222).
  reflexivity.
Defined.

(** ** What [buildIndex] holds *)

Section IndexContent.

Variable baseDir : jsstring.

Lemma fileKeys_indexed (fs : disk) (filePath k : jsstring) :
  filePath ∈ scan baseDir fs -> k ∈ fileKeys baseDir fs filePath ->
  exists d, indexed baseDir fs filePath d /\ k ∈ documentKeys d.
Proof.
  intros Hscan Hk. apply elem_of_scan in Hscan as [_ Hglob].
  pose proof (fileKeys_not_index _ _ _ _ Hk) as Hidx.
  unfold fileKeys in Hk. case_decide; [contradiction|].
  unfold fileJson in Hk.
  destruct (fileAt fs (baseDir ++ js "/" ++ filePath)) as [[[d|t]|]|] eqn:E;
    try (now apply elem_of_nil in Hk).
  apply list_elem_of_filter in Hk as [_ Hk].
  exists d. repeat split; assumption.
Qed.

Lemma indexed_fileKeys (fs : disk) (filePath : jsstring) (d : json) :
  indexed baseDir fs filePath d ->
  filePath ∈ scan baseDir fs /\
  fileKeys baseDir fs filePath = filter (fun k => k <> js "__proto__") (documentKeys d).
Proof.
  intros (Hglob & Hidx & Hfile). split.
  - apply elem_of_scan. split; [rewrite Hfile; eauto | assumption].
  - unfold fileKeys. case_decide; [contradiction|].
    unfold fileJson. now rewrite Hfile.
Qed.

End IndexContent.

(** The keys of a rebuilt index are the identifiers, other than
    [__proto__], held by the scanned files that parse, and each key leads
    to a file that holds it: files that do not parse or cannot be read
    contribute nothing, the top-level [index.json] is not scanned, and an
    identifier [__proto__] is never a key. *)
Theorem buildIndex_sound_complete (baseDir : jsstring) (fs : disk) (k : jsstring) :
  (is_Some (buildIndex baseDir fs !! k) <->
   k <> js "__proto__" /\
   exists filePath d, indexed baseDir fs filePath d /\ k ∈ documentKeys d) /\
  (forall filePath, buildIndex baseDir fs !! k = Some filePath ->
     exists d, indexed baseDir fs filePath d /\ k ∈ documentKeys d).
Proof.
  assert (forall filePath, buildIndex baseDir fs !! k = Some filePath ->
            k <> js "__proto__" /\
            exists d, indexed baseDir fs filePath d /\ k ∈ documentKeys d) as Hsound.
  { intros filePath H. unfold buildIndex in H.
    apply fold_indexFile_sound in H as [H | [Hscan Hkeys]].
    - rewrite lookup_empty in H. discriminate.
    - split; [now apply fileKeys_not_proto in Hkeys | now apply fileKeys_indexed]. }
  split; [|intros filePath H; now apply Hsound]. split.
  - intros [filePath H]. apply Hsound in H as [Hproto H]. eauto.
  - intros (Hproto & filePath & d & Hd & Hk).
    apply indexed_fileKeys in Hd as [Hscan Hkeys].
    unfold buildIndex. apply fold_indexFile_complete with (path := filePath); [assumption|].
    rewrite Hkeys. now apply list_elem_of_filter.
Qed.

(** After [deleteMapping] the rebuilt index has no entry that leads to
    the emptied shard file, whether under the shard path or under the
    path the scan reports for it. *)
Theorem deleted_mapping_leaves_index (config : ShardConfig) (baseDir : jsstring)
    (fs fs' : disk) (userId k : jsstring) :
  deleteMapping config baseDir fs userId = (Ok tt, fs') ->
  buildIndex baseDir fs' !! k <> Some (getShardPath config userId) /\
  buildIndex baseDir fs' !! k <> Some (relativePath (getShardPath config userId)).
Proof.
  intros Hd.
  assert (fileAt fs' (getFullPath config baseDir userId) = Some (File (NotJson [])))
    as Hfile.
  { revert Hd. unfold deleteMapping.
    destruct (bunWrite fs _ _) as [fs1|] eqn:E1; [|discriminate].
    intros [= <-]. apply bunWrite_ok in E1 as [-> _]. apply fileAt_written. }
  assert (forall path, path ∈ scan baseDir fs' ->
            collapse (baseDir ++ js "/" ++ path) = collapse (getFullPath config baseDir userId) ->
            fileKeys baseDir fs' path = []) as Hempty.
  { intros path _ Hsame. unfold fileKeys, fileJson, fileAt in *.
    case_decide; [reflexivity|]. now rewrite Hsame, Hfile. }
  split; intros Hk; unfold buildIndex in Hk;
    apply fold_indexFile_sound in Hk as [Hk | [Hscan Hkeys]];
    try (rewrite lookup_empty in Hk; discriminate).
  - rewrite Hempty in Hkeys; [now apply elem_of_nil in Hkeys | assumption | reflexivity].
  - rewrite Hempty in Hkeys; [now apply elem_of_nil in Hkeys | assumption |].
    apply elem_of_scan in Hscan as [_ Hglob].
    now rewrite scanned_file, fullPath_collapse.
Qed.

(** A run of [deleted_mapping_leaves_index]: the mapping of "222" is
    deleted, and the index rebuilt afterwards is empty. *)
Lemma deleted_mapping_leaves_index_witness :
  (buildIndex SampleStore.baseDir
     (deleteMapping DEFAULT_SHARD_CONFIG SampleStore.baseDir SampleShards.holding222
        (js "222")).2 !! js "222"
   <> Some (getShardPath DEFAULT_SHARD_CONFIG (js "222")) /\
   buildIndex SampleStore.baseDir
     (deleteMapping DEFAULT_SHARD_CONFIG SampleStore.baseDir SampleShards.holding222
        (js "222")).2 !! js "222"
   <> Some (relativePath (getShardPath DEFAULT_SHARD_CONFIG (js "222")))) /\
  buildIndex SampleStore.baseDir SampleShards.holding222 !! js "222"
  = Some (getShardPath DEFAULT_SHARD_CONFIG (js "222")).
Proof.
  split.
  - apply (deleted_mapping_leaves_index DEFAULT_SHARD_CONFIG SampleStore.baseDir
             SampleShards.holding222).
    reflexivity.
  - vm_compute. reflexivity.
Defined.

(** ** The two directions *)

(** The files a writing call can touch lie under the directory of its
    manager. *)
Lemma perform_elsewhere (m : ShardManager) (fs : disk) (op : operation) (key : jsstring) :
  (forall rest, key <> collapse (sm_baseDir m ++ js "/" ++ rest)) ->
  (perform m fs op).2 !! key = fs !! key.
Proof.
  intros Hout. destruct op as [userId mapping | userId | index]; cbn [perform].
  - apply writeMapping_elsewhere.
    + apply Hout.
    + unfold getShardDir. cbv zeta. rewrite <- !app_assoc. apply Hout.
  - apply deleteMapping_elsewhere, Hout.
  - apply writeIndex_elsewhere.
    change (sm_baseDir m ++ js "/index.json") with (sm_baseDir m ++ js "/" ++ js "index.json").
    apply Hout.
Qed.

Lemma reads_same_files (m : ShardManager) (fs fs' : disk) (userId : jsstring) :
  (forall rest, fileAt fs' (sm_baseDir m ++ js "/" ++ rest)
                = fileAt fs (sm_baseDir m ++ js "/" ++ rest)) ->
  reads m fs' userId = reads m fs userId.
Proof.
  intros Hsame. unfold reads.
  destruct (readMapping_same_file (sm_config m) (sm_baseDir m) fs fs' userId) as [-> ->].
  { apply Hsame. }
  rewrite (readIndex_same_file (sm_baseDir m) fs fs'); [reflexivity|].
  apply (Hsame (js "index.json")).
Qed.

(** No file lies under both directions: the directory names [b2y] and
    [y2b] differ, however the slashes around them collapse. *)
Lemma directions_apart (dataDir : jsstring) (name name' rest rest' : jsstring) :
  Forall (fun c => c <> 47%N) name -> Forall (fun c => c <> 47%N) name' ->
  head name <> head name' -> name <> [] -> name' <> [] ->
  collapse ((dataDir ++ js "/" ++ name) ++ js "/" ++ rest)
  <> collapse ((dataDir ++ js "/" ++ name') ++ js "/" ++ rest').
Proof.
  intros Hname Hname' Hhead Hne Hne' E.
  rewrite <- !app_assoc in E.
  change (dataDir ++ js "/" ++ name ++ js "/" ++ rest)
    with (dataDir ++ 47%N :: (name ++ 47%N :: rest)) in E.
  change (dataDir ++ js "/" ++ name' ++ js "/" ++ rest')
    with (dataDir ++ 47%N :: (name' ++ 47%N :: rest')) in E.
  rewrite (collapse_under dataDir (name ++ 47%N :: rest)) in E.
  rewrite (collapse_under dataDir (name' ++ 47%N :: rest')) in E.
  apply app_inv_head in E.
  rewrite !relativePath_dir in E by assumption.
  destruct name as [|c name]; [contradiction|].
  destruct name' as [|c' name']; [contradiction|].
  apply (f_equal head) in E. cbn [head app] in E. now apply Hhead.
Qed.

(** The managers [createShardManagers] returns for the two directions do
    not interfere: whatever one of them writes, deletes or indexes, with
    or without success, the other one reads every mapping and its index as
    before. *)
Theorem shard_managers_do_not_interfere (dataDir : jsstring) (fs : disk)
    (op : operation) (userId : jsstring) :
  reads (y2b (createShardManagers dataDir))
    (perform (b2y (createShardManagers dataDir)) fs op).2 userId
  = reads (y2b (createShardManagers dataDir)) fs userId /\
  reads (b2y (createShardManagers dataDir))
    (perform (y2b (createShardManagers dataDir)) fs op).2 userId
  = reads (b2y (createShardManagers dataDir)) fs userId.
Proof.
  split; apply reads_same_files; intros rest; apply perform_elsewhere; intros rest';
    cbn [createShardManagers newShardManager b2y y2b sm_baseDir];
    [ change (dataDir ++ js "/y2b") with (dataDir ++ js "/" ++ js "y2b");
      change (dataDir ++ js "/b2y") with (dataDir ++ js "/" ++ js "b2y")
    | change (dataDir ++ js "/b2y") with (dataDir ++ js "/" ++ js "b2y");
      change (dataDir ++ js "/y2b") with (dataDir ++ js "/" ++ js "y2b") ];
    apply directions_apart;
    solve [ cbn; repeat constructor; lia | cbn; congruence | discriminate ].
Qed.

(** ** Which identifiers share a shard file *)

(** Two identifiers are stored in the same shard file exactly when the
    first [hashLength] hex digits of their SHA-256 digests agree: then
    and only then [getFullPath] gives the same path for both, and then
    and only then the two paths name one file.  Each one then reads what
    was last written for the other: after a successful [writeMapping] for
    one of them, [readMapping] of the other returns the document just
    written and [hasMapping] of the other is true. *)
Theorem same_hash_same_shard_file (config : ShardConfig) (baseDir : jsstring)
    (userId other : jsstring) :
  (getFullPath config baseDir userId = getFullPath config baseDir other
   <-> hash config userId = hash config other) /\
  (collapse (getFullPath config baseDir userId) = collapse (getFullPath config baseDir other)
   <-> hash config userId = hash config other) /\
  (forall (fs fs' : disk) (mapping : UserMapping),
     hash config userId = hash config other ->
     writeMapping config baseDir fs userId mapping = (Ok tt, fs') ->
     readMapping config baseDir fs' other = Ok (Some (JMapping (jsonMapping mapping))) /\
     hasMapping config baseDir fs' other = true).
Proof.
  assert (getFullPath config baseDir userId = getFullPath config baseDir other
          <-> hash config userId = hash config other) as Hiff.
  { rewrite <- (shardPath_eq_iff_hash config). split; [apply fullPath_inj|].
    unfold getFullPath. now intros ->. }
  split; [exact Hiff|]. split.
  { split; [apply fullPath_same_file|]. intros H. apply Hiff in H. now rewrite H. }
  intros fs fs' mapping Hhash Hwrite.
  apply Hiff in Hhash.
  pose proof (writeMapping_lookup config baseDir fs userId mapping fs' Hwrite) as Hfile.
  rewrite Hhash in Hfile.
  rewrite readMapping_cases. unfold hasMapping, fileExists. rewrite Hfile. split; reflexivity.
Qed.

(** * The rate limiter drains its queue *)

(** Liveness.  After any sequence of [execute] calls, settlements and
    timer expiries, once the tasks still to run have settled and the
    delays have elapsed, the limiter is idle with [processing = false] and
    an empty queue, and the promise of every [execute] call has been
    settled with the outcome of its own task: a task that rejects does not
    keep the tasks queued behind it from running. *)
Theorem rate_limiter_drains (T : Type) (inputs : list (input T)) :
  exists rounds,
    suspended (run (inputs ++ cycles rounds)).1 = Idle /\
    processing (run (inputs ++ cycles rounds)).1 = false /\
    queue (run (inputs ++ cycles rounds)).1 = [] /\
    forall n task, submissions inputs !! n = Some task ->
      exists o, o ∈ (run (inputs ++ cycles rounds)).2 /\ outcomeOf o = Some (n, task).
Proof.
  destruct (run_drained T inputs (S (length (queue (run inputs).1))) ltac:(lia))
    as (Hidle & Hproc & Hempty & _ & Hout).
  eauto 10.
Qed.

(** ** Calls awaited one after the other *)

Lemma run_awaitedCall (T : Type) (inputs : list (input T)) (task : result T) :
  queue (run inputs).1 = [] ->
  suspended (run inputs).1 = Idle /\ processing (run inputs).1 = false \/
  suspended (run inputs).1 = Sleeping /\ processing (run inputs).1 = true ->
  exists l,
    run (inputs ++ awaitedCall task)
    = (l, (run inputs).2
          ++ (if processing (run inputs).1
              then [Submitted (issued (run inputs).1); Slept;
                    Started (issued (run inputs).1)]
              else [Submitted (issued (run inputs).1);
                    Started (issued (run inputs).1)])
          ++ [settle {| ticket := issued (run inputs).1; fn := task |}]) /\
    queue l = [] /\ suspended l = Sleeping /\ processing l = true /\
    issued l = S (issued (run inputs).1).
Proof.
  intros Hqueue Hphase. unfold awaitedCall.
  change (inputs ++ [Execute task; DelayElapses; TaskSettles])
    with (inputs ++ [Execute task] ++ [DelayElapses] ++ [TaskSettles]).
  rewrite !app_assoc, !run_snoc.
  destruct (run inputs) as [l log]. cbn [fst snd] in *.
  destruct l as [q p ph n]. cbn [queue suspended processing issued] in *. subst q.
  destruct Hphase as [[-> ->] | [-> ->]]; cbn; rewrite ?app_nil_r, <- ?app_assoc; cbn.
  - eexists. split; [reflexivity|]. cbn. auto.
  - eexists. split; [reflexivity|]. cbn. auto.
Qed.

(** What a sequence of awaited calls leaves: the limiter between two calls,
    and the log. *)
Lemma awaited_calls_invariant (T : Type) (tasks : list (result T)) :
  queue (run (flat_map awaitedCall tasks)).1 = [] /\
  (suspended (run (flat_map awaitedCall tasks)).1 = Idle /\
   processing (run (flat_map awaitedCall tasks)).1 = false \/
   suspended (run (flat_map awaitedCall tasks)).1 = Sleeping /\
   processing (run (flat_map awaitedCall tasks)).1 = true) /\
  issued (run (flat_map awaitedCall tasks)).1 = length tasks /\
  settlements (run (flat_map awaitedCall tasks)).2 = imap (fun n task => (n, task)) tasks /\
  startedCalls (run (flat_map awaitedCall tasks)).2 = seq 0 (length tasks).
Proof.
  induction tasks as [|task tasks IH] using rev_ind.
  - cbn. auto.
  - destruct IH as (Hq & Hphase & Hissued & Hsettled & Hstarted).
    rewrite flat_map_app. cbn [flat_map]. rewrite app_nil_r.
    destruct (run_awaitedCall T (flat_map awaitedCall tasks) task Hq Hphase)
      as (l & -> & Hq' & Hs' & Hp' & Hi').
    cbn [fst snd]. rewrite length_app. cbn [length].
    split; [assumption|]. split; [auto|]. split; [lia|].
    rewrite Hissued in *. unfold settlements in *.
    rewrite !omap_app, Hsettled, imap_app. unfold startedCalls in *.
    rewrite !omap_app, Hstarted, Nat.add_1_r, seq_S.
    cbn [imap]. rewrite Nat.add_0_r.
    destruct (processing (run (flat_map awaitedCall tasks)).1); cbn;
      unfold settle; cbn; destruct task; cbn; auto.
Qed.

(** Calls awaited one after the other, as the scanner makes them.  When
    every [execute(task)] is awaited before the next call, each task is
    started in its turn, the promise of each call is settled with the
    outcome of its own task, in the order of the calls, and between two
    calls nothing is left in the queue. *)
Theorem awaited_calls_return_their_outcomes (T : Type) (tasks : list (result T)) :
  settlements (run (flat_map awaitedCall tasks)).2 = imap (fun n task => (n, task)) tasks /\
  startedCalls (run (flat_map awaitedCall tasks)).2 = seq 0 (length tasks) /\
  queue (run (flat_map awaitedCall tasks)).1 = [].
Proof.
  destruct (awaited_calls_invariant T tasks) as (Hq & _ & _ & Hsettled & Hstarted). auto.
Qed.

(** * The identifiers the content scripts extract *)

Example extraction_samples :
  getBilibiliUid (js "https://space.bilibili.com/123456?from=search") = Some (js "123456") /\
  getBilibiliUid (js "https://www.bilibili.com/video/BV1xx") = None /\
  getYouTubeChannelId (js "https://www.youtube.com/@SomeOne/videos") None
  = Some (js "SomeOne") /\
  getYouTubeChannelId (js "https://www.youtube.com/channel/UCabc") None
  = Some (js "hannel") /\
  getYouTubeChannelId (js "https://www.youtube.com/c/SomeOne") None = None /\
  getYouTubeChannelId (js "https://www.youtube.com/user/SomeOne") None = None /\
  getYouTubeChannelId (js "https://www.youtube.com/watch?v=abc")
    (Some (js "https://www.youtube.com/channel/UCabc-1_2")) = Some (js "UCabc-1_2") /\
  getVideoId (js "https://www.youtube.com/watch?v=abc&t=1") = Some (js "abc") /\
  test bilibiliUidPattern (js "123456") = true /\
  test bilibiliUidPattern (js "12a") = false /\
  test youtubeChannelIdPattern (js "UCabcdefghijklmnopqrstuv") = true /\
  test youtubeChannelIdPattern (js "UCabc") = false.
Proof. repeat split; vm_compute; reflexivity. Qed.

(** ** The matcher *)

Lemma startsWith_split (p s : jsstring) :
  startsWith p s = true -> s = p ++ drop (length p) s.
Proof.
  revert s. induction p as [|a p IH]; intros s H; [reflexivity|].
  destruct s as [|c s]; [discriminate|]. cbn in H.
  apply andb_prop in H as [Hac H]. apply N.eqb_eq in Hac as ->.
  cbn. f_equal. now apply IH.
Qed.

Lemma includes_middle (before p after : jsstring) :
  includes (before ++ p ++ after) p = true.
Proof.
  induction before as [|c before IH]; cbn [app].
  - destruct (p ++ after) eqn:E; cbn [includes]; rewrite <- E, startsWith_app; reflexivity.
  - cbn [includes]. rewrite IH. apply orb_true_r.
Qed.

Section MatcherFacts.

Context {R : Type}.

(** What [cls+] consumed when the match went through. *)
Lemma oneOrMore_inv (cls : N -> bool) (offset : nat) (s : jsstring)
    (k : nat -> jsstring -> option R) (r : R) :
  oneOrMore cls offset s k = Some r ->
  exists run rest,
    s = run ++ rest /\ run <> [] /\ Forall (fun c => cls c = true) run /\
    k (offset + length run)%nat rest = Some r.
Proof.
  revert offset. induction s as [|c s IH]; intros offset H; [discriminate|].
  cbn [oneOrMore] in H. destruct (cls c) eqn:Hc; [|discriminate].
  destruct (oneOrMore cls (S offset) s k) as [r'|] eqn:Hrest.
  - injection H as ->. apply IH in Hrest as (run & rest & -> & _ & Hall & Hk).
    exists (c :: run), rest. split; [reflexivity|]. split; [discriminate|].
    split; [now constructor|]. cbn [length]. now rewrite Nat.add_succ_r.
  - exists [c], s. split; [reflexivity|]. split; [discriminate|].
    split; [repeat constructor; assumption|]. cbn [length]. now rewrite Nat.add_1_r.
Qed.

(** [cls+] takes a whole run when the rest of the pattern accepts that. *)
Lemma oneOrMore_whole (cls : N -> bool) (offset : nat) (run : jsstring)
    (k : nat -> jsstring -> option R) (r : R) :
  run <> [] -> Forall (fun c => cls c = true) run ->
  k (offset + length run)%nat [] = Some r ->
  oneOrMore cls offset run k = Some r.
Proof.
  revert offset. induction run as [|c run IH]; intros offset Hne Hall Hk; [contradiction|].
  apply Forall_cons in Hall as [Hc Hall]. cbn [oneOrMore]. rewrite Hc.
  cbn [length] in Hk. rewrite Nat.add_succ_r in Hk.
  destruct run as [|d run].
  - cbn [oneOrMore]. now rewrite Nat.add_0_r in Hk.
  - rewrite (IH (S offset)); [reflexivity | discriminate | assumption | exact Hk].
Qed.

End MatcherFacts.

(** Where a match found by the search starts. *)
Lemma searchFrom_inv (r : regex) (offset : nat) (s : jsstring) (caps : captures) :
  searchFrom r offset s = Some caps ->
  exists skipped rest,
    s = skipped ++ rest /\ matchAt r (offset + length skipped) rest = Some caps.
Proof.
  revert offset. induction s as [|c s IH]; intros offset H; cbn [searchFrom] in H.
  - destruct (matchAt r offset []) eqn:E; [|discriminate]. injection H as ->.
    exists [], []. now rewrite Nat.add_0_r.
  - destruct (matchAt r offset (c :: s)) eqn:E.
    + injection H as ->. exists [], (c :: s). now rewrite Nat.add_0_r.
    + apply IH in H as (skipped & rest & -> & Hm).
      exists (c :: skipped), rest. split; [reflexivity|].
      cbn [length]. now rewrite Nat.add_succ_r.
Qed.

(** ** [getBilibiliUid] *)

(** An identifier [getBilibiliUid] reads off the address is a non-empty
    run of digits that follows [space.bilibili.com/] there, and the
    submission schema accepts it as a [bilibiliUid]. *)
Theorem getBilibiliUid_is_valid (href uid : jsstring) :
  getBilibiliUid href = Some uid ->
  uid <> [] /\ Forall (fun c => isDigit c = true) uid /\
  includes href (js "space.bilibili.com/" ++ uid) = true /\
  test bilibiliUidPattern uid = true.
Proof.
  unfold getBilibiliUid, exec.
  destruct (searchFrom spacePattern 0 href) as [caps|] eqn:Hsearch; [|discriminate].
  intros Huid.
  apply searchFrom_inv in Hsearch as (skipped & rest & -> & Hm).
  unfold matchAt, spacePattern in Hm. cbn [matchFrom] in Hm.
  destruct (startsWith (js "space.bilibili.com/") rest) eqn:Hlit; [|discriminate].
  apply startsWith_split in Hlit.
  change (length (js "space.bilibili.com/")) with 19%nat in *.
  remember (drop 19 rest) as tail eqn:Htail. clear Htail.
  apply oneOrMore_inv in Hm as (run & rest' & -> & Hne & Hall & Hk).
  injection Hk as <-.
  rewrite lookup_insert_ne, lookup_insert_eq in Huid by discriminate.
  injection Huid as <-.
  match goal with
  | |- context [take ?n (run ++ rest')] => replace n with (length run) by lia
  end.
  rewrite take_app_length.
  split; [assumption|]. split; [assumption|]. split.
  - rewrite Hlit. rewrite (app_assoc _ run rest'). apply includes_middle.
  - unfold test, exec, bilibiliUidPattern.
    destruct run as [|c run]; [contradiction|].
    cbn [searchFrom]. unfold matchAt at 1. cbn [matchFrom Nat.eqb].
    erewrite oneOrMore_whole; [reflexivity | discriminate | assumption | reflexivity].
Qed.

(** A run of [getBilibiliUid_is_valid]. *)
Lemma getBilibiliUid_is_valid_witness :
  js "123456" <> [] /\ Forall (fun c => isDigit c = true) (js "123456") /\
  includes (js "https://space.bilibili.com/123456?from=search")
    (js "space.bilibili.com/" ++ js "123456") = true /\
  test bilibiliUidPattern (js "123456") = true.
Proof.
  apply (getBilibiliUid_is_valid (js "https://space.bilibili.com/123456?from=search")).
  vm_compute. reflexivity.
Defined.

(** ** [getYouTubeChannelId] *)

(** On the page of a channel, [https://www.youtube.com/channel/<id>],
    which is the address the Bilibili content script opens for a mapped
    channel, [getYouTubeChannelId] answers 'hannel' for every identifier,
    and does not look at the canonical link: the first group of the
    pattern matches the 'c' of 'channel', because nothing separates the
    two groups. *)
Theorem getYouTubeChannelId_on_channel_page (youtubeChannelId : jsstring)
    (canonical : option jsstring) :
  getYouTubeChannelId (channelPage youtubeChannelId) canonical = Some (js "hannel").
Proof. vm_compute. reflexivity. Qed.

Lemma truthy_Some (v : option jsstring) (id : jsstring) :
  truthy v = Some id -> v = Some id /\ id <> [].
Proof. destruct v as [[|c s]|]; intros [= <-]. split; [reflexivity | discriminate]. Qed.

(** One alternative of the first group, followed by [[\w-]+]: what the
    two consumed. *)
Lemma alternative_inv (kind tail : jsstring) (offset : nat)
    (k : nat -> jsstring -> option captures) (result : captures) :
  (if startsWith kind tail
   then oneOrMore isWordOrHyphen offset (drop (length kind) tail) k
   else None) = Some result ->
  exists run rest,
    tail = kind ++ run ++ rest /\ drop (length kind) tail = run ++ rest /\
    Forall (fun c => isWordOrHyphen c = true) run /\
    k (offset + length run)%nat rest = Some result.
Proof.
  destruct (startsWith kind tail) eqn:Hlit; [|discriminate].
  apply startsWith_split in Hlit. intros Hm.
  apply oneOrMore_inv in Hm as (run & rest & Hrun & Hne & Hall & Hk).
  exists run, rest. split; [now rewrite Hlit at 1; rewrite Hrun|]. auto.
Qed.

(** A match of [host(k1|k2|k3|k4)([\w-]+)]: what the second group holds. *)
Lemma kinds_then_run_inv (host k1 k2 k3 k4 : jsstring) (offset : nat) (s : jsstring)
    (caps : captures) :
  matchAt
    (Seq (Lit host)
       (Seq (Group 1 (Alt (Lit k1) (Alt (Lit k2) (Alt (Lit k3) (Lit k4)))))
            (Group 2 (Plus isWordOrHyphen))))
    offset s = Some caps ->
  exists kind run rest,
    kind ∈ [k1; k2; k3; k4] /\ s = host ++ kind ++ run ++ rest /\
    Forall (fun c => isWordOrHyphen c = true) run /\ caps !! 2%nat = Some run.
Proof.
  unfold matchAt. cbn [matchFrom]. intros Hm.
  destruct (startsWith host s) eqn:Hlit; [|discriminate].
  apply startsWith_split in Hlit.
  remember (drop (length host) s) as tail eqn:Htail. clear Htail.
  remember (offset + length host)%nat as offset' eqn:Hoff. clear Hoff.
  assert (exists kind run rest,
             kind ∈ [k1; k2; k3; k4] /\ tail = kind ++ run ++ rest /\
             Forall (fun c => isWordOrHyphen c = true) run /\
             caps !! 2%nat = Some run) as (kind & run & rest & Hkind & -> & Hall & Hrun).
  { repeat match type of Hm with
           | match ?m with Some _ => _ | None => _ end = Some _ =>
               let E := fresh "E" in
               let found := fresh "found" in
               destruct m as [found|] eqn:E;
                 [replace found with caps in * by congruence; clear Hm;
                  apply alternative_inv in E as (run & rest & Htl & Hdrop & Hall & Hk)|]
           end.
    4: apply alternative_inv in Hm as (run & rest & Htl & Hdrop & Hall & Hk).
    1: exists k1, run, rest. 2: exists k2, run, rest.
    3: exists k3, run, rest. 4: exists k4, run, rest.
    all: split; [set_solver|]. all: split; [assumption|]. all: split; [assumption|].
    all: apply (f_equal (fun o => o ≫= fun m : captures => m !! 2%nat)) in Hk.
    all: cbn [mbind option_bind] in Hk.
    all: rewrite lookup_insert_ne, lookup_insert_eq in Hk by discriminate.
    all: rewrite Hdrop in Hk.
    all: match type of Hk with
         | context [take ?n (?r ++ _)] => replace n with (length r) in Hk by lia
         end.
    all: rewrite take_app_length in Hk.
    all: congruence. }
  exists kind, run, rest. auto.
Qed.

(** An identifier [getYouTubeChannelId] returns is a non-empty run of
    letters, digits, underscores and hyphens: one that follows
    [youtube.com/] and one of 'channel', 'c', 'user', '@' in the address,
    or else one that starts with 'UC' and follows [youtube.com/channel/]
    in the canonical link of the page. *)
Theorem getYouTubeChannelId_is_well_formed (href : jsstring) (canonical : option jsstring)
    (id : jsstring) :
  getYouTubeChannelId href canonical = Some id ->
  id <> [] /\ Forall (fun c => isWordOrHyphen c = true) id /\
  ((exists kind, kind ∈ channelUrlKinds /\
      includes href (js "youtube.com/" ++ kind ++ id) = true) \/
   (exists link rest, canonical = Some link /\ id = js "UC" ++ rest /\
      includes link (js "youtube.com/channel/" ++ id) = true)).
Proof.
  unfold getYouTubeChannelId.
  destruct (exec channelUrlPattern href ≫= fun urlMatch => truthy (urlMatch !! 2%nat))
    as [id'|] eqn:Hurl.
  - intros [= ->].
    destruct (exec channelUrlPattern href) as [caps|] eqn:Hexec; [|discriminate].
    cbn [mbind option_bind] in Hurl. apply truthy_Some in Hurl as [Hid Hne].
    unfold exec in Hexec. apply searchFrom_inv in Hexec as (skipped & rest & -> & Hm).
    apply kinds_then_run_inv in Hm as (kind & run & rest' & Hkind & -> & Hall & Hrun).
    rewrite Hrun in Hid. injection Hid as <-.
    split; [assumption|]. split; [assumption|]. left.
    exists kind. split; [assumption|].
    replace (js "youtube.com/" ++ kind ++ run ++ rest')
      with ((js "youtube.com/" ++ kind ++ run) ++ rest') by now rewrite <- !app_assoc.
    apply includes_middle.
  - destruct canonical as [link|]; [|discriminate].
    destruct (exec canonicalPattern link) as [caps|] eqn:Hexec; [|discriminate].
    cbn [mbind option_bind]. intros Hid. apply truthy_Some in Hid as [Hid Hne].
    unfold exec in Hexec. apply searchFrom_inv in Hexec as (skipped & rest & -> & Hm).
    unfold matchAt, canonicalPattern in Hm. cbn [matchFrom] in Hm.
    destruct (startsWith (js "youtube.com/channel/") rest) eqn:Hlit; [|discriminate].
    apply startsWith_split in Hlit.
    remember (drop (length (js "youtube.com/channel/")) rest) as tail eqn:Htail.
    clear Htail.
    destruct (startsWith (js "UC") tail) eqn:Huc; [|discriminate].
    apply startsWith_split in Huc.
    remember (drop (length (js "UC")) tail) as tail' eqn:Htail'. clear Htail'.
    apply oneOrMore_inv in Hm as (run & rest' & -> & _ & Hall & Hk).
    injection Hk as <-.
    rewrite lookup_insert_ne, lookup_insert_eq in Hid by discriminate.
    injection Hid as <-. subst tail.
    match goal with
    | |- context [take ?n (js "UC" ++ run ++ rest')] =>
        replace n with (length (js "UC" ++ run)) by (rewrite length_app; cbn [length js]; lia)
    end.
    rewrite (app_assoc (js "UC") run rest'), take_app_length.
    split; [discriminate|]. split.
    + apply Forall_app. split; [repeat constructor | assumption].
    + right. exists (skipped ++ rest), run. split; [reflexivity|]. split; [reflexivity|].
      rewrite Hlit.
      replace (js "youtube.com/channel/" ++ js "UC" ++ run ++ rest')
        with ((js "youtube.com/channel/" ++ js "UC" ++ run) ++ rest')
        by now rewrite <- !app_assoc.
      apply includes_middle.
Qed.

(** A run of [getYouTubeChannelId_is_well_formed]: the address of a
    handle. *)
Lemma getYouTubeChannelId_is_well_formed_witness :
  js "SomeOne" <> [] /\ Forall (fun c => isWordOrHyphen c = true) (js "SomeOne") /\
  ((exists kind, kind ∈ channelUrlKinds /\
      includes (js "https://www.youtube.com/@SomeOne/videos")
        (js "youtube.com/" ++ kind ++ js "SomeOne") = true) \/
   (exists link rest, None = Some link /\ js "SomeOne" = js "UC" ++ rest /\
      includes link (js "youtube.com/channel/" ++ js "SomeOne") = true)).
Proof.
  apply (getYouTubeChannelId_is_well_formed (js "https://www.youtube.com/@SomeOne/videos")).
  vm_compute. reflexivity.
Defined.

(** * The mapping client *)

Section ClientFacts.

Variable value : Type.
Variable null : value.
Variable property : value -> jsstring -> result (option jsstring).
Variable World : Type.
Variable dateNow : World -> Z * World.
Variable fetchUrl : World -> jsstring -> result (Response value) * World.

Implicit Types s : session value World.

(** Every step of a lookup returns; what it leaves of the session. *)
Lemma readClock_spec s :
  exists t w,
    dateNow (world s) = (t, w) /\
    readClock value World dateNow s
    = (Ok t, {| client := client s; world := w; requests := requests s |}).
Proof. unfold readClock. destruct (dateNow (world s)) as [t w]. eauto. Qed.

Lemma fetchWithFallback_spec path s :
  exists r s' made,
    fetchWithFallback value World fetchUrl path s = (r, s') /\
    client s' = client s /\ requests s' = requests s ++ made /\ asked path made.
Proof.
  unfold fetchWithFallback, andThen, attempt, request, settled, pure, throw.
  cbn [world client requests].
  destruct (fetchUrl (world s) (CDN_BASE_URL ++ js "/" ++ path)) as [[response|e] w1].
  1: destruct (rs_ok response); [destruct (rs_json response) as [document|e]|].
  1: { do 3 eexists. split; [reflexivity|]. cbn. repeat split. constructor. }
  all: cbn [world client requests].
  all: destruct (fetchUrl w1 (GITHUB_RAW_URL ++ js "/" ++ path)) as [[response'|e'] w2].
  all: try destruct (rs_ok response'); cbn [negb].
  all: do 3 eexists; (split; [reflexivity|]); cbn [client requests].
  all: split; [reflexivity|]; rewrite <- app_assoc; split; [reflexivity|]; constructor.
Qed.

Lemma isCacheValid_spec (cached : option (CachedData value)) s :
  exists valid s',
    isCacheValid value World dateNow cached s = (Ok valid, s') /\
    client s' = client s /\ requests s' = requests s /\
    (valid = true -> is_Some cached).
Proof.
  destruct cached as [c|]; cbn [isCacheValid].
  - unfold andThen, pure. destruct (readClock_spec s) as (t & w & _ & ->).
    do 2 eexists. split; [reflexivity|]. cbn. eauto.
  - unfold pure. do 2 eexists. split; [reflexivity|]. repeat split. discriminate.
Qed.

(** A valid entry is served as it is. *)
Lemma isCacheValid_hit (c : CachedData value) s t w :
  dateNow (world s) = (t, w) -> t - cd_timestamp c < CACHE_TTL ->
  isCacheValid value World dateNow (Some c) s
  = (Ok true, {| client := client s; world := w; requests := requests s |}).
Proof.
  intros Hnow Hfresh. cbn [isCacheValid]. unfold andThen, pure, readClock.
  rewrite Hnow. apply Z.ltb_lt in Hfresh. now rewrite Hfresh.
Qed.

Lemma lookupMapping_shape (d : direction) (id : jsstring) :
  lookupMapping null property dateNow fetchUrl d id
  = getMappingVia value null property World dateNow fetchUrl (directionName d) (indexOf value World dateNow fetchUrl d) id.
Proof. destruct d; reflexivity. Qed.

(** Reading an index asks for at most one document and leaves the cached
    mappings alone. *)
Lemma indexOf_spec (d : direction) s :
  exists r s' made,
    indexOf value World dateNow fetchUrl d s = (r, s') /\
    mappingCache (client s') = mappingCache (client s) /\
    requests s' = requests s ++ made /\
    (made = [] \/ asked (directionName d ++ js "/index.json") made).
Proof.
  destruct d; cbn [indexOf directionName].
  - unfold getB2YIndex, andThen, field.
    destruct (isCacheValid_spec (b2yIndex (client s)) s) as (valid & s1 & -> & Hc & Hr & Hv).
    destruct valid.
    + destruct (Hv eq_refl) as [c ->]. cbn [dataOf]. unfold pure.
      do 3 eexists. split; [reflexivity|]. rewrite Hc, Hr, app_nil_r. auto.
    + destruct (fetchWithFallback_spec (js "b2y/index.json") s1)
        as ([index|e] & s2 & made & -> & Hc2 & Hr2 & Hasked).
      * destruct (readClock_spec s2) as (t & w & _ & ->).
        unfold assign, pure. cbn.
        do 3 eexists. split; [reflexivity|]. cbn.
        rewrite Hc2, Hc, Hr2, Hr. auto.
      * do 3 eexists. split; [reflexivity|]. rewrite Hc2, Hc, Hr2, Hr. auto.
  - unfold getY2BIndex, andThen, field.
    destruct (isCacheValid_spec (y2bIndex (client s)) s) as (valid & s1 & -> & Hc & Hr & Hv).
    destruct valid.
    + destruct (Hv eq_refl) as [c ->]. cbn [dataOf]. unfold pure.
      do 3 eexists. split; [reflexivity|]. rewrite Hc, Hr, app_nil_r. auto.
    + destruct (fetchWithFallback_spec (js "y2b/index.json") s1)
        as ([index|e] & s2 & made & -> & Hc2 & Hr2 & Hasked).
      * destruct (readClock_spec s2) as (t & w & _ & ->).
        unfold assign, pure. cbn.
        do 3 eexists. split; [reflexivity|]. cbn.
        rewrite Hc2, Hc, Hr2, Hr. auto.
      * do 3 eexists. split; [reflexivity|]. rewrite Hc2, Hc, Hr2, Hr. auto.
Qed.

(** One lookup, from any session: it returns, and what it returns is
    [null] or is in the cache afterwards. *)
Lemma getMappingVia_spec (d : direction) (id : jsstring) s :
  exists v s' made,
    getMappingVia value null property World dateNow fetchUrl
      (directionName d) (indexOf value World dateNow fetchUrl d) id s = (Ok v, s') /\
    requests s' = requests s ++ made /\ lookupRequests (directionName d) made /\
    (v = null \/
     exists c, mappingCache (client s') !! cacheKeyOf d id = Some c /\ cd_data c = v).
Proof.
  unfold getMappingVia, andThen, field. cbv zeta.
  fold (cacheKeyOf d id).
  destruct (isCacheValid_spec (mappingCache (client s) !! cacheKeyOf d id) s)
    as (valid & s1 & -> & Hc & Hr & Hv).
  destruct valid.
  { destruct (Hv eq_refl) as [c Hcached]. rewrite Hcached. cbn [dataOf]. unfold pure.
    exists (cd_data c), s1, []. split; [reflexivity|].
    split; [now rewrite Hr, app_nil_r|]. split.
    - exists [], []. auto.
    - right. exists c. rewrite Hc. auto. }
  unfold attempt.
  destruct (indexOf_spec d s1) as (r & s2 & forIndex & -> & Hc2 & Hr2 & Hidx).
  destruct r as [index|e].
  2: { unfold pure. exists null, s2, forIndex. split; [reflexivity|].
       split; [now rewrite Hr2, Hr|]. split; [|now left].
       exists forIndex, []. rewrite app_nil_r. auto. }
  unfold settled. destruct (property index id) as [[path|]|e].
  3: { unfold pure. exists null, s2, forIndex. split; [reflexivity|].
       split; [now rewrite Hr2, Hr|]. split; [|now left].
       exists forIndex, []. rewrite app_nil_r. auto. }
  2: { unfold pure. exists null, s2, forIndex. split; [reflexivity|].
       split; [now rewrite Hr2, Hr|]. split; [|now left].
       exists forIndex, []. rewrite app_nil_r. auto. }
  destruct (fetchWithFallback_spec (directionName d ++ js "/" ++ path) s2)
    as ([mapping|e] & s3 & forShard & -> & Hc3 & Hr3 & Hasked).
  - destruct (readClock_spec s3) as (t & w & _ & ->).
    unfold assign, pure. cbn.
    do 3 eexists. split; [reflexivity|]. cbn.
    split; [rewrite Hr3, Hr2, Hr, <- app_assoc; reflexivity|]. split.
    + exists forIndex, forShard. eauto.
    + right. eexists. rewrite lookup_insert_eq. eauto.
  - unfold pure. exists null, s3, (forIndex ++ forShard). split; [reflexivity|].
    split; [now rewrite Hr3, Hr2, Hr, <- app_assoc|]. split; [|now left].
    exists forIndex, forShard. eauto.
Qed.

(** A lookup whose entry is still valid: no request, no change. *)
Lemma getMappingVia_hit (d : direction) (id : jsstring) (c : CachedData value) s t w :
  mappingCache (client s) !! cacheKeyOf d id = Some c ->
  dateNow (world s) = (t, w) -> t - cd_timestamp c < CACHE_TTL ->
  getMappingVia value null property World dateNow fetchUrl
    (directionName d) (indexOf value World dateNow fetchUrl d) id s
  = (Ok (cd_data c), {| client := client s; world := w; requests := requests s |}).
Proof.
  intros Hcached Hnow Hfresh.
  unfold getMappingVia, andThen, field. cbv zeta. fold (cacheKeyOf d id).
  rewrite Hcached, (isCacheValid_hit c s t w Hnow Hfresh). reflexivity.
Qed.

End ClientFacts.

(** The lookups of the client never throw.  From any state of the client
    and of the world, [getMappingByBiliUid] and [getMappingByYouTubeId]
    return a value; on the way they ask for at most two documents, the
    index of their direction and one shard file, in this order, and for
    each of them the CDN first and GitHub only after the CDN. *)
Theorem lookups_never_throw (value World : Type) (null : value)
    (property : value -> jsstring -> result (option jsstring))
    (dateNow : World -> Z * World)
    (fetchUrl : World -> jsstring -> result (Response value) * World)
    (d : direction) (id : jsstring) (s : session value World) :
  exists v s' made,
    lookupMapping null property dateNow fetchUrl d id s = (Ok v, s') /\
    requests s' = requests s ++ made /\
    lookupRequests (directionName d) made /\ (length made <= 4)%nat.
Proof.
  rewrite lookupMapping_shape.
  destruct (getMappingVia_spec value null property World dateNow fetchUrl d id s)
    as (v & s' & made & Hrun & Hreq & Hshape & _).
  exists v, s', made. split; [assumption|]. split; [assumption|]. split; [assumption|].
  destruct Hshape as (forIndex & forShard & -> & Hi & Hs). rewrite length_app.
  assert (length forIndex <= 2)%nat by (destruct Hi as [->|[]]; cbn; lia).
  assert (length forShard <= 2)%nat by (destruct Hs as [->|[path []]]; cbn; lia).
  lia.
Qed.

(** The cache of mappings.  When a lookup has returned a value other than
    [null], the cache holds that value under the key of the lookup, and
    every later lookup of the same identifier that reads the clock less
    than [CACHE_TTL] after the timestamp of the entry returns the same
    value, sends no request and leaves the client as it is. *)
Theorem answered_mapping_is_cached (value World : Type) (null : value)
    (property : value -> jsstring -> result (option jsstring))
    (dateNow : World -> Z * World)
    (fetchUrl : World -> jsstring -> result (Response value) * World)
    (d : direction) (id : jsstring) (s s1 : session value World) (v : value) :
  lookupMapping null property dateNow fetchUrl d id s = (Ok v, s1) ->
  v <> null ->
  exists c,
    mappingCache (client s1) !! cacheKeyOf d id = Some c /\ cd_data c = v /\
    forall s2 t w,
      client s2 = client s1 -> dateNow (world s2) = (t, w) ->
      t - cd_timestamp c < CACHE_TTL ->
      lookupMapping null property dateNow fetchUrl d id s2
      = (Ok v, {| client := client s1; world := w; requests := requests s2 |}).
Proof.
  rewrite lookupMapping_shape. intros Hrun Hv.
  destruct (getMappingVia_spec value null property World dateNow fetchUrl d id s)
    as (v' & s' & made & Hrun' & _ & _ & Hcached).
  rewrite Hrun in Hrun'. injection Hrun' as <- <-.
  destruct Hcached as [-> | (c & Hc & Hdata)]; [contradiction|].
  exists c. split; [assumption|]. split; [assumption|].
  intros s2 t w Hclient Hnow Hfresh.
  rewrite (getMappingVia_hit value null property World dateNow fetchUrl d id c s2 t w);
    [now rewrite Hdata, Hclient | now rewrite Hclient | assumption | assumption].
Qed.

(** A run of [answered_mapping_is_cached]: the scenario of the test suite.
    The first lookup asks the CDN for the index and for the shard file. *)
Lemma answered_mapping_is_cached_witness :
  requests SampleClient.warm
  = [CDN_BASE_URL ++ js "/b2y/index.json"; CDN_BASE_URL ++ js "/b2y/12/34/12345678.json"] /\
  exists c,
    mappingCache (client SampleClient.warm) !! cacheKeyOf B2Y (js "123456") = Some c /\
    cd_data c = SampleClient.mappingText /\
    forall s2 t w,
      client s2 = client SampleClient.warm -> SampleClient.dateNow (world s2) = (t, w) ->
      t - cd_timestamp c < CACHE_TTL ->
      lookupMapping SampleClient.null SampleClient.property SampleClient.dateNow
        SampleClient.fetchUrl B2Y (js "123456") s2
      = (Ok SampleClient.mappingText,
         {| client := client SampleClient.warm; world := w; requests := requests s2 |}).
Proof.
  split; [vm_compute; reflexivity|].
  apply (answered_mapping_is_cached jsstring Z SampleClient.null SampleClient.property
           SampleClient.dateNow SampleClient.fetchUrl B2Y (js "123456") SampleClient.cold).
  - vm_compute. reflexivity.
  - discriminate.
Defined.

(** * The rankings and the scanner *)

Lemma collectOwners_firstOccurrences (numberToString : number -> jsstring)
    (items : list RankingOwner) :
  collectOwners numberToString items
  = firstOccurrences ∅ (map (rankedUser numberToString) items).
Proof.
  unfold collectOwners.
  enough (forall state,
             fold_left
               (fun (state : gset jsstring * list BilibiliUser) item =>
                  let uid := numberToString (ro_mid item) in
                  if decide (uid ∈ state.1) then state
                  else ({[uid]} ∪ state.1, state.2 ++ [rankedUser numberToString item]))
               items state
             = fold_left
                 (fun (state : gset jsstring * list BilibiliUser) user =>
                    if decide (bu_uid user ∈ state.1) then state
                    else ({[bu_uid user]} ∪ state.1, state.2 ++ [user]))
                 (map (rankedUser numberToString) items) state) as ->.
  { now rewrite dedupe_inner. }
  induction items as [|item items IH]; intros state; [reflexivity|].
  cbn [fold_left map]. rewrite <- IH. reflexivity.
Qed.

(** A ranking lists every owner once.  When [getHotRankings] returns, the
    payload had [code] 0, and the users returned are the owners of the
    listed items in their order, each identifier at its first occurrence
    only; of every user the bio is empty and the follower count and the
    level are 0, whatever the profile says; and [getTop100Creators] and,
    on the same payload, [getMustWatchList] return the same list. *)
Theorem rankings_list_each_owner_once (numberToString : number -> jsstring)
    (payload : result RankingPayload) (users : list BilibiliUser) :
  getHotRankings numberToString payload = Ok users ->
  exists data,
    payload = Ok data /\ PrimFloat.eqb (rp_code data) 0 = true /\
    users = firstOccurrences ∅ (map (rankedUser numberToString) (rp_list data)) /\
    NoDup (map bu_uid users) /\
    (forall owner, owner ∈ rp_list data ->
       numberToString (ro_mid owner) ∈ map bu_uid users) /\
    Forall (fun user => bu_sign user = [] /\ bu_follower user = 0%float /\
                        bu_level user = 0%float) users /\
    getTop100Creators numberToString payload = Ok users /\
    getMustWatchList numberToString payload = Ok users.
Proof.
  intros Hget. unfold getTop100Creators. rewrite Hget.
  unfold getHotRankings in Hget. unfold getMustWatchList.
  destruct payload as [data|e]; [|discriminate].
  destruct (PrimFloat.eqb (rp_code data) 0) eqn:Hcode; [|discriminate].
  cbn [negb] in Hget. injection Hget as <-.
  rewrite collectOwners_firstOccurrences.
  exists data. split; [reflexivity|]. split; [assumption|]. split; [reflexivity|].
  split; [apply firstOccurrences_NoDup|]. split; [|split; [|split; reflexivity]].
  - intros owner Hin.
    apply (firstOccurrences_covers ∅ _ (rankedUser numberToString owner)).
    + apply list_elem_of_fmap. now exists owner.
    + set_solver.
  - apply Forall_forall. intros user Hin.
    apply firstOccurrences_fresh in Hin as [_ Hin].
    apply list_elem_of_fmap in Hin as (owner & -> & _). auto.
Qed.

(** A run of [rankings_list_each_owner_once]: two videos of one owner and
    one of another. *)
Lemma rankings_list_each_owner_once_witness :
  exists data,
    Ok SampleScanner.ranking = Ok data /\
    PrimFloat.eqb (rp_code data) 0 = true /\
    SampleScanner.ranked
    = firstOccurrences ∅ (map (rankedUser SampleScanner.numberToString) (rp_list data)) /\
    NoDup (map bu_uid SampleScanner.ranked) /\
    (forall owner, owner ∈ rp_list data ->
       SampleScanner.numberToString (ro_mid owner) ∈ map bu_uid SampleScanner.ranked) /\
    Forall (fun user => bu_sign user = [] /\ bu_follower user = 0%float /\
                        bu_level user = 0%float) SampleScanner.ranked /\
    getTop100Creators SampleScanner.numberToString (Ok SampleScanner.ranking)
    = Ok SampleScanner.ranked /\
    getMustWatchList SampleScanner.numberToString (Ok SampleScanner.ranking)
    = Ok SampleScanner.ranked.
Proof.
  apply (rankings_list_each_owner_once SampleScanner.numberToString).
  vm_compute. reflexivity.
Defined.

(** ** The scans *)

Lemma elem_of_filterNewUsers (config : ShardConfig) (baseDir : jsstring) (fs : disk)
    (users : list BilibiliUser) (user : BilibiliUser) :
  user ∈ filterNewUsers config baseDir fs users <->
  user ∈ users /\ hasMapping config baseDir fs (bu_uid user) = false.
Proof.
  unfold filterNewUsers.
  enough (forall acc,
             user ∈ fold_left
                      (fun newUsers u =>
                         if negb (hasMapping config baseDir fs (bu_uid u))
                         then newUsers ++ [u] else newUsers) users acc
             <-> user ∈ acc \/
                 (user ∈ users /\ hasMapping config baseDir fs (bu_uid user) = false)) as H.
  { rewrite H. set_solver. }
  induction users as [|u users IH]; intros acc; cbn [fold_left].
  - set_solver.
  - rewrite IH. destruct (hasMapping config baseDir fs (bu_uid u)) eqn:Hu; cbn [negb].
    + split; [set_solver|]. intros [?|[Hin Hnew]]; [auto|].
      apply elem_of_cons in Hin as [->|Hin]; [congruence | auto].
    + rewrite elem_of_app, list_elem_of_singleton. split.
      * intros [[?| ->]|[? ?]]; [auto | right | right]; split; set_solver.
      * intros [?|[Hin Hnew]]; [auto|].
        apply elem_of_cons in Hin as [->|Hin]; auto.
Qed.

(** What a daily scan reports.  A cold start asks the client for the top
    100 and then for the must-watch list, any other run for the hot
    rankings, and nothing else of the configuration is read ([maxUsers]
    and [delayMs] bound nothing).  There is one result per list, in that
    order: its users are the users of that list [filterNewUsers] keeps,
    so users of the list, in their order, that have no shard file in the
    store of source identifiers; [newUsers] is their number,
    [totalScanned] the length of the list, [scannedAt] the instant read
    after the list arrived.  [deduplicateUsers] makes of the results a
    list of such users in which no identifier occurs twice. *)
Theorem daily_scan_reports_new_users (World : Type)
    (toISOString : World -> jsstring * World)
    (hotRankings mustWatchList top100Creators : World -> result (list BilibiliUser) * World)
    (shardManagers : ShardManagers) (fs : disk) (config : ScannerConfig)
    (w w' : World) (results : list ScanResult) :
  runDailyScan World toISOString hotRankings mustWatchList top100Creators
    shardManagers fs config w = (Ok results, w') ->
  (if coldStart config
   then
     exists top100 mustWatch w1 w2 w3 at1 at2,
       top100Creators w = (Ok top100, w1) /\ toISOString w1 = (at1, w2) /\
       mustWatchList w2 = (Ok mustWatch, w3) /\ toISOString w3 = (at2, w') /\
       results
       = [ {| sr_type := Top100;
              sr_users :=
                filterNewUsers (sm_config (b2y shardManagers))
                  (sm_baseDir (b2y shardManagers)) fs top100;
              sr_scannedAt := at1;
              sr_totalScanned := toNumber (Z.of_nat (length top100));
              sr_newUsers :=
                toNumber (Z.of_nat (length
                  (filterNewUsers (sm_config (b2y shardManagers))
                     (sm_baseDir (b2y shardManagers)) fs top100))) |};
           {| sr_type := MustWatch;
              sr_users :=
                filterNewUsers (sm_config (b2y shardManagers))
                  (sm_baseDir (b2y shardManagers)) fs mustWatch;
              sr_scannedAt := at2;
              sr_totalScanned := toNumber (Z.of_nat (length mustWatch));
              sr_newUsers :=
                toNumber (Z.of_nat (length
                  (filterNewUsers (sm_config (b2y shardManagers))
                     (sm_baseDir (b2y shardManagers)) fs mustWatch))) |} ] /\
       filterNewUsers (sm_config (b2y shardManagers)) (sm_baseDir (b2y shardManagers))
         fs top100 `sublist_of` top100 /\
       filterNewUsers (sm_config (b2y shardManagers)) (sm_baseDir (b2y shardManagers))
         fs mustWatch `sublist_of` mustWatch
   else
     exists hot w1 at1,
       hotRankings w = (Ok hot, w1) /\ toISOString w1 = (at1, w') /\
       results
       = [ {| sr_type := Hot;
              sr_users :=
                filterNewUsers (sm_config (b2y shardManagers))
                  (sm_baseDir (b2y shardManagers)) fs hot;
              sr_scannedAt := at1;
              sr_totalScanned := toNumber (Z.of_nat (length hot));
              sr_newUsers :=
                toNumber (Z.of_nat (length
                  (filterNewUsers (sm_config (b2y shardManagers))
                     (sm_baseDir (b2y shardManagers)) fs hot))) |} ] /\
       filterNewUsers (sm_config (b2y shardManagers)) (sm_baseDir (b2y shardManagers))
         fs hot `sublist_of` hot) /\
  map sr_type results = (if coldStart config then [Top100; MustWatch] else [Hot]) /\
  Forall (fun r =>
            Forall (unmapped shardManagers fs) (sr_users r) /\
            sr_newUsers r = toNumber (Z.of_nat (length (sr_users r)))) results /\
  NoDup (map bu_uid (deduplicateUsers results)) /\
  Forall (unmapped shardManagers fs) (deduplicateUsers results) /\
  forall config',
    coldStart config' = coldStart config ->
    runDailyScan World toISOString hotRankings mustWatchList top100Creators
      shardManagers fs config' w = (Ok results, w').
Proof.
  intros Hrun.
  assert (forall users,
            filterNewUsers (sm_config (b2y shardManagers)) (sm_baseDir (b2y shardManagers))
              fs users `sublist_of` users /\
            Forall (unmapped shardManagers fs)
              (filterNewUsers (sm_config (b2y shardManagers))
                 (sm_baseDir (b2y shardManagers)) fs users)) as Hkept.
  { intros users. split.
    - unfold filterNewUsers.
      enough (forall acc,
                 fold_left
                   (fun newUsers u =>
                      if negb (hasMapping (sm_config (b2y shardManagers))
                                 (sm_baseDir (b2y shardManagers)) fs (bu_uid u))
                      then newUsers ++ [u] else newUsers) users acc
                 `sublist_of` acc ++ users) as H by apply (H []).
      induction users as [|u users IH]; intros acc; cbn [fold_left].
      + now rewrite app_nil_r.
      + destruct (negb _).
        * rewrite (cons_middle u acc users), app_assoc. apply IH.
        * etransitivity; [apply IH|]. apply sublist_app; [reflexivity|].
          now apply sublist_cons.
    - apply Forall_forall. intros user Hin.
      now apply elem_of_filterNewUsers in Hin as [_ ?]. }
  assert ((if coldStart config
           then
             exists top100 mustWatch w1 w2 w3 at1 at2,
               top100Creators w = (Ok top100, w1) /\ toISOString w1 = (at1, w2) /\
               mustWatchList w2 = (Ok mustWatch, w3) /\ toISOString w3 = (at2, w') /\
               results
               = [ {| sr_type := Top100;
                      sr_users :=
                        filterNewUsers (sm_config (b2y shardManagers))
                          (sm_baseDir (b2y shardManagers)) fs top100;
                      sr_scannedAt := at1;
                      sr_totalScanned := toNumber (Z.of_nat (length top100));
                      sr_newUsers :=
                        toNumber (Z.of_nat (length
                          (filterNewUsers (sm_config (b2y shardManagers))
                             (sm_baseDir (b2y shardManagers)) fs top100))) |};
                   {| sr_type := MustWatch;
                      sr_users :=
                        filterNewUsers (sm_config (b2y shardManagers))
                          (sm_baseDir (b2y shardManagers)) fs mustWatch;
                      sr_scannedAt := at2;
                      sr_totalScanned := toNumber (Z.of_nat (length mustWatch));
                      sr_newUsers :=
                        toNumber (Z.of_nat (length
                          (filterNewUsers (sm_config (b2y shardManagers))
                             (sm_baseDir (b2y shardManagers)) fs mustWatch))) |} ] /\
               filterNewUsers (sm_config (b2y shardManagers))
                 (sm_baseDir (b2y shardManagers)) fs top100 `sublist_of` top100 /\
               filterNewUsers (sm_config (b2y shardManagers))
                 (sm_baseDir (b2y shardManagers)) fs mustWatch `sublist_of` mustWatch
           else
             exists hot w1 at1,
               hotRankings w = (Ok hot, w1) /\ toISOString w1 = (at1, w') /\
               results
               = [ {| sr_type := Hot;
                      sr_users :=
                        filterNewUsers (sm_config (b2y shardManagers))
                          (sm_baseDir (b2y shardManagers)) fs hot;
                      sr_scannedAt := at1;
                      sr_totalScanned := toNumber (Z.of_nat (length hot));
                      sr_newUsers :=
                        toNumber (Z.of_nat (length
                          (filterNewUsers (sm_config (b2y shardManagers))
                             (sm_baseDir (b2y shardManagers)) fs hot))) |} ] /\
               filterNewUsers (sm_config (b2y shardManagers))
                 (sm_baseDir (b2y shardManagers)) fs hot `sublist_of` hot)) as Hshape.
  { revert Hrun. unfold runDailyScan, scanTop100, scanMustWatchList, scanHotRankings, scanWith.
    destruct (coldStart config).
    - destruct (top100Creators w) as [[top100|e] w1] eqn:E1; [|discriminate].
      destruct (toISOString w1) as [at1 w2] eqn:T1.
      destruct (mustWatchList w2) as [[mustWatch|e] w3] eqn:E2; [|discriminate].
      destruct (toISOString w3) as [at2 w4] eqn:T2.
      intros [= <- <-]. exists top100, mustWatch, w1, w2, w3, at1, at2.
      repeat (split; [first [assumption | reflexivity]|]). split; apply Hkept.
    - destruct (hotRankings w) as [[hot|e] w1] eqn:E1; [|discriminate].
      destruct (toISOString w1) as [at1 w2] eqn:T1.
      intros [= <- <-]. exists hot, w1, at1.
      repeat (split; [first [assumption | reflexivity]|]). apply Hkept. }
  assert (map sr_type results = (if coldStart config then [Top100; MustWatch] else [Hot]) /\
          Forall (fun r =>
                    Forall (unmapped shardManagers fs) (sr_users r) /\
                    sr_newUsers r = toNumber (Z.of_nat (length (sr_users r)))) results)
    as [Htypes Hall].
  { destruct (coldStart config).
    - destruct Hshape
        as (top100 & mustWatch & w1 & w2 & w3 & at1 & at2 & _ & _ & _ & _ & -> & _).
      split; [reflexivity|]. repeat constructor; cbn; apply Hkept.
    - destruct Hshape as (hot & w1 & at1 & _ & _ & -> & _).
      split; [reflexivity|]. repeat constructor; cbn; apply Hkept. }
  split; [assumption|]. split; [assumption|]. split; [assumption|].
  assert (deduplicateUsers results = firstOccurrences ∅ (scannedUsers results)) as ->.
  { unfold deduplicateUsers. now rewrite dedupe_outer. }
  split; [apply firstOccurrences_NoDup|]. split.
  - apply Forall_forall. intros user Hin.
    apply firstOccurrences_fresh in Hin as [_ Hin].
    unfold scannedUsers in Hin. apply list_elem_of_In, in_flat_map in Hin as (r & Hr & Hu).
    apply list_elem_of_In in Hr, Hu.
    eapply Forall_forall in Hall as [Hnew _]; [|exact Hr].
    eapply Forall_forall in Hnew; eauto.
  - intros config' Hsame. rewrite <- Hrun. unfold runDailyScan. now rewrite Hsame.
Qed.

(** A run of [daily_scan_reports_new_users]: the lists of the scanner
    tests, on a cold start, with a store that knows "222". *)
Lemma daily_scan_reports_new_users_witness :
  (if coldStart SampleScanner.coldConfig
   then
     exists top100 mustWatch w1 w2 w3 at1 at2,
       SampleScanner.top100Creators 0%nat = (Ok top100, w1) /\ SampleScanner.toISOString w1 = (at1, w2) /\
       SampleScanner.mustWatchList w2 = (Ok mustWatch, w3) /\ SampleScanner.toISOString w3 = (at2, 4%nat) /\
       SampleScanner.coldResults
       = [ {| sr_type := Top100;
              sr_users :=
                filterNewUsers (sm_config (b2y SampleScanner.managers))
                  (sm_baseDir (b2y SampleScanner.managers)) SampleScanner.store top100;
              sr_scannedAt := at1;
              sr_totalScanned := toNumber (Z.of_nat (length top100));
              sr_newUsers :=
                toNumber (Z.of_nat (length
                  (filterNewUsers (sm_config (b2y SampleScanner.managers))
                     (sm_baseDir (b2y SampleScanner.managers)) SampleScanner.store top100))) |};
           {| sr_type := MustWatch;
              sr_users :=
                filterNewUsers (sm_config (b2y SampleScanner.managers))
                  (sm_baseDir (b2y SampleScanner.managers)) SampleScanner.store mustWatch;
              sr_scannedAt := at2;
              sr_totalScanned := toNumber (Z.of_nat (length mustWatch));
              sr_newUsers :=
                toNumber (Z.of_nat (length
                  (filterNewUsers (sm_config (b2y SampleScanner.managers))
                     (sm_baseDir (b2y SampleScanner.managers)) SampleScanner.store mustWatch))) |} ] /\
       filterNewUsers (sm_config (b2y SampleScanner.managers)) (sm_baseDir (b2y SampleScanner.managers))
         SampleScanner.store top100 `sublist_of` top100 /\
       filterNewUsers (sm_config (b2y SampleScanner.managers)) (sm_baseDir (b2y SampleScanner.managers))
         SampleScanner.store mustWatch `sublist_of` mustWatch
   else
     exists hot w1 at1,
       SampleScanner.hotRankings 0%nat = (Ok hot, w1) /\ SampleScanner.toISOString w1 = (at1, 4%nat) /\
       SampleScanner.coldResults
       = [ {| sr_type := Hot;
              sr_users :=
                filterNewUsers (sm_config (b2y SampleScanner.managers))
                  (sm_baseDir (b2y SampleScanner.managers)) SampleScanner.store hot;
              sr_scannedAt := at1;
              sr_totalScanned := toNumber (Z.of_nat (length hot));
              sr_newUsers :=
                toNumber (Z.of_nat (length
                  (filterNewUsers (sm_config (b2y SampleScanner.managers))
                     (sm_baseDir (b2y SampleScanner.managers)) SampleScanner.store hot))) |} ] /\
       filterNewUsers (sm_config (b2y SampleScanner.managers)) (sm_baseDir (b2y SampleScanner.managers))
         SampleScanner.store hot `sublist_of` hot) /\
  map sr_type SampleScanner.coldResults = (if coldStart SampleScanner.coldConfig then [Top100; MustWatch] else [Hot]) /\
  Forall (fun r =>
            Forall (unmapped SampleScanner.managers SampleScanner.store) (sr_users r) /\
            sr_newUsers r = toNumber (Z.of_nat (length (sr_users r)))) SampleScanner.coldResults /\
  NoDup (map bu_uid (deduplicateUsers SampleScanner.coldResults)) /\
  Forall (unmapped SampleScanner.managers SampleScanner.store) (deduplicateUsers SampleScanner.coldResults) /\
  forall config',
    coldStart config' = coldStart SampleScanner.coldConfig ->
    runDailyScan nat SampleScanner.toISOString SampleScanner.hotRankings
      SampleScanner.mustWatchList SampleScanner.top100Creators SampleScanner.managers
      SampleScanner.store config' 0%nat = (Ok SampleScanner.coldResults, 4%nat).
Proof.
  apply (daily_scan_reports_new_users nat SampleScanner.toISOString
           SampleScanner.hotRankings SampleScanner.mustWatchList
           SampleScanner.top100Creators SampleScanner.managers SampleScanner.store
           SampleScanner.coldConfig 0%nat 4%nat).
  vm_compute. reflexivity.
Defined.

(** ** Cold starts *)

(** [isColdStart] answers [true] exactly when neither of the two index
    files holds a document: an index that is missing, cannot be read or
    does not parse counts as no index.  It never throws, and once either
    manager has written its index the answer is [false]. *)
Theorem isColdStart_without_index (shardManagers : ShardManagers) (fs : disk) :
  exists cold,
    isColdStart shardManagers fs = Ok cold /\
    (cold = false <->
     exists m d, (m = b2y shardManagers \/ m = y2b shardManagers) /\
       fileAt fs (sm_baseDir m ++ js "/index.json") = Some (File (Json d))) /\
    forall m index fs',
      m = b2y shardManagers \/ m = y2b shardManagers ->
      writeIndex (sm_baseDir m) fs index = (Ok tt, fs') ->
      isColdStart shardManagers fs' = Ok false.
Proof.
  assert (forall fs0 dir,
             readIndex dir fs0
             = Ok match fileAt fs0 (dir ++ js "/index.json") with
                  | Some (File (Json d)) => Some d
                  | _ => None
                  end) as Hread.
  { intros fs0 dir. unfold readIndex, fileExists, fileJson, catch.
    destruct (fileAt fs0 (dir ++ js "/index.json")) as [[[d|t]|]|]; reflexivity. }
  unfold isColdStart. rewrite !Hread.
  eexists. split; [reflexivity|]. split.
  - split.
    + intros Hcold. apply andb_false_iff in Hcold as [H|H].
      * destruct (fileAt fs (sm_baseDir (b2y shardManagers) ++ js "/index.json"))
          as [[[d|t]|]|] eqn:E; try discriminate. exists (b2y shardManagers), d. auto.
      * destruct (fileAt fs (sm_baseDir (y2b shardManagers) ++ js "/index.json"))
          as [[[d|t]|]|] eqn:E; try discriminate. exists (y2b shardManagers), d. auto.
    + intros (m & d & [-> | ->] & ->); [reflexivity|]. apply andb_false_r.
  - intros m index fs' Hm Hw. rewrite !Hread.
    assert (fileAt fs' (sm_baseDir m ++ js "/index.json")
            = Some (File (Json (JIndex index))))
      as Hfile.
    { revert Hw. unfold writeIndex.
      destruct (bunWrite fs _ _) as [fs1|] eqn:E; [|discriminate].
      intros [= <-]. apply bunWrite_ok in E as [-> _]. apply fileAt_written. }
    destruct Hm as [-> | ->]; rewrite Hfile; [reflexivity|]. now rewrite andb_false_r.
Qed.

(** ** Deleted mappings and the scanner *)

(** A user whose mapping was deleted is not found again.  [deleteMapping]
    empties the shard file and leaves it in place, and [filterNewUsers]
    asks whether the file exists: after a deletion it returns no user
    whose identifier is stored under the shard path of the deleted one. *)
Theorem deleted_user_is_not_rescanned (config : ShardConfig) (baseDir : jsstring)
    (fs fs' : disk) (userId : jsstring) (users : list BilibiliUser) (user : BilibiliUser) :
  deleteMapping config baseDir fs userId = (Ok tt, fs') ->
  user ∈ filterNewUsers config baseDir fs' users ->
  getShardPath config (bu_uid user) <> getShardPath config userId.
Proof.
  intros Hdel Hin Hsame.
  apply elem_of_filterNewUsers in Hin as [_ Hnew].
  revert Hdel. unfold deleteMapping.
  destruct (bunWrite fs _ _) as [fs1|] eqn:E; [|discriminate].
  intros [= <-]. apply bunWrite_ok in E as [-> _].
  unfold hasMapping, fileExists, getFullPath in Hnew. rewrite Hsame in Hnew.
  change (baseDir ++ js "/" ++ getShardPath config userId)
    with (getFullPath config baseDir userId) in Hnew.
  rewrite fileAt_written in Hnew. discriminate.
Qed.

(** A run of [deleted_user_is_not_rescanned]: "222" is deleted from a
    store that held it, and a scan that lists "111" and "222" keeps
    "111". *)
Lemma deleted_user_is_not_rescanned_witness :
  getShardPath DEFAULT_SHARD_CONFIG (bu_uid (SampleScanner.user "111" "User1" 10000%float))
  <> getShardPath DEFAULT_SHARD_CONFIG (js "222") /\
  filterNewUsers DEFAULT_SHARD_CONFIG (sm_baseDir (b2y SampleScanner.managers))
    (deleteMapping DEFAULT_SHARD_CONFIG (sm_baseDir (b2y SampleScanner.managers))
       SampleScanner.store (js "222")).2
    [SampleScanner.user "111" "User1" 10000%float;
     SampleScanner.user "222" "User2" 20000%float]
  = [SampleScanner.user "111" "User1" 10000%float].
Proof.
  split; [|vm_compute; reflexivity].
  apply (deleted_user_is_not_rescanned DEFAULT_SHARD_CONFIG
           (sm_baseDir (b2y SampleScanner.managers)) SampleScanner.store
           (deleteMapping DEFAULT_SHARD_CONFIG (sm_baseDir (b2y SampleScanner.managers))
              SampleScanner.store (js "222")).2
           (js "222")
           [SampleScanner.user "111" "User1" 10000%float;
            SampleScanner.user "222" "User2" 20000%float]).
  - vm_compute. reflexivity.
  - vm_compute. apply list_elem_of_here.
Defined.

(** * What the workflow publishes, the extension finds *)

Section PublicationFacts.

Variable value : Type.
Variable null : value.
Variable property : value -> jsstring -> result (option jsstring).
Variable World : Type.
Variable dateNow : World -> Z * World.
Variable fetchUrl : World -> jsstring -> result (Response value) * World.

Implicit Types s : session value World.



End PublicationFacts.





